(** * Serena-MCP: context aggregation, result cache and language-server sessions

A shallow embedding of the Python package [serena_mcp]
([context_manager.py], [cache_manager.py], [lsp_client.py],
[mcp_stdio_server.py]) together with the properties its specification
states about it, and further properties of the code.

Conventions of the embedding.
- A Python [str] is a [string]; text is taken as its UTF-8 bytes, so
  [len(value.encode("utf-8"))] is [String.length].
- A Python [int] is a [Z]; a [dict] read from JSON is a [json] value.
- A coroutine that raises, or that never returns, is an [outcome].
- The operating system and the third-party libraries (file system,
  [os.walk], [re], [hashlib], [json], [tiktoken], the spawned backend
  processes) are gathered in a [World] the definitions are read in. *)

From Stdlib Require Import ZArith String Ascii List Lia Bool Sorted Permutation.
From stdpp Require Import base strings gmap list pretty.

Local Open Scope Z_scope.
Set Warnings "-register-all".

(** ** Python primitives *)

(** A value decoded from JSON, as the backends send it and as the
    aggregator passes it on.  Floating-point numbers are left out; a
    [dict] is the list of its bindings, read at the first match. *)
Inductive json : Type :=
| JNull
| JBool (b : bool)
| JInt (n : Z)
| JStr (s : string)
| JList (l : list json)
| JDict (kv : list (string * json)).

(** The exceptions the modelled code meets. *)
Inductive exn : Type :=
| LSPError (error : json)
| AttributeError
| TypeError
| KeyError
| ValueError
| JSONDecodeError
| OSError (path : string).

(** What a call does: it returns, it raises, or it never comes back
    (the blocking read loop of a session waits forever on a silent
    backend). *)
Inductive outcome (A : Type) : Type :=
| Returned (a : A)
| Raised (e : exn)
| Hangs.
Arguments Returned {A} a.
Arguments Raised {A} e.
Arguments Hangs {A}.

Global Instance outcome_ret : MRet outcome := fun A a => Returned a.
Global Instance outcome_bind : MBind outcome := fun A B k m =>
  match m with
  | Returned a => k a
  | Raised e => Raised e
  | Hangs => Hangs
  end.

(** [bool(v)] *)
Definition truthy (v : json) : bool :=
  match v with
  | JNull => false
  | JBool b => b
  | JInt n => negb (n =? 0)
  | JStr s => negb (String.eqb s EmptyString)
  | JList l => match l with [] => false | _ => true end
  | JDict kv => match kv with [] => false | _ => true end
  end.

(** [d.get(k)] as an option, for a dictionary given by the list of its
    bindings. *)
Fixpoint assoc {A : Type} (k : string) (kv : list (string * A)) : option A :=
  match kv with
  | [] => None
  | (k', v) :: rest => if String.eqb k' k then Some v else assoc k rest
  end.

(** [v.get(k, d)]: only a [dict] has the method. *)
Definition py_get (v : json) (k : string) (d : json) : outcome json :=
  match v with
  | JDict kv => Returned (default d (assoc k kv))
  | _ => Raised AttributeError
  end.

(** [v == n] for an integer [n]; [True == 1] and [False == 0] hold in
    Python. *)
Definition eq_int (v : json) (n : Z) : bool :=
  match v with
  | JInt m => m =? n
  | JBool b => (if b then 1 else 0) =? n
  | _ => false
  end.

(** [sub in s] on strings. *)
Fixpoint str_in (sub s : string) : bool :=
  String.prefix sub s ||
  match s with
  | EmptyString => false
  | String _ s' => str_in sub s'
  end.

(** [s.split(sep)] for a one-character separator: never empty. *)
Fixpoint str_split (sep : ascii) (s : string) : list string :=
  match s with
  | EmptyString => [EmptyString]
  | String c s' =>
      if Ascii.eqb c sep then EmptyString :: str_split sep s'
      else match str_split sep s' with
           | w :: ws => String c w :: ws
           | [] => [String c EmptyString]
           end
  end.

(** [s.split(sep, 1)] when [sep in s]: the text before the first
    separator and the text after it; [None] when [sep] does not occur
    (Python then returns the one-element list [[s]]). *)
Fixpoint str_split_once (sep : ascii) (s : string) : option (string * string) :=
  match s with
  | EmptyString => None
  | String c s' =>
      if Ascii.eqb c sep then Some (EmptyString, s')
      else match str_split_once sep s' with
           | Some (a, b) => Some (String c a, b)
           | None => None
           end
  end.

(** ['\n'.join(lines)] *)
Definition newline : ascii := "010"%char.
Definition join_lines (lines : list string) : string :=
  String.concat (String newline EmptyString) lines.

(** [s.replace(old, new)] for an empty [new]: every non-overlapping occurrence of [old],
    found left to right, is dropped.  [skip] counts the characters of an
    occurrence still to drop. *)
Fixpoint remove_all_from (old : string) (skip : nat) (s : string) : string :=
  match s with
  | EmptyString => EmptyString
  | String c s' =>
      match skip with
      | S k => remove_all_from old k s'
      | O =>
          if String.prefix old s
          then remove_all_from old (Nat.pred (String.length old)) s'
          else String c (remove_all_from old O s')
      end
  end.

Definition remove_all (old s : string) : string :=
  match old with
  | EmptyString => s
  | _ => remove_all_from old O s
  end.

(** [s.lower()] on the ASCII letters. *)
Definition lower_ascii (c : ascii) : ascii :=
  let n := nat_of_ascii c in
  if (Nat.leb 65 n && Nat.leb n 90)%bool then ascii_of_nat (n + 32) else c.

Fixpoint lower (s : string) : string :=
  match s with
  | EmptyString => EmptyString
  | String c s' => String (lower_ascii c) (lower s')
  end.

(** [s.endswith(suffix)] *)
Definition endswith (s suffix : string) : bool :=
  let n := String.length s in
  let k := String.length suffix in
  (Nat.leb k n && String.eqb (String.substring (n - k) k s) suffix)%bool.

(** [s.startswith(p)] *)
Definition startswith (s p : string) : bool := String.prefix p s.

(** [s.rfind(c)] for a character: the index of its last occurrence. *)
Fixpoint rfind (c : ascii) (s : string) : option nat :=
  match s with
  | EmptyString => None
  | String d s' =>
      match rfind c s' with
      | Some i => Some (S i)
      | None => if Ascii.eqb d c then Some O else None
      end
  end.

(** [s[i:]] *)
Fixpoint drop_str (i : nat) (s : string) : string :=
  match i, s with
  | O, _ => s
  | S k, EmptyString => EmptyString
  | S k, String _ s' => drop_str k s'
  end.

(** [len(xs)] as a Python integer. *)
Definition len {A : Type} (xs : list A) : Z := Z.of_nat (length xs).

(** [str(n)] for an integer. *)
Definition str_of_int (n : Z) : string := pretty n.

(** ** pathlib and os.path *)

(** The components of a POSIX path as [pathlib] keeps them: empty
    components and ["."] are dropped. *)
Definition path_parts (p : string) : list string :=
  filter (fun x => x ≠ EmptyString ∧ x ≠ "."%string) (str_split "/"%char p).

(** [Path(p).name]: the last component, or the empty string. *)
Definition path_name (p : string) : string :=
  default EmptyString (last (path_parts p)).

(** [Path(p).suffix]: from the last dot of the name, when that dot is
    neither its first nor its last character. *)
Definition path_suffix (p : string) : string :=
  let name := path_name p in
  match rfind "."%char name with
  | Some i =>
      if (Nat.ltb 0 i && Nat.ltb i (String.length name - 1))%bool
      then drop_str i name else EmptyString
  | None => EmptyString
  end.

(** [os.path.basename(p)]: what follows the last slash. *)
Definition basename (p : string) : string :=
  default EmptyString (last (str_split "/"%char p)).

(** [os.path.join(a, b)] *)
Definition path_join (a b : string) : string :=
  if startswith b "/" then b
  else if (String.eqb a EmptyString || endswith a "/")%bool then a +:+ b
  else a +:+ "/" +:+ b.

(** [for x in v]: the elements a loop over [v] visits. *)
Definition one_char (c : ascii) : json := JStr (String c EmptyString).

Definition py_iter (v : json) : outcome (list json) :=
  match v with
  | JList l => Returned l
  | JDict kv => Returned (map (fun p => JStr (fst p)) kv)
  | JStr s => Returned (map one_char (list_ascii_of_string s))
  | _ => Raised TypeError
  end.

(** [for x in v[:5]] *)
Definition py_first5 (v : json) : outcome (list json) :=
  match v with
  | JList l => Returned (take 5 l)
  | JStr s => Returned (map one_char (take 5 (list_ascii_of_string s)))
  | _ => Raised TypeError
  end.

(** [name in v] for a string [name]: substring of a string, element of a
    list, key of a dictionary. *)
Definition is_str (name : string) (v : json) : bool :=
  match v with JStr s => String.eqb s name | _ => false end.

Definition py_contains (name : string) (v : json) : outcome bool :=
  match v with
  | JStr s => Returned (str_in name s)
  | JList l => Returned (existsb (is_str name) l)
  | JDict kv => Returned (existsb (fun p => String.eqb (fst p) name) kv)
  | _ => Raised TypeError
  end.

(** [a or b] *)
Definition py_or (a b : json) : json := if truthy a then a else b.

(** ** The result cache ([cache_manager.py]) *)

(** [cachetools.TTLCache], the store [CacheManager] is built on.  The
    library is not part of the package; it is modelled from its
    documentation and from the algorithm of [Cache.__setitem__]: a
    mapping bounded by the sum of the sizes of its values, whose items
    expire [ttl] after they were stored and are then no longer
    accessible, which refuses with [ValueError] a value larger than
    [maxsize], and which discards its least recently used items to make
    room for a new one.  The items are kept least recently used first;
    the clock is read once per operation and passed as [now], in
    seconds. *)
Module TTLCache.

Record item : Type := Item {
  key : string;
  value : string;
  size : Z;
  expires : Z;
}.

Record t : Type := Make {
  maxsize : Z;
  ttl : Z;
  items : list item;
}.

(** [TTLCache(maxsize, ttl, getsizeof)] *)
Definition create (maxsize ttl : Z) : t := Make maxsize ttl [].

(** [currsize]: the tracked aggregate size. *)
Definition currsize_of (its : list item) : Z :=
  foldr (fun it acc => size it + acc) 0 its.
Definition currsize (c : t) : Z := currsize_of (items c).

Definition live (now : Z) (it : item) : bool := now <? expires it.
Definition has_key (k : string) (it : item) : bool := String.eqb (key it) k.

(** [expire(time)]: the items whose time has come are removed. *)
Definition expire (now : Z) (c : t) : t :=
  Make (maxsize c) (ttl c) (List.filter (live now) (items c)).

Definition find (k : string) (its : list item) : option item :=
  List.find (has_key k) its.

Definition remove (k : string) (its : list item) : list item :=
  List.filter (fun it => negb (has_key k it)) its.

(** [cache.get(key)]: the value of an item that has not expired, which
    becomes the most recently used one. *)
Definition get (c : t) (now : Z) (k : string) : option string * t :=
  match find k (items c) with
  | Some it =>
      if live now it
      then (Some (value it),
            Make (maxsize c) (ttl c) (remove k (items c) ++ [it]))
      else (None, c)
  | None => (None, c)
  end.

(** The loop of [Cache.__setitem__]:
    [while currsize + size > maxsize: self.popitem()].  [popitem]
    discards the least recently used item and raises [KeyError] on an
    empty cache. *)
Fixpoint make_room (maxsize sz : Z) (its : list item) : option (list item) :=
  if currsize_of its + sz >? maxsize then
    match its with
    | [] => None
    | _ :: rest => make_room maxsize sz rest
    end
  else Some its.

(** [cache[key] = value], with [sz] the size [getsizeof] gives the
    value.  The cache left behind is returned along with the
    exception when one is raised. *)
Definition setitem (c : t) (now : Z) (k : string) (v : string) (sz : Z)
  : outcome unit * t :=
  let c1 := expire now c in
  if sz >? maxsize c1 then (Raised ValueError, c1)
  else
    let its := items c1 in
    let grows :=
      match find k its with
      | Some old => size old <? sz
      | None => true
      end in
    match (if grows then make_room (maxsize c1) sz its else Some its) with
    | None => (Raised KeyError, Make (maxsize c1) (ttl c1) [])
    | Some its' =>
        (Returned (),
         Make (maxsize c1) (ttl c1)
              (remove k its' ++ [Item k v sz (now + ttl c1)]))
    end.

End TTLCache.

Module CacheManager.
Section codec.

(** [json.dumps] and [json.loads] on the values the cache is used
    for; [None] stands for the exception either may raise. *)
Context {V : Type}.
Variable json_dumps : V → option string.
Variable json_loads : string → option V.

(** [CacheManager._get_size] *)
Definition _get_size (value : string) : Z := Z.of_nat (String.length value).

(** [CacheManager.__init__], from [Config.CACHE_SIZE_MB] and
    [Config.CACHE_TTL_DAYS]. *)
Definition init (CACHE_SIZE_MB CACHE_TTL_DAYS : Z) : TTLCache.t :=
  let cache_size_bytes := CACHE_SIZE_MB * 1024 * 1024 in
  let ttl_seconds := CACHE_TTL_DAYS * 24 * 60 * 60 in
  TTLCache.create cache_size_bytes ttl_seconds.

(** [CacheManager.get] *)
Definition get (cache : TTLCache.t) (now : Z) (key : string)
  : option V * TTLCache.t :=
  match TTLCache.get cache now key with
  | (Some value, cache') =>
      if negb (String.eqb value EmptyString)
      then (json_loads value, cache')
      else (None, cache')
  | (None, cache') => (None, cache')
  end.

(** [CacheManager.set] *)
Definition set (cache : TTLCache.t) (now : Z) (key : string) (value : V)
  : bool * TTLCache.t :=
  match json_dumps value with
  | Some serialized =>
      match TTLCache.setitem cache now key serialized (_get_size serialized) with
      | (Returned _, cache') => (true, cache')
      | (_, cache') => (false, cache')
      end
  | None => (false, cache)
  end.

End codec.
End CacheManager.

(** ** Programs over a state *)

(** A method that reads and updates the state [S] of its object.  The
    state an exception leaves behind is kept: the caller sees it. *)
Definition prog (S A : Type) : Type := S → outcome A * S.

Global Instance prog_ret {S} : MRet (prog S) := fun A a s => (Returned a, s).
Global Instance prog_bind {S} : MBind (prog S) := fun A B k m s =>
  match m s with
  | (Returned a, s') => k a s'
  | (Raised e, s') => (Raised e, s')
  | (Hangs, s') => (Hangs, s')
  end.

(** Reading and updating the attributes of the object. *)
Definition get_state {S} : prog S S := fun s => (Returned s, s).
Definition modify {S} (f : S → S) : prog S unit := fun s => (Returned (), f s).

(** A computation without effect on the state. *)
Definition lift {S A} (o : outcome A) : prog S A := fun s => (o, s).

(** ** The world outside the package *)

(** What a backend sends on its output: a body that is a JSON value, or
    one that [json.loads] rejects.  A backend that has nothing more to
    say leaves the reader waiting. *)
Inductive frame : Type :=
| Message (msg : json)
| Undecodable.

(** A directory as [os.walk] sees it. *)
Inductive tree : Type :=
| Dir (files : list string) (subdirs : list (string * tree)).

(** An entry of the file system: a text file that can be read and
    written, or something that exists and cannot be opened as one. *)
Inductive node : Type :=
| RegularFile (content : string)
| Unreadable.

Record World : Type := {
  (** [os.getpid()], [os.getcwd()], [os.path.abspath] *)
  getpid : Z;
  getcwd : string;
  abspath : string → string;
  (** the directory tree under the working directory *)
  workspace : tree;
  (** [subprocess.Popen(command, ...)]: what the spawned backend will
      send, or [None] when it cannot be spawned *)
  popen : list string → option (list frame);
  (** [re.search(rf'^\s*(class|def)\s+{symbol_name}\b', content,
      re.MULTILINE)] found a match; [None] when the pattern does not
      compile *)
  re_search_definition : string → string → option bool;
  (** the modules the import pattern of [_extract_dependencies] finds in
      a text, in order: [match.group(1) or match.group(2).split()[0]],
      [None] for a match on which this raises *)
  re_imported_modules : string → list (option string);
  (** [hashlib.sha256(data.encode()).hexdigest()] *)
  sha256_hexdigest : string → string;
  (** [self.encoder.encode(text)] of [tiktoken]; [None] when it raises,
      as it does on a text that holds a special token *)
  encode : string → option (list Z);
  (** [str(v)] of a value *)
  py_str : json → string;
  (** [json.dumps(v)] and [json.loads(text)]; [None] when they raise *)
  json_dumps : json → option string;
  json_loads : string → option json;
  (** [str(e)] of the error raised on opening a path *)
  strerror : string → string;
}.

(** ** Backend sessions and their registry ([lsp_client.py]) *)

Module LSPServerProcess.

Record t : Type := Make {
  language : string;
  command : list string;
  process : bool;
  reader : option (list frame);
  writer : option (list json);
  _request_id : Z;
}.

(** [LSPServerProcess(language, command)] *)
Definition new (language : string) (command : list string) : t :=
  Make language command false None None 0.

Definition with_request_id (n : Z) (s : t) : t :=
  Make (language s) (command s) (process s) (reader s) (writer s) n.
Definition with_reader (r : option (list frame)) (s : t) : t :=
  Make (language s) (command s) (process s) r (writer s) (_request_id s).
Definition with_writer (w : option (list json)) (s : t) : t :=
  Make (language s) (command s) (process s) (reader s) w (_request_id s).

(** [_get_next_id] *)
Definition _get_next_id : prog t Z := fun s =>
  let n := _request_id s + 1 in (Returned n, with_request_id n s).

(** [self.writer.write(msg)] *)
Definition write (msg : json) : prog t unit := fun s =>
  match writer s with
  | Some sent => (Returned (), with_writer (Some (sent ++ [msg])) s)
  | None => (Raised AttributeError, s)
  end.

(** The loop of [_request]: messages are read until one bears the
    identifier of the request; the others are dropped.  The frames
    left unread are returned. *)
Fixpoint read_reply (msg_id : Z) (frames : list frame)
  : outcome json * list frame :=
  match frames with
  | [] => (Hangs, [])
  | Undecodable :: rest => (Raised JSONDecodeError, rest)
  | Message msg :: rest =>
      match msg with
      | JDict kv =>
          if eq_int (default JNull (assoc "id" kv)) msg_id then
            match assoc "error" kv with
            | Some error => (Raised (LSPError error), rest)
            | None => (Returned (default JNull (assoc "result" kv)), rest)
            end
          else read_reply msg_id rest
      | _ => (Raised AttributeError, rest)
      end
  end.

Definition read_until (msg_id : Z) : prog t json := fun s =>
  match reader s with
  | Some frames =>
      let '(r, rest) := read_reply msg_id frames in
      (r, with_reader (Some rest) s)
  | None => (Raised AttributeError, s)
  end.

(** [_request(method, params)] *)
Definition _request (method : string) (params : json) : prog t json :=
  msg_id ← _get_next_id;
  write (JDict [("jsonrpc", JStr "2.0"); ("id", JInt msg_id);
                ("method", JStr method); ("params", params)]);;
  read_until msg_id.

(** [_notify(method, params)] *)
Definition _notify (method : string) (params : json) : prog t unit :=
  write (JDict [("jsonrpc", JStr "2.0");
                ("method", JStr method); ("params", params)]).

(** [_initialize] *)
Definition _initialize (W : World) : prog t json :=
  let params := JDict [
    ("processId", JInt (getpid W));
    ("rootUri", JStr ("file://" +:+ getcwd W));
    ("capabilities", JDict [
      ("textDocument", JDict [
        ("definition", JDict [("dynamicRegistration", JBool false)]);
        ("references", JDict [("dynamicRegistration", JBool false)]);
        ("documentSymbol", JDict [("dynamicRegistration", JBool false)])])])] in
  result ← _request "initialize" params;
  _notify "initialized" (JDict []);;
  mret result.

(** [start] *)
Definition start (W : World) : prog t unit := fun s =>
  match popen W (command s) with
  | Some frames =>
      let s' := Make (language s) (command s) true (Some frames) (Some [])
                     (_request_id s) in
      (_initialize W ≫= fun _ => mret ()) s'
  | None => (Raised (OSError (default EmptyString (head (command s)))), s)
  end.

Definition text_document (file_uri : string) : string * json :=
  ("textDocument", JDict [("uri", JStr file_uri)]).
Definition position (line character : json) : string * json :=
  ("position", JDict [("line", line); ("character", character)]).

(** [result[0] if result else None] *)
Definition first_or_none (result : json) : outcome json :=
  if truthy result then
    match result with
    | JList (x :: _) => Returned x
    | JStr (String c _) => Returned (one_char c)
    | JDict _ => Raised KeyError
    | _ => Raised TypeError
    end
  else Returned JNull.

(** [get_definition(file_uri, line, character)] *)
Definition get_definition (file_uri : string) (line character : json)
  : prog t json :=
  result ← _request "textDocument/definition"
             (JDict [text_document file_uri; position line character]);
  lift (first_or_none result).

(** [get_references(file_uri, line, character)] *)
Definition get_references (file_uri : string) (line character : json)
  : prog t json :=
  result ← _request "textDocument/references"
             (JDict [text_document file_uri; position line character;
                     ("context", JDict [("includeDeclaration", JBool true)])]);
  mret (py_or result (JList [])).

(** [get_symbols(file_uri)] *)
Definition get_symbols (file_uri : string) : prog t json :=
  result ← _request "textDocument/documentSymbol"
             (JDict [text_document file_uri]);
  mret (py_or result (JList [])).

(** [stop]: the request [shutdown], the notification [exit] and the
    wait for the process to end, which is killed when it does not end
    in time.  Whatever comes of them, short of a request that is never
    answered, the session forgets its process and its pipes: only the
    timeout of the wait is caught, another exception leaves through
    the [finally] clause.  A session without a process is left
    alone. *)
Definition stop : prog t unit := fun s =>
  if process s then
    match (_request "shutdown" (JDict []) ≫= fun _ => _notify "exit" (JDict [])) s with
    | (Hangs, s') => (Hangs, s')
    | (r, s') =>
        (r, Make (language s') (command s') false None None (_request_id s'))
    end
  else (Returned (), s).

End LSPServerProcess.

Module LSPClient.

Record t : Type := Make {
  servers : gmap string LSPServerProcess.t;
  initialized : bool;
}.

(** [LSPClient()] *)
Definition new : t := Make ∅ false.

Definition LANGUAGE_SERVERS : list (string * list string) := [
  ("python", ["pylsp"]);
  ("typescript", ["typescript-language-server"; "--stdio"]);
  ("javascript", ["typescript-language-server"; "--stdio"]);
  ("bash", ["bash-language-server"; "start"]);
  ("go", ["gopls"; "serve"])
]%string.

Definition language_map : list (string * string) := [
  (".py", "python");
  (".ts", "typescript");
  (".tsx", "typescript");
  (".js", "javascript");
  (".jsx", "javascript");
  (".sh", "bash");
  (".bash", "bash");
  (".go", "go")
]%string.

(** [_get_language_from_file] *)
Definition _get_language_from_file (file_path : string) : string :=
  let ext := lower (path_suffix file_path) in
  default "unknown"%string (assoc ext language_map).

(** [language in self.servers] *)
Definition has_server (language : string) (c : t) : bool :=
  bool_decide (is_Some (servers c !! language)).

(** [_start_server(language)]: a server that fails to start is not
    registered. *)
Definition _start_server (W : World) (language : string) : prog t unit :=
  fun c =>
    match assoc language LANGUAGE_SERVERS with
    | None => (Returned (), c)
    | Some command =>
        if has_server language c then (Returned (), c)
        else
          match LSPServerProcess.start W (LSPServerProcess.new language command) with
          | (Returned _, server) =>
              (Returned (), Make (<[language := server]> (servers c)) (initialized c))
          | (Raised e, _) => (Raised e, c)
          | (Hangs, _) => (Hangs, c)
          end
    end.

(** [initialize] *)
Definition initialize (W : World) : prog t unit :=
  _start_server W "python";;
  modify (fun c => Make (servers c) true).

(** [await self.servers[language].m(...)] *)
Definition on_server {A} (language : string) (m : prog LSPServerProcess.t A)
  : prog t A :=
  fun c =>
    match servers c !! language with
    | Some server =>
        let '(r, server') := m server in
        (r, Make (<[language := server']> (servers c)) (initialized c))
    | None => (Raised KeyError, c)
    end.

Definition file_uri (W : World) (file_path : string) : string :=
  "file://" +:+ abspath W file_path.

(** [get_definition(file_path, position)] *)
Definition get_definition (W : World) (file_path : string)
    (line character : json) : prog t json :=
  let language := _get_language_from_file file_path in
  _start_server W language;;
  c ← get_state;
  if has_server language c
  then on_server language (LSPServerProcess.get_definition (file_uri W file_path) line character)
  else mret JNull.

(** [get_references(file_path, position)] *)
Definition get_references (W : World) (file_path : string)
    (line character : json) : prog t json :=
  let language := _get_language_from_file file_path in
  _start_server W language;;
  c ← get_state;
  if has_server language c
  then on_server language (LSPServerProcess.get_references (file_uri W file_path) line character)
  else mret (JList []).

(** [get_symbols(file_path)] *)
Definition get_symbols (W : World) (file_path : string) : prog t json :=
  let language := _get_language_from_file file_path in
  _start_server W language;;
  c ← get_state;
  if has_server language c
  then on_server language (LSPServerProcess.get_symbols (file_uri W file_path))
  else mret (JList []).

(** The loop of [shutdown] over [self.servers.values()].  Python visits
    the sessions in the order in which they were registered, which the
    finite map of the model does not keep: the languages are given in
    that order. *)
Fixpoint stop_all (languages : list string) : prog t unit :=
  match languages with
  | [] => mret ()
  | language :: rest =>
      on_server language LSPServerProcess.stop;;
      stop_all rest
  end.

(** [shutdown] *)
Definition shutdown (languages : list string) : prog t unit :=
  stop_all languages;;
  modify (fun _ => Make ∅ false).

End LSPClient.

(** ** The context aggregator ([context_manager.py]) *)

Module ContextManager.

(** The aggregator owns a registry of sessions and a cache, and works
    on the files of the machine. *)
Record t : Type := Make {
  lsp_client : LSPClient.t;
  cache : TTLCache.t;
  fs : gmap string node;
}.

(** [ContextManager(lsp_client)], with the configuration of the cache. *)
Definition new (lsp_client : LSPClient.t) (CACHE_SIZE_MB CACHE_TTL_DAYS : Z)
    (fs : gmap string node) : t :=
  Make lsp_client (CacheManager.init CACHE_SIZE_MB CACHE_TTL_DAYS) fs.

(** Running a method of the registry on [self.lsp_client]. *)
Definition on_lsp {A} (m : prog LSPClient.t A) : prog t A := fun s =>
  let '(r, c) := m (lsp_client s) in (r, Make c (cache s) (fs s)).

(** [os.path.exists(path)] *)
Definition path_exists (files : gmap string node) (path : string) : bool :=
  bool_decide (is_Some (files !! path)).

(** Reading in text mode translates the line endings: a carriage
    return, alone or before a line feed, is read as a line feed. *)
Fixpoint universal_newlines (s : string) : string :=
  match s with
  | EmptyString => EmptyString
  | String c rest =>
      if Ascii.eqb c "013" then
        match rest with
        | String d rest' =>
            if Ascii.eqb d newline then String newline (universal_newlines rest')
            else String newline (universal_newlines rest)
        | EmptyString => String newline EmptyString
        end
      else String c (universal_newlines rest)
  end.

(** [open(path, 'r', encoding='utf-8').read()] *)
Definition read_text (files : gmap string node) (path : string) : outcome string :=
  match files !! path with
  | Some (RegularFile content) => Returned (universal_newlines content)
  | _ => Raised (OSError path)
  end.

(** [os.walk(root)], top-down; [keep] is the filter put on the
    sub-directories before they are entered. *)
Fixpoint walk (keep : string → bool) (root : string) (d : tree)
  : list (string * list string) :=
  match d with
  | Dir files subdirs =>
      (root, files) ::
      (fix below (l : list (string * tree)) : list (string * list string) :=
         match l with
         | [] => []
         | (name, sub) :: l' =>
             (if keep name then walk keep (path_join root name) sub else [])
             ++ below l'
         end) subdirs
  end.

(** [_generate_cache_key] *)
Definition _generate_cache_key (W : World) (query scope : string) (max_tokens : Z)
  : string :=
  let key_data := query +:+ ":" +:+ scope +:+ ":" +:+ str_of_int max_tokens in
  sha256_hexdigest W key_data.

(** [_find_file_in_workspace] *)
Definition _find_file_in_workspace (W : World) (file_name : string) : option string :=
  match List.find (fun rf => existsb (String.eqb file_name) (snd rf))
                  (walk (fun _ => true) (getcwd W) (workspace W)) with
  | Some (root, _) => Some (path_join root file_name)
  | None => None
  end.

(** [_parse_query] *)
Definition _parse_query (W : World) (files : gmap string node) (query : string)
  : option string * string :=
  match str_split_once ":" query with
  | Some (file_part, symbol_part) =>
      if path_exists files file_part then (Some file_part, symbol_part)
      else match _find_file_in_workspace W file_part with
           | Some found_file => (Some found_file, symbol_part)
           | None => (None, symbol_part)
           end
  | None =>
      match (if str_in "." query then str_split "." query else []) with
      | [_; method] => (None, method)
      | _ => (None, query)
      end
  end.

(** The body of the loop of [_find_symbol_file] on one file: its text
    is read and searched; a failure of either leads to the next file. *)
Definition defines (W : World) (files : gmap string node) (symbol_name : string)
    (file_path : string) : bool :=
  match read_text files file_path with
  | Returned content =>
      match re_search_definition W symbol_name content with
      | Some found => found
      | None => false
      end
  | _ => false
  end.

(** [_find_symbol_file]: the first Python file, in the order of the
    walk that skips hidden directories, that declares the symbol. *)
Definition _find_symbol_file (W : World) (files : gmap string node)
    (symbol_name : string) : option string :=
  let visible := fun d => negb (startswith d ".") in
  let python_files :=
    flat_map (fun rf => map (path_join (fst rf))
                          (List.filter (fun f => endswith f ".py") (snd rf)))
             (walk visible (getcwd W) (workspace W)) in
  List.find (defines W files symbol_name) python_files.

(** The records of a payload. *)
Record Symbol : Type := {
  name : json;
  kind : string;
  location_file : string;
  location_line : json;
  documentation : json;
}.

Record Dependency : Type := {
  module : string;
  summary : string;
}.

Record Reference : Type := {
  file : string;
  line : json;
  context : string;
}.

(** The dictionaries the Python code builds for them. *)
Definition symbol_dict (s : Symbol) : json :=
  JDict [("name", name s); ("kind", JStr (kind s));
         ("location", JDict [("file", JStr (location_file s));
                             ("line", location_line s)]);
         ("documentation", documentation s)].

Definition dependency_dict (d : Dependency) : json :=
  JDict [("module", JStr (module d)); ("summary", JStr (summary d))].

Definition reference_dict (r : Reference) : json :=
  JDict [("file", JStr (file r)); ("line", line r);
         ("context", JStr (context r))].

Definition kind_map : list (Z * string) := [
  (1, "File"); (2, "Module"); (3, "Namespace"); (4, "Package");
  (5, "Class"); (6, "Method"); (7, "Property"); (8, "Field");
  (9, "Constructor"); (10, "Enum"); (11, "Interface"); (12, "Function");
  (13, "Variable"); (14, "Constant"); (15, "String"); (16, "Number");
  (17, "Boolean"); (18, "Array"); (19, "Object"); (20, "Key");
  (21, "Null"); (22, "EnumMember"); (23, "Struct"); (24, "Event");
  (25, "Operator"); (26, "TypeParameter")
]%string.

Definition kind_of_int (n : Z) : string :=
  match List.find (fun p => fst p =? n) kind_map with
  | Some (_, kind_name) => kind_name
  | None => "Unknown"
  end.

(** [_get_symbol_kind_name]: [kind_map.get(kind, "Unknown")]; a list or
    a dictionary cannot be looked up. *)
Definition _get_symbol_kind_name (kind : json) : outcome string :=
  match kind with
  | JInt n => Returned (kind_of_int n)
  | JBool b => Returned (kind_of_int (if b then 1 else 0))
  | JList _ | JDict _ => Raised TypeError
  | _ => Returned "Unknown"%string
  end.

(** [_format_symbol] *)
Definition _format_symbol (lsp_symbol : json) (file_path : string)
  : outcome Symbol :=
  loc ← py_get lsp_symbol "location" JNull;
  rng ← py_get lsp_symbol "range" (JDict []);
  let location := py_or loc rng in
  start ← py_get location "start" (JDict [("line", JInt 0)]);
  name ← py_get lsp_symbol "name" (JStr "Unknown");
  kind ← py_get lsp_symbol "kind" (JInt 0);
  kind_name ← _get_symbol_kind_name kind;
  line ← py_get start "line" (JInt 0);
  detail ← py_get lsp_symbol "detail" (JStr EmptyString);
  mret {| name := name; kind := kind_name; location_file := file_path;
          location_line := line; documentation := detail |}.

(** The test on one symbol in the loop of [_extract_symbols]. *)
Definition in_scope (scope symbol_name : string) (symbol : json) : outcome bool :=
  if String.eqb scope "function" then
    name ← py_get symbol "name" (JStr EmptyString);
    py_contains symbol_name name
  else if String.eqb scope "class" then
    kind ← py_get symbol "kind" JNull;
    if eq_int kind 5 then mret true
    else name ← py_get symbol "name" (JStr EmptyString);
         py_contains symbol_name name
  else if String.eqb scope "file" then mret true
  else mret false.

Fixpoint select_symbols (scope symbol_name file_path : string)
    (file_symbols : list json) : outcome (list Symbol) :=
  match file_symbols with
  | [] => mret []
  | symbol :: rest =>
      keep ← in_scope scope symbol_name symbol;
      if (keep : bool) then
        formatted ← _format_symbol symbol file_path;
        symbols ← select_symbols scope symbol_name file_path rest;
        mret (formatted :: symbols)
      else select_symbols scope symbol_name file_path rest
  end.

(** The symbol put in when the backend gave none. *)
Definition stub_symbol (symbol_name file_path : string) : Symbol :=
  {| name := JStr symbol_name;
     kind := "Unknown";
     location_file := file_path;
     location_line := JInt 1;
     documentation :=
       JStr ("Symbol " +:+ symbol_name +:+ " in " +:+ basename file_path) |}.

(** [_extract_symbols] *)
Definition _extract_symbols (W : World) (file_path symbol_name scope : string)
  : prog t (list Symbol) :=
  file_symbols ← on_lsp (LSPClient.get_symbols W file_path);
  listed ← lift (py_iter file_symbols);
  symbols ← lift (select_symbols scope symbol_name file_path listed);
  s ← get_state;
  match symbols with
  | [] =>
      if path_exists (fs s) file_path
      then mret [stub_symbol symbol_name file_path]
      else mret []
  | _ => mret symbols
  end.

(** [_extract_dependencies]: the loop over the symbols carries the
    list built so far and the set of the modules seen. *)
Definition add_module (file_path : string)
    (acc : list Dependency * gset string) (module : string)
  : list Dependency * gset string :=
  let '(dependencies, seen_modules) := acc in
  if negb (String.eqb module EmptyString) && bool_decide (module ∉ seen_modules)
  then (dependencies ++ [{| module := module;
                            summary := "Imported by " +:+ basename file_path |}],
        {[module]} ∪ seen_modules)
  else acc.

(** The loop over the matches of one file; a match that raises ends
    it, what was added before stays. *)
Fixpoint add_modules (file_path : string) (acc : list Dependency * gset string)
    (modules : list (option string)) : list Dependency * gset string :=
  match modules with
  | Some module :: rest => add_modules file_path (add_module file_path acc module) rest
  | None :: _ => acc
  | [] => acc
  end.

Definition dependencies_of (W : World) (files : gmap string node)
    (acc : list Dependency * gset string) (symbol : Symbol)
  : list Dependency * gset string :=
  let file_path := location_file symbol in
  if path_exists files file_path then
    match read_text files file_path with
    | Returned content => add_modules file_path acc (re_imported_modules W content)
    | _ => acc
    end
  else acc.

Definition _extract_dependencies (W : World) (symbols : list Symbol)
  : prog t (list Dependency) :=
  s ← get_state;
  mret (fst (foldl (dependencies_of W (fs s)) ([], ∅) symbols)).

(** [str(v)] inside an f-string. *)
Definition format (W : World) (v : json) : string :=
  match v with
  | JStr s => s
  | JInt n => str_of_int n
  | _ => py_str W v
  end.

(** [uri.replace] of the scheme by nothing: only a string has the method. *)
Definition strip_scheme (uri : json) : outcome string :=
  match uri with
  | JStr s => Returned (remove_all "file://" s)
  | _ => Raised AttributeError
  end.

(** The inner loop of [_extract_references], over the raw references
    that were kept for one symbol. *)
Fixpoint collect_references (W : World) (symbol : Symbol) (refs : list json)
  : outcome (list Reference) :=
  match refs with
  | [] => mret []
  | ref :: rest =>
      uri ← py_get ref "uri" (JStr EmptyString);
      ref_file ← strip_scheme uri;
      rng ← py_get ref "range" (JDict []);
      start ← py_get rng "start" (JDict []);
      ref_line ← py_get start "line" (JInt 0);
      references ← collect_references W symbol rest;
      if negb (String.eqb ref_file EmptyString)
         && negb (String.eqb ref_file (location_file symbol))
      then mret ({| file := ref_file; line := ref_line;
                    context := "Reference to " +:+ format W (name symbol) |}
                 :: references)
      else mret references
  end.

(** The body of the outer loop: what one symbol contributes. *)
Definition references_of (W : World) (symbol : Symbol) : prog t (list Reference) :=
  refs ← on_lsp (LSPClient.get_references W (location_file symbol)
                   (location_line symbol) (JInt 0));
  first ← lift (py_first5 refs);
  lift (collect_references W symbol first).

(** [_extract_references] *)
Fixpoint _extract_references (W : World) (symbols : list Symbol)
  : prog t (list Reference) :=
  match symbols with
  | [] => mret []
  | symbol :: rest =>
      mine ← references_of W symbol;
      others ← _extract_references W rest;
      mret (mine ++ others)
  end.

(** [len(self.encoder.encode(text))] *)
Definition token_count (W : World) (text : string) : outcome Z :=
  match encode W text with
  | Some tokens => Returned (len tokens)
  | None => Raised ValueError
  end.

(** [_estimate_raw_tokens] *)
Definition _estimate_raw_tokens (W : World) (files : gmap string node)
    (file_path scope : string) : Z :=
  if negb (path_exists files file_path) then 0
  else
    match read_text files file_path with
    | Returned content =>
        if String.eqb scope "function" then 500
        else if String.eqb scope "class" then 2000
        else match token_count W content with
             | Returned tokens => tokens
             | _ => 1000
             end
    | _ => 1000
    end.

Definition context_dict (symbols : list Symbol) (dependencies : list Dependency)
    (references : list Reference) : list (string * json) :=
  [("symbols", JList (map symbol_dict symbols));
   ("dependencies", JList (map dependency_dict dependencies));
   ("references", JList (map reference_dict references))].

(** [_count_tokens] *)
Definition _count_tokens (W : World) (symbols : list Symbol)
    (dependencies : list Dependency) (references : list Reference) : outcome Z :=
  let context_str := py_str W (JDict (context_dict symbols dependencies references)) in
  token_count W context_str.

(** [_empty_result] *)
Definition _empty_result : json :=
  JDict [("symbols", JList []); ("dependencies", JList []);
         ("references", JList []); ("tokens_saved", JInt 0)].

(** [self.cache.get(key)] and [self.cache.set(key, value)] at the time
    [now]. *)
Definition cache_get (W : World) (now : Z) (key : string) : prog t (option json) :=
  fun s =>
    let '(r, c) := CacheManager.get (json_loads W) (cache s) now key in
    (Returned r, Make (lsp_client s) c (fs s)).

Definition cache_set (W : World) (now : Z) (key : string) (value : json)
  : prog t bool :=
  fun s =>
    let '(r, c) := CacheManager.set (json_dumps W) (cache s) now key value in
    (Returned r, Make (lsp_client s) c (fs s)).

(** What [get_context] does once the cache has given nothing. *)
Definition compute_context (W : World) (now : Z) (cache_key query scope : string)
  : prog t json :=
  s ← get_state;
  let '(parsed_file, symbol_name) := _parse_query W (fs s) query in
  let file_path :=
    match parsed_file with
    | Some f => if String.eqb f EmptyString
                then _find_symbol_file W (fs s) symbol_name else Some f
    | None => _find_symbol_file W (fs s) symbol_name
    end in
  match file_path with
  | Some file_path =>
      if String.eqb file_path EmptyString then mret _empty_result
      else
        symbols ← _extract_symbols W file_path symbol_name scope;
        dependencies ← _extract_dependencies W symbols;
        references ← _extract_references W symbols;
        let raw_tokens := _estimate_raw_tokens W (fs s) file_path scope in
        optimized_tokens ← lift (_count_tokens W symbols dependencies references);
        let tokens_saved := Z.max 0 (raw_tokens - optimized_tokens) in
        let result :=
          JDict (context_dict symbols dependencies references
                 ++ [("tokens_saved", JInt tokens_saved)]) in
        cache_set W now cache_key result;;
        mret result
  | None => mret _empty_result
  end.

(** [get_context(query, scope, max_tokens)]; the clock reads
    [now_lookup] when the cache is consulted and [now_store] when the
    result is stored. *)
Definition get_context (W : World) (now_lookup now_store : Z)
    (query scope : string) (max_tokens : Z) : prog t json :=
  let cache_key := _generate_cache_key W query scope max_tokens in
  cached_result ← cache_get W now_lookup cache_key;
  match cached_result with
  | Some cached =>
      if truthy cached then mret cached
      else compute_context W now_store cache_key query scope
  | None => compute_context W now_store cache_key query scope
  end.

(** The result of [find_symbol]. *)
Module Location.
Record t : Type := Make {
  file : string;
  line : json;
  kind : string;
  name : json;
  documentation : json;
}.
End Location.

Module FindResult.
Record t : Type := Make {
  symbol_name : string;
  found : bool;
  message : string;
  locations : list Location.t;
}.
End FindResult.

Definition location_of (symbol : Symbol) : Location.t :=
  Location.Make (location_file symbol) (location_line symbol) (kind symbol)
                (name symbol) (documentation symbol).

(** [find_symbol(symbol_name, language)]; [language] is only logged. *)
Definition find_symbol (W : World) (symbol_name : string)
  : prog t FindResult.t :=
  s ← get_state;
  match _find_symbol_file W (fs s) symbol_name with
  | Some file_path =>
      if String.eqb file_path EmptyString
      then mret (FindResult.Make symbol_name false
                   ("Symbol '" +:+ symbol_name +:+ "' not found in codebase") [])
      else
        symbols ← _extract_symbols W file_path symbol_name "function";
        let locations := map location_of symbols in
        mret (FindResult.Make symbol_name true
                ("Found " +:+ str_of_int (len locations)
                 +:+ " occurrence(s) of '" +:+ symbol_name +:+ "'")
                locations)
  | None =>
      mret (FindResult.Make symbol_name false
              ("Symbol '" +:+ symbol_name +:+ "' not found in codebase") [])
  end.

(** An edit as the tool call gives it; a key that is absent is read
    with its default. *)
Module Edit.
Record t : Type := Make {
  type : option string;
  line : option Z;
  text : option string;
}.
End Edit.

Module EditResult.
Record t : Type := Make {
  success : bool;
  message : string;
  edits_applied : Z;
}.
End EditResult.

(** [x.get('line', 0)], the key of the sort. *)
Definition line_of (edit : Edit.t) : Z := default 0 (Edit.line edit).

(** [sorted(edits, key=..., reverse=True)]: decreasing keys, edits of
    equal key in the order they came. *)
Fixpoint insert_edit (edit : Edit.t) (sorted : list Edit.t) : list Edit.t :=
  match sorted with
  | [] => [edit]
  | e :: rest =>
      if line_of e >? line_of edit then e :: insert_edit edit rest
      else edit :: sorted
  end.

Definition sorted_reverse (edits : list Edit.t) : list Edit.t :=
  foldr insert_edit [] edits.

(** [lines.insert(i, x)] for [0 <= i <= len(lines)] *)
Definition list_insert_at {A} (i : nat) (x : A) (l : list A) : list A :=
  take i l ++ x :: drop i l.

(** The body of the loop of [apply_edit]. *)
Definition apply_one (st : list string * Z) (edit : Edit.t) : list string * Z :=
  let '(lines, edits_applied) := st in
  let edit_type := default "replace"%string (Edit.type edit) in
  let line_num := line_of edit in
  let new_text := default EmptyString (Edit.text edit) in
  if String.eqb edit_type "replace" && (0 <=? line_num) && (line_num <? len lines)
  then (<[Z.to_nat line_num := new_text]> lines, edits_applied + 1)
  else if String.eqb edit_type "insert" then
    if (0 <=? line_num) && (line_num <=? len lines)
    then (list_insert_at (Z.to_nat line_num) new_text lines, edits_applied + 1)
    else st
  else if String.eqb edit_type "delete" then
    if (0 <=? line_num) && (line_num <? len lines)
    then (delete (Z.to_nat line_num) lines, edits_applied + 1)
    else st
  else st.

(** The lines and the count the loop ends with. *)
Definition run_edits (lines : list string) (edits : list Edit.t)
  : list string * Z :=
  foldl apply_one (lines, 0) (sorted_reverse edits).

(** [open(path, 'w', encoding='utf-8').write(text)] *)
Definition write_text (path text : string) : prog t unit :=
  modify (fun s => Make (lsp_client s) (cache s)
                        (<[path := RegularFile text]> (fs s))).

(** [apply_edit(file_path, edits)] *)
Definition apply_edit (W : World) (file_path : string) (edits : list Edit.t)
  : prog t EditResult.t :=
  s ← get_state;
  if negb (path_exists (fs s) file_path)
  then mret (EditResult.Make false ("File not found: " +:+ file_path) 0)
  else
    match read_text (fs s) file_path with
    | Returned content =>
        let lines := str_split newline content in
        let '(lines', edits_applied) := run_edits lines edits in
        write_text file_path (join_lines lines');;
        mret (EditResult.Make true
                ("Successfully applied " +:+ str_of_int edits_applied
                 +:+ " edit(s) to " +:+ file_path)
                edits_applied)
    | _ =>
        mret (EditResult.Make false
                ("Error applying edits: " +:+ strerror W file_path) 0)
    end.

End ContextManager.

(** ** The server on standard input and output ([mcp_stdio_server.py]) *)

Module MCPStdioServer.

Local Open Scope string_scope.

(** What the server takes from the interpreter and from its
    configuration. *)
Record Host : Type := {
  (** [str(e)] of an exception of the interpreter or of a library *)
  str_exception : exn → string;
  (** the exception [json.dumps] raises on a value it refuses *)
  dumps_error : json → exn;
  (** [line.strip()] *)
  strip : string → string;
  (** [Config.MAX_TOKENS], the default of [get_context] *)
  MAX_TOKENS : Z;
  (** the languages of the sessions of a registry, in the order in
      which they were registered *)
  registered : LSPClient.t → list string;
}.

(** The three coroutines of the aggregator as the server calls them:
    on the values the request holds, whatever they are.  [get_context]
    comes with the two readings of the clock. *)
Record Tools : Type := {
  tool_find_symbol : json → json → prog ContextManager.t json;
  tool_get_context : Z → Z → json → string → Z → prog ContextManager.t json;
  tool_apply_edit : json → json → prog ContextManager.t json;
}.

(** The server: [self.lsp_client] and the registry of
    [self.context_manager] are one object, kept here in the aggregator;
    [stdout] holds the lines written so far. *)
Record t : Type := Make {
  cache_manager : TTLCache.t;
  context_manager : ContextManager.t;
  request_id_counter : Z;
  stdout : list string;
}.

(** [MCPStdioServer()] *)
Definition new (CACHE_SIZE_MB CACHE_TTL_DAYS : Z) (fs : gmap string node) : t :=
  Make (CacheManager.init CACHE_SIZE_MB CACHE_TTL_DAYS)
       (ContextManager.new LSPClient.new CACHE_SIZE_MB CACHE_TTL_DAYS fs)
       0 [].

(** Running a method of the aggregator on [self.context_manager]. *)
Definition on_context_manager {A} (m : prog ContextManager.t A) : prog t A :=
  fun s =>
    let '(r, cm) := m (context_manager s) in
    (r, Make (cache_manager s) cm (request_id_counter s) (stdout s)).

(** [self.lsp_client.shutdown()] *)
Definition shutdown_sessions (H : Host) : prog ContextManager.t unit := fun cm =>
  ContextManager.on_lsp
    (LSPClient.shutdown (registered H (ContextManager.lsp_client cm))) cm.

(** [initialize] *)
Definition initialize (W : World) : prog t unit :=
  on_context_manager (ContextManager.on_lsp (LSPClient.initialize W)).

(** [shutdown] *)
Definition shutdown (H : Host) : prog t unit :=
  on_context_manager (shutdown_sessions H).

(** [write_response]; the standard output takes what is written. *)
Definition write_response (H : Host) (W : World) (response : json) : prog t unit :=
  fun s =>
    match json_dumps W response with
    | Some response_str =>
        (Returned (),
         Make (cache_manager s) (context_manager s) (request_id_counter s)
              (stdout s ++ [response_str +:+ String newline EmptyString]))
    | None => (Raised (dumps_error H response), s)
    end.

(** The result of the method [initialize]. *)
Definition initialize_result : json :=
  JDict [
    ("protocolVersion", JStr "2025-06-18");
    ("capabilities", JDict [
      ("tools", JDict [
        ("find_symbol", JDict [
          ("description", JStr "Find symbol definitions across the codebase");
          ("inputSchema", JDict [
            ("type", JStr "object");
            ("properties", JDict [
              ("symbol_name", JDict [("type", JStr "string")]);
              ("language", JDict [("type", JStr "string")])]);
            ("required", JList [JStr "symbol_name"])])]);
        ("get_context", JDict [
          ("description", JStr "Get context for a specific file or symbol");
          ("inputSchema", JDict [
            ("type", JStr "object");
            ("properties", JDict [
              ("query", JDict [("type", JStr "string")])]);
            ("required", JList [JStr "query"])])]);
        ("apply_edit", JDict [
          ("description", JStr "Apply semantic edits to code");
          ("inputSchema", JDict [
            ("type", JStr "object");
            ("properties", JDict [
              ("file_path", JDict [("type", JStr "string")]);
              ("edits", JDict [("type", JStr "array")])]);
            ("required", JList [JStr "file_path"; JStr "edits"])])])])]);
    ("serverInfo", JDict [
      ("name", JStr "serena-mcp");
      ("version", JStr "1.0.0")])].

(** The result of the method [tools/list]. *)
Definition tools_list_result : json :=
  JDict [
    ("tools", JList [
      JDict [
        ("name", JStr "find_symbol");
        ("description", JStr "Find symbol definitions across the codebase");
        ("inputSchema", JDict [
          ("type", JStr "object");
          ("properties", JDict [
            ("symbol_name", JDict [("type", JStr "string")]);
            ("language", JDict [("type", JStr "string")])]);
          ("required", JList [JStr "symbol_name"])])];
      JDict [
        ("name", JStr "get_context");
        ("description", JStr "Get context for a specific file or symbol");
        ("inputSchema", JDict [
          ("type", JStr "object");
          ("properties", JDict [
            ("query", JDict [("type", JStr "string")])]);
          ("required", JList [JStr "query"])])];
      JDict [
        ("name", JStr "apply_edit");
        ("description", JStr "Apply semantic edits to code");
        ("inputSchema", JDict [
          ("type", JStr "object");
          ("properties", JDict [
            ("file_path", JDict [("type", JStr "string")]);
            ("edits", JDict [("type", JStr "array")])]);
          ("required", JList [JStr "file_path"; JStr "edits"])])]])].

(** What ends the [try] block of [handle_request] other than a
    result: one of its two [ValueError], or an exception of the code it
    calls. *)
Inductive failure : Type :=
| UnknownTool (tool_name : json)
| UnknownMethod (method : json)
| Exception (e : exn).

(** [str(e)] in the [except] clause. *)
Definition message (H : Host) (W : World) (f : failure) : string :=
  match f with
  | UnknownTool tool_name => "Unknown tool: " +:+ ContextManager.format W tool_name
  | UnknownMethod method => "Unknown method: " +:+ ContextManager.format W method
  | Exception (LSPError error) => "LSP error: " +:+ ContextManager.format W error
  | Exception e => str_exception H e
  end.

(** The branch of the method [tools/call]. *)
Definition call_tool (T : Tools) (H : Host) (now_lookup now_store : Z)
    (params : json) : prog ContextManager.t (failure + json) :=
  tool_name ← lift (py_get params "name" JNull);
  tool_params ← lift (py_get params "arguments" (JDict []));
  if is_str "find_symbol" tool_name then
    symbol_name ← lift (py_get tool_params "symbol_name" JNull);
    language ← lift (py_get tool_params "language" JNull);
    result ← tool_find_symbol T symbol_name language;
    mret (inr result)
  else if is_str "get_context" tool_name then
    query ← lift (py_get tool_params "query" JNull);
    result ← tool_get_context T now_lookup now_store query "function" (MAX_TOKENS H);
    mret (inr result)
  else if is_str "apply_edit" tool_name then
    file_path ← lift (py_get tool_params "file_path" JNull);
    edits ← lift (py_get tool_params "edits" JNull);
    result ← tool_apply_edit T file_path edits;
    mret (inr result)
  else mret (inl (UnknownTool tool_name)).

(** The body of the [try] block, up to the result. *)
Definition dispatch (T : Tools) (H : Host) (now_lookup now_store : Z)
    (method params : json) : prog ContextManager.t (failure + json) :=
  if is_str "initialize" method then mret (inr initialize_result)
  else if is_str "tools/call" method then
    call_tool T H now_lookup now_store params
  else if is_str "tools/list" method then mret (inr tools_list_result)
  else if is_str "shutdown" method then
    shutdown_sessions H;;
    mret (inr (JDict []))
  else mret (inl (UnknownMethod method)).

Definition result_response (request_id result : json) : json :=
  JDict [("jsonrpc", JStr "2.0"); ("id", request_id); ("result", result)].

Definition error_response (request_id : json) (text : string) : json :=
  JDict [("jsonrpc", JStr "2.0"); ("id", request_id);
         ("error", JDict [("code", JInt (-32603)); ("message", JStr text)])].

(** [v is None] *)
Definition is_none (v : json) : bool :=
  match v with JNull => true | _ => false end.

(** The [except] clause. *)
Definition report (H : Host) (W : World) (request_id : json) (f : failure)
  : prog t unit :=
  if is_none request_id then mret ()
  else write_response H W (error_response request_id (message H W f)).

(** The [try] block and its [except] clause, once the request has
    been read. *)
Definition answer (T : Tools) (H : Host) (W : World) (now_lookup now_store : Z)
    (method params request_id : json) : prog t unit :=
  fun s =>
    match on_context_manager (dispatch T H now_lookup now_store method params) s with
    | (Returned (inr result), s1) =>
        if is_none request_id then (Returned (), s1)
        else
          match write_response H W (result_response request_id result) s1 with
          | (Raised e, s2) => report H W request_id (Exception e) s2
          | written => written
          end
    | (Returned (inl f), s1) => report H W request_id f s1
    | (Raised e, s1) => report H W request_id (Exception e) s1
    | (Hangs, s1) => (Hangs, s1)
    end.

(** [handle_request] *)
Definition handle_request (T : Tools) (H : Host) (W : World)
    (now_lookup now_store : Z) (request : json) : prog t unit :=
  method ← lift (py_get request "method" JNull);
  params ← lift (py_get request "params" (JDict []));
  request_id ← lift (py_get request "id" JNull);
  answer T H W now_lookup now_store method params request_id.

(** A line of the standard input as [readline] returns it, with the
    two readings of the clock made while it is handled. *)
Record arrival : Type := Arrival {
  line : string;
  now_lookup : Z;
  now_store : Z;
}.

(** The loop of [run]: it ends when [readline] returns the empty
    string; a line that is not JSON and a request whose handling raises
    are logged and passed. *)
Fixpoint serve (T : Tools) (H : Host) (W : World) (input : list arrival)
  : prog t unit :=
  match input with
  | [] => mret ()
  | a :: rest =>
      if String.eqb (line a) EmptyString then mret ()
      else fun s =>
        match json_loads W (strip H (line a)) with
        | Some request =>
            match handle_request T H W (now_lookup a) (now_store a) request s with
            | (Hangs, s') => (Hangs, s')
            | (_, s') => serve T H W rest s'
            end
        | None => serve T H W rest s
        end
  end.

(** The [try] block of [run] and its [finally] clause. *)
Definition serve_then_shutdown (T : Tools) (H : Host) (W : World)
    (input : list arrival) : prog t unit :=
  fun s =>
    match serve T H W input s with
    | (Hangs, s') => (Hangs, s')
    | (_, s') => shutdown H s'
    end.

(** [run]: an exception of [initialize] leaves before the [try]
    block. *)
Definition run (T : Tools) (H : Host) (W : World) (input : list arrival)
  : prog t unit :=
  initialize W;;
  serve_then_shutdown T H W input.

(** [main] *)
Definition main (T : Tools) (H : Host) (W : World)
    (CACHE_SIZE_MB CACHE_TTL_DAYS : Z) (fs : gmap string node)
    (input : list arrival) : outcome unit * t :=
  run T H W input (new CACHE_SIZE_MB CACHE_TTL_DAYS fs).

End MCPStdioServer.

(** ** A machine to run the definitions on

A JSON codec for the values whose strings are printable ASCII, in
the layout of [json.dumps], and a world made of it, of a small
workspace and of a scripted backend.  The statements below hold in
every world; this one serves to run them. *)

Module Example.

Local Open Scope string_scope.

Definition dquote : ascii := "034"%char.

Definition printable (c : ascii) : bool :=
  let n := nat_of_ascii c in (Nat.leb 32 n && Nat.leb n 126)%bool.

Fixpoint escape (s : string) : option string :=
  match s with
  | EmptyString => Some EmptyString
  | String c s' =>
      if printable c then
        r ← escape s';
        if (Ascii.eqb c dquote || Ascii.eqb c "\")%bool
        then Some (String "\" (String c r))
        else Some (String c r)
      else None
  end.

Definition quote (s : string) : option string :=
  r ← escape s; Some (String dquote r +:+ String dquote EmptyString).

Fixpoint dumps (v : json) : option string :=
  match v with
  | JNull => Some "null"
  | JBool true => Some "true"
  | JBool false => Some "false"
  | JInt n => Some (str_of_int n)
  | JStr s => quote s
  | JList l =>
      inner ← (fix each (l : list json) : option (list string) :=
                 match l with
                 | [] => Some []
                 | x :: r => sx ← dumps x; sr ← each r; Some (sx :: sr)
                 end) l;
      Some ("[" +:+ String.concat ", " inner +:+ "]")
  | JDict kv =>
      inner ← (fix each (kv : list (string * json)) : option (list string) :=
                 match kv with
                 | [] => Some []
                 | (k, x) :: r =>
                     sk ← quote k; sx ← dumps x; sr ← each r;
                     Some ((sk +:+ ": " +:+ sx) :: sr)
                 end) kv;
      Some ("{" +:+ String.concat ", " inner +:+ "}")
  end.

Definition is_space (c : ascii) : bool :=
  (Ascii.eqb c " " || Ascii.eqb c "009" || Ascii.eqb c "010" || Ascii.eqb c "013")%bool.

Fixpoint skip_ws (s : string) : string :=
  match s with
  | String c s' => if is_space c then skip_ws s' else s
  | EmptyString => EmptyString
  end.

(** The text of a string after its opening quote, and what follows
    the closing one. *)
Fixpoint string_body (s : string) : option (string * string) :=
  match s with
  | EmptyString => None
  | String c s' =>
      if Ascii.eqb c dquote then Some (EmptyString, s')
      else if Ascii.eqb c "\" then
        match s' with
        | String d s'' =>
            if (Ascii.eqb d dquote || Ascii.eqb d "\")%bool
            then '(body, rest) ← string_body s''; Some (String d body, rest)
            else None
        | EmptyString => None
        end
      else '(body, rest) ← string_body s'; Some (String c body, rest)
  end.

Definition digit (c : ascii) : option Z :=
  let n := nat_of_ascii c in
  if (Nat.leb 48 n && Nat.leb n 57)%bool then Some (Z.of_nat (n - 48)) else None.

Fixpoint digits (acc : Z) (s : string) : Z * string :=
  match s with
  | String c s' =>
      match digit c with
      | Some d => digits (10 * acc + d) s'
      | None => (acc, s)
      end
  | EmptyString => (acc, EmptyString)
  end.

Definition number (s : string) : option (Z * string) :=
  match s with
  | String "-" (String c s') =>
      d ← digit c; let '(n, rest) := digits d s' in Some (- n, rest)
  | String c s' =>
      d ← digit c; let '(n, rest) := digits d s' in Some (n, rest)
  | EmptyString => None
  end.

Definition literal (word : string) (v : json) (s : string) : option (json * string) :=
  if String.prefix word s then Some (v, drop_str (String.length word) s) else None.

Fixpoint value (fuel : nat) (s : string) : option (json * string) :=
  match fuel with
  | O => None
  | S fuel =>
      match skip_ws s with
      | String "n" _ as s => literal "null" JNull s
      | String "t" _ as s => literal "true" (JBool true) s
      | String "f" _ as s => literal "false" (JBool false) s
      | String "[" s' =>
          match skip_ws s' with
          | String "]" rest => Some (JList [], rest)
          | s' => '(l, rest) ← elements fuel s'; Some (JList l, rest)
          end
      | String "{" s' =>
          match skip_ws s' with
          | String "}" rest => Some (JDict [], rest)
          | s' => '(kv, rest) ← members fuel s'; Some (JDict kv, rest)
          end
      | String c s' as s =>
          if Ascii.eqb c dquote
          then '(body, rest) ← string_body s'; Some (JStr body, rest)
          else '(n, rest) ← number s; Some (JInt n, rest)
      | EmptyString => None
      end
  end
with elements (fuel : nat) (s : string) : option (list json * string) :=
  match fuel with
  | O => None
  | S fuel =>
      '(v, rest) ← value fuel s;
      match skip_ws rest with
      | String "," rest => '(l, rest) ← elements fuel rest; Some (v :: l, rest)
      | String "]" rest => Some ([v], rest)
      | _ => None
      end
  end
with members (fuel : nat) (s : string) : option (list (string * json) * string) :=
  match fuel with
  | O => None
  | S fuel =>
      match skip_ws s with
      | String c s' =>
          if Ascii.eqb c dquote then
            '(k, rest) ← string_body s';
            match skip_ws rest with
            | String ":" rest =>
                '(v, rest) ← value fuel rest;
                match skip_ws rest with
                | String "," rest =>
                    '(kv, rest) ← members fuel rest; Some ((k, v) :: kv, rest)
                | String "}" rest => Some ([(k, v)], rest)
                | _ => None
                end
            | _ => None
            end
          else None
      | EmptyString => None
      end
  end.

Definition loads (s : string) : option json :=
  '(v, rest) ← value (2 * String.length s + 2) s;
  match skip_ws rest with
  | EmptyString => Some v
  | _ => None
  end.

(** The text the import pattern is matched against, line by line: the
    example world knows the plain [import m] lines. *)
Definition imported (content : string) : list (option string) :=
  map (fun l => Some (drop_str 7 l))
      (List.filter (fun l => String.prefix "import " l) (str_split newline content)).

Definition declares (symbol_name content : string) : option bool :=
  Some (str_in ("class " +:+ symbol_name) content
        || str_in ("def " +:+ symbol_name) content).

(** The workspace: two Python files, a text file and a hidden
    directory. *)
Definition directories : tree :=
  Dir ["notes.md"; "svc.py"]
      [(".git", Dir ["hook.py"] []);
       ("src", Dir ["user.py"] [])].

Definition lf : string := String newline EmptyString.

Definition files : gmap string node :=
  list_to_map [
    ("/w/notes.md", RegularFile "class UserService");
    ("/w/svc.py",
     RegularFile ("import os" +:+ lf +:+ "class UserService:" +:+ lf
                  +:+ "    def authenticate(self): pass"));
    ("/w/.git/hook.py", RegularFile "def authenticate(): pass");
    ("/w/src/user.py", RegularFile "def helper(): pass");
    ("/abs/path/user.py", RegularFile "class UserService: pass");
    ("/w/f.txt", RegularFile ("a" +:+ lf +:+ "b" +:+ lf +:+ "c"))
  ].

(** A world whose [pylsp] sends [script]; no other backend is
    installed. *)
Definition world (script : list frame) : World := {|
  getpid := 4242;
  getcwd := "/w";
  abspath := fun p => if String.prefix "/" p then p else "/w/" +:+ p;
  workspace := directories;
  popen := fun command =>
    match command with
    | ["pylsp"] => Some script
    | _ => None
    end;
  re_search_definition := declares;
  re_imported_modules := imported;
  sha256_hexdigest := fun data => data;
  encode := fun text =>
    Some (map (fun c => Z.of_nat (nat_of_ascii c)) (list_ascii_of_string text));
  py_str := fun v => default EmptyString (dumps v);
  json_dumps := dumps;
  json_loads := loads;
  strerror := fun path => "[Errno 13] Permission denied: '" +:+ path +:+ "'";
|}.

(** A reply of the backend to the request [id]. *)
Definition reply (id : Z) (result : json) : frame :=
  Message (JDict [("jsonrpc", JStr "2.0"); ("id", JInt id); ("result", result)]).

(** A reference as the backend reports it. *)
Definition reference_at (uri : string) (line : Z) : json :=
  JDict [("uri", JStr uri);
         ("range", JDict [("start", JDict [("line", JInt line); ("character", JInt 0)]);
                          ("end", JDict [("line", JInt line); ("character", JInt 9)])])].

(** A document symbol as the backend reports it. *)
Definition symbol_at (name : string) (kind line : Z) : json :=
  JDict [("name", JStr name); ("kind", JInt kind);
         ("range", JDict [("start", JDict [("line", JInt line); ("character", JInt 0)]);
                          ("end", JDict [("line", JInt (line + 3)); ("character", JInt 0)])])].

(** A fresh aggregator on the example files, with the default
    configuration of the cache. *)
Definition fresh : ContextManager.t :=
  ContextManager.new LSPClient.new 512 14 files.

End Example.

(** ** Notions the statements are written with *)

(** The character [c] occurs in [s]: [c in s]. *)
Definition occurs (c : ascii) (s : string) : bool :=
  str_in (String c EmptyString) s.

Module EditSpec.
Import ContextManager.

(** [edit.get('type', 'replace')] and [edit.get('text', '')] *)
Definition type_of (edit : Edit.t) : string :=
  default "replace"%string (Edit.type edit).
Definition text_of (edit : Edit.t) : string :=
  default EmptyString (Edit.text edit).

(** What the specification asks of one edit: a [replace] or a [delete]
    addresses an existing line, an [insert] a line or the end of the
    file. *)
Inductive takes_effect (lines : list string) (edit : Edit.t)
  : list string → Prop :=
| replaces (i : nat) :
    type_of edit = "replace"%string → line_of edit = Z.of_nat i →
    (i < length lines)%nat →
    takes_effect lines edit (<[i := text_of edit]> lines)
| inserts (i : nat) :
    type_of edit = "insert"%string → line_of edit = Z.of_nat i →
    (i ≤ length lines)%nat →
    takes_effect lines edit (take i lines ++ text_of edit :: drop i lines)
| deletes (i : nat) :
    type_of edit = "delete"%string → line_of edit = Z.of_nat i →
    (i < length lines)%nat →
    takes_effect lines edit (take i lines ++ drop (S i) lines).


(** A run over the edits, in the order given: the lines it ends with and
    the number of the edits that took effect. *)
Inductive applies : list string → list Edit.t → list string → Z → Prop :=
| applies_nil lines : applies lines [] lines 0
| applies_effect lines edit lines1 rest lines' n :
    takes_effect lines edit lines1 →
    applies lines1 rest lines' n →
    applies lines (edit :: rest) lines' (n + 1)
| applies_skip lines edit rest lines' n :
    (∀ lines1, ¬ takes_effect lines edit lines1) →
    applies lines rest lines' n →
    applies lines (edit :: rest) lines' n.

(** Decreasing line numbers. *)
Definition descending (edits : list Edit.t) : Prop :=
  StronglySorted (fun a b => line_of b ≤ line_of a) edits.

End EditSpec.

Module RegistrySpec.
Import LSPClient.

(** The extensions the registry has a language for. *)
Definition mapped_extensions : list string :=
  [".py"; ".ts"; ".tsx"; ".js"; ".jsx"; ".sh"; ".bash"; ".go"]%string.

(** The extension of a path, as the registry reads it: the suffix of
    its name, in lower case. *)
Definition extension (file_path : string) : string :=
  lower (path_suffix file_path).

(** The states a registry goes through from its creation. *)
Inductive reachable (W : World) : LSPClient.t → Prop :=
| reach_new : reachable W LSPClient.new
| reach_initialize c :
    reachable W c → reachable W (initialize W c).2
| reach_start c language :
    reachable W c → reachable W (_start_server W language c).2
| reach_definition c file_path line character :
    reachable W c → reachable W (get_definition W file_path line character c).2
| reach_references c file_path line character :
    reachable W c → reachable W (get_references W file_path line character c).2
| reach_symbols c file_path :
    reachable W c → reachable W (get_symbols W file_path c).2.

(** Every session of the registry is one of a configured language. *)
Definition configured (c : LSPClient.t) : Prop :=
  ∀ language, is_Some (servers c !! language) →
              is_Some (assoc language LANGUAGE_SERVERS).

End RegistrySpec.

Module CacheSpec.
Import TTLCache.

(** The tracked aggregate size is within the capacity. *)
Definition within_capacity (c : TTLCache.t) : Prop := currsize c ≤ maxsize c.

(** No stored value has a negative size. *)
Definition sized (c : TTLCache.t) : Prop :=
  Forall (fun it => 0 ≤ size it) (items c).

(** The states the cache of a manager goes through, from its creation
    with a configured size and time to live, by [set] and [get]. *)
Inductive served {V : Type} (json_dumps : V → option string)
    (json_loads : string → option V) (CACHE_SIZE_MB CACHE_TTL_DAYS : Z)
  : TTLCache.t → Prop :=
| served_init :
    served json_dumps json_loads CACHE_SIZE_MB CACHE_TTL_DAYS
           (CacheManager.init CACHE_SIZE_MB CACHE_TTL_DAYS)
| served_set c now key value :
    served json_dumps json_loads CACHE_SIZE_MB CACHE_TTL_DAYS c →
    served json_dumps json_loads CACHE_SIZE_MB CACHE_TTL_DAYS
           (CacheManager.set json_dumps c now key value).2
| served_get c now key :
    served json_dumps json_loads CACHE_SIZE_MB CACHE_TTL_DAYS c →
    served json_dumps json_loads CACHE_SIZE_MB CACHE_TTL_DAYS
           (CacheManager.get json_loads c now key).2.

End CacheSpec.

(** A text of [n] letters, and a payload that holds 512 MiB of them. *)
Fixpoint filler (n : nat) : string :=
  match n with
  | O => EmptyString
  | S n => String "x" (filler n)
  end.

Definition huge_payload : json :=
  JDict [("documentation", JStr (filler (Z.to_nat (512 * 1024 * 1024))))].

(** The text [json.dumps] gives for such a payload. *)
Definition opening : string :=
  String "{" (String Example.dquote ("documentation" +:+
    String Example.dquote (": " +:+ String Example.dquote EmptyString))).
Definition closing : string := String Example.dquote "}".
Definition payload_text (n : nat) : string := opening +:+ filler n +:+ closing.

Module SessionSpec.
Import LSPServerProcess.

(** The identifier a message bears: [msg.get("id")]. *)
Definition id_of (kv : list (string * json)) : json :=
  default JNull (assoc "id" kv).

(** A frame the loop of a request with identifier [msg_id] reads and
    drops: a message that bears another identifier, or none. *)
Definition passed_over (msg_id : Z) (f : frame) : Prop :=
  ∃ kv, f = Message (JDict kv) ∧ eq_int (id_of kv) msg_id = false.

(** What the caller gets from the reply [kv]. *)
Definition delivered (kv : list (string * json)) : outcome json :=
  match assoc "error" kv with
  | Some error => Raised (LSPError error)
  | None => Returned (default JNull (assoc "result" kv))
  end.

(** A session that has been started, with [frames] still to come from
    the backend. *)
Definition listening (frames : list frame) : LSPServerProcess.t :=
  Make "python" ["pylsp"] true (Some frames) (Some []) 0.

(** Two requests, one after the other, as a caller issues them. *)
Definition two_requests (s : LSPServerProcess.t)
  : outcome json * outcome json * LSPServerProcess.t :=
  let '(first, s1) := _request "textDocument/documentSymbol" (JDict []) s in
  let '(second, s2) := _request "textDocument/references" (JDict []) s1 in
  (first, second, s2).

End SessionSpec.

Module ReferenceSpec.
Import ContextManager.






End ReferenceSpec.

Module ContextSpec.
Import ContextManager.

(** [payload["tokens_saved"]] *)
Definition tokens_saved (payload : json) : option json :=
  match payload with
  | JDict kv => assoc "tokens_saved" kv
  | _ => None
  end.

(** The payload reports a saving that is an integer and is not
    negative. *)
Definition saves (payload : json) : Prop :=
  ∃ n, tokens_saved payload = Some (JInt n) ∧ 0 ≤ n.

(** Every payload the cache can give back reports such a saving. *)
Definition cache_sound (W : World) (c : TTLCache.t) : Prop :=
  Forall (fun it => ∀ payload, json_loads W (TTLCache.value it) = Some payload →
                               truthy payload = true → saves payload)
         (TTLCache.items c).

(** [json] gives back what it was given. *)
Definition faithful (W : World) : Prop :=
  ∀ payload serialized decoded,
    json_dumps W payload = Some serialized →
    json_loads W serialized = Some decoded →
    decoded = payload.

(** The states an aggregator goes through, from its creation, by the
    three operations of the tool-call interface. *)
Inductive runs (W : World) : ContextManager.t → Prop :=
| runs_new lsp_client CACHE_SIZE_MB CACHE_TTL_DAYS files :
    runs W (ContextManager.new lsp_client CACHE_SIZE_MB CACHE_TTL_DAYS files)
| runs_get_context s now_lookup now_store query scope max_tokens :
    runs W s →
    runs W (get_context W now_lookup now_store query scope max_tokens s).2
| runs_find_symbol s symbol_name :
    runs W s → runs W (find_symbol W symbol_name s).2
| runs_apply_edit s file_path edits :
    runs W s → runs W (apply_edit W file_path edits s).2.

(** The payload assembled for [file_path] from what was extracted. *)
Definition assembled (symbols : list Symbol) (dependencies : list Dependency)
    (references : list Reference) (raw_tokens optimized_tokens : Z) : json :=
  JDict (context_dict symbols dependencies references
         ++ [("tokens_saved", JInt (Z.max 0 (raw_tokens - optimized_tokens)))]).

(** A workspace of two modules, each declaring a function of its name,
    and a backend that knows no symbol and no reference. *)
Definition two_modules : gmap string node :=
  list_to_map [("/w/a.py", RegularFile "def a(): pass");
               ("/w/b.py", RegularFile "def b(): pass")].

Definition two_modules_world : World :=
  let W := Example.world [Example.reply 1 JNull; Example.reply 2 (JList []);
                          Example.reply 3 (JList [])] in
  {| getpid := getpid W; getcwd := getcwd W; abspath := abspath W;
     workspace := Dir ["a.py"; "b.py"] [];
     popen := popen W;
     re_search_definition := re_search_definition W;
     re_imported_modules := re_imported_modules W;
     sha256_hexdigest := sha256_hexdigest W;
     encode := encode W; py_str := py_str W;
     json_dumps := json_dumps W; json_loads := json_loads W;
     strerror := strerror W |}.

Definition two_modules_start : ContextManager.t :=
  ContextManager.new LSPClient.new 512 14 two_modules.

(** The payload of [authenticate] in the example world, when the
    backend reports the method and one reference in another file. *)
Definition authenticate_world : World :=
  Example.world
    [Example.reply 1 JNull;
     Example.reply 2 (JList [Example.symbol_at "authenticate" 6 2]);
     Example.reply 3 (JList [Example.reference_at "file:///w/src/user.py" 4])].

Definition authenticate_payload : json :=
  JDict [("symbols",
          JList [JDict [("name", JStr "authenticate"); ("kind", JStr "Method");
                        ("location",
                         JDict [("file", JStr "/w/svc.py"); ("line", JInt 2)]);
                        ("documentation", JStr EmptyString)]]);
         ("dependencies",
          JList [JDict [("module", JStr "os");
                        ("summary", JStr "Imported by svc.py")]]);
         ("references",
          JList [JDict [("file", JStr "/w/src/user.py"); ("line", JInt 4);
                        ("context", JStr "Reference to authenticate")]]);
         ("tokens_saved", JInt 212)].

(** The payloads of the stubs of [b] and of [a]. *)
Definition stub_payload (symbol_name : string) (tokens : Z) : json :=
  JDict [("symbols",
          JList [JDict [("name", JStr symbol_name); ("kind", JStr "Unknown");
                        ("location",
                         JDict [("file", JStr ("/w/" +:+ symbol_name +:+ ".py"));
                                ("line", JInt 1)]);
                        ("documentation",
                         JStr ("Symbol " +:+ symbol_name +:+ " in "
                               +:+ symbol_name +:+ ".py"))]]);
         ("dependencies", JList []);
         ("references", JList []);
         ("tokens_saved", JInt tokens)].

End ContextSpec.

Module CodecSpec.

(** What may follow the text of a value: nothing, or a character that
    is not a digit. *)
Definition terminated (rest : string) : Prop :=
  match rest with
  | String c _ => Example.digit c = None
  | EmptyString => True
  end.

(** The first character of the text of a value: not a space, not a
    closing bracket. *)
Definition opens (c : ascii) : bool :=
  negb (Example.is_space c) && negb (Ascii.eqb c "]") && negb (Ascii.eqb c "}").

Definition opened (s : string) : Prop :=
  match s with
  | String c _ => opens c = true
  | EmptyString => False
  end.

(** The fuel the reading of a value takes. *)
Fixpoint weight (v : json) : nat :=
  match v with
  | JList l => S (length l + list_sum (map weight l))
  | JDict kv => S (length kv + list_sum (map (fun p => weight (snd p)) kv))
  | _ => 1
  end.

(** The texts of the elements of a list and of the members of a
    dictionary. *)
Definition dumps_member (p : string * json) : option string :=
  sk ← Example.quote (fst p); sx ← Example.dumps (snd p);
  Some (sk +:+ ": " +:+ sx).

(** The text of [v], followed by [rest], is read back as [v] and
    leaves [rest], with any fuel that pays for the weight of [v]. *)
Definition reads (v : json) : Prop :=
  ∀ fuel s rest,
    Example.dumps v = Some s → (weight v ≤ fuel)%nat → terminated rest →
    Example.value fuel (s +:+ rest) = Some (v, rest).

End CodecSpec.

Module LineSpec.
Import ContextManager EditSpec.

(** The first edit of [edits] that names the line [i]. *)
Definition edit_at (edits : list Edit.t) (i : Z) : option Edit.t :=
  List.find (fun e => line_of e =? i) edits.

(** What becomes of a line under the edit that names it: it is
    replaced, preceded by the new text, or dropped. *)
Definition rendered (edit : option Edit.t) (line : string) : list string :=
  match edit with
  | Some e =>
      if String.eqb (type_of e) "replace" then [text_of e]
      else if String.eqb (type_of e) "insert" then [text_of e; line]
      else if String.eqb (type_of e) "delete" then []
      else [line]
  | None => [line]
  end.

(** What comes after the last line: the text of an insertion at the
    index one past it. *)
Definition appended (edit : option Edit.t) : list string :=
  match edit with
  | Some e => if String.eqb (type_of e) "insert" then [text_of e] else []
  | None => []
  end.

(** The lines [lines], the first of which has the index [i], once every
    line has met the edit that names it. *)
Fixpoint rewritten (edits : list Edit.t) (i : Z) (lines : list string)
  : list string :=
  match lines with
  | [] => appended (edit_at edits i)
  | line :: rest => rendered (edit_at edits i) line ++ rewritten edits (i + 1) rest
  end.

(** The edit names a line of a file of [n] lines, or the end of it for
    an insertion, and has a type the loop knows. *)
Definition effective (n : Z) (e : Edit.t) : bool :=
  (0 <=? line_of e)
  && (if String.eqb (type_of e) "replace" then line_of e <? n
      else if String.eqb (type_of e) "insert" then line_of e <=? n
      else if String.eqb (type_of e) "delete" then line_of e <? n
      else false).

(** The edit [e] read for a list whose first line has the index [i]. *)
Definition shifted (i : Z) (e : Edit.t) : Edit.t :=
  Edit.Make (Edit.type e) (Some (line_of e - i)) (Edit.text e).

(** What an edit that takes effect makes of the lines. *)
Definition acted (lines : list string) (e : Edit.t) : list string :=
  let i := Z.to_nat (line_of e) in
  if String.eqb (type_of e) "replace" then <[i := text_of e]> lines
  else if String.eqb (type_of e) "insert" then list_insert_at i (text_of e) lines
  else delete i lines.

(** Edits by decreasing line numbers, no two on the same line. *)
Definition strictly_descending (edits : list Edit.t) : Prop :=
  StronglySorted (fun a b => line_of b < line_of a) edits.

End LineSpec.

Module DependencySpec.
Import ContextManager.

(** A dependency that was read from the file of one of [symbols]: its
    module has a name, and its summary names that file, which exists. *)
Definition imported_by (files : gmap string node) (symbols : list Symbol)
    (d : Dependency) : Prop :=
  module d ≠ EmptyString
  ∧ ∃ symbol,
      symbol ∈ symbols
      ∧ path_exists files (location_file symbol) = true
      ∧ summary d = ("Imported by " +:+ basename (location_file symbol))%string.

(** What the loop of [_extract_dependencies] keeps true of the list it
    builds and of the set of the modules seen. *)
Definition collected (P : Dependency → Prop)
    (acc : list Dependency * gset string) : Prop :=
  NoDup (map module acc.1)
  ∧ Forall (fun d => module d ∈ acc.2) acc.1
  ∧ Forall P acc.1.

End DependencySpec.

Module NumberingSpec.
Import LSPServerProcess.

(** The identifier of a message that is a request. *)
Definition request_id_of (msg : json) : option Z :=
  match msg with
  | JDict kv =>
      match assoc "id" kv with
      | Some (JInt n) => Some n
      | _ => None
      end
  | _ => None
  end.

(** The identifiers of the requests among the messages sent, in the
    order in which they were sent. *)
Definition request_ids (sent : list json) : list Z := omap request_id_of sent.

(** The requests sent so far bear the numbers from 1 to the counter of
    the session, in that order. *)
Definition numbered (s : LSPServerProcess.t) : Prop :=
  0 ≤ _request_id s
  ∧ ∀ sent, writer s = Some sent → request_ids sent = seqZ 1 (_request_id s).

(** Every session of the registry is numbered. *)
Definition all_numbered (c : LSPClient.t) : Prop :=
  ∀ language server,
    LSPClient.servers c !! language = Some server → numbered server.

End NumberingSpec.

Module ShutdownSpec.
Import LSPServerProcess.

(** A session that has forgotten its process and its pipes. *)
Definition stopped (s : LSPServerProcess.t) : Prop :=
  process s = false ∧ reader s = None ∧ writer s = None.

(** A session whose backend answers the next request with a result. *)
Definition answering (s : LSPServerProcess.t) : Prop :=
  ∃ sent before kv after,
    writer s = Some sent
    ∧ reader s = Some (before ++ Message (JDict kv) :: after)
    ∧ Forall (SessionSpec.passed_over (_request_id s + 1)) before
    ∧ eq_int (SessionSpec.id_of kv) (_request_id s + 1) = true
    ∧ assoc "error" kv = None.

(** Every session the loop of [shutdown] is to visit answers its
    [shutdown] request, or has been stopped. *)
Definition closing_down (languages : list string) (c : LSPClient.t) : Prop :=
  Forall (fun language =>
            ∃ server, LSPClient.servers c !! language = Some server
                      ∧ (process server = false ∨ answering server))
         languages.

End ShutdownSpec.

Module ServerSpec.
Import MCPStdioServer.
Local Open Scope string_scope.

(** [request.get("id")] *)
Definition id_of (kv : list (string * json)) : json :=
  default JNull (assoc "id" kv).

(** The line written for a response. *)
Definition written (text : string) : string := text +:+ String newline EmptyString.

(** A response to the request [request_id]: it bears the identifier,
    and a result or else an error of code -32603. *)
Definition responds_to (request_id response : json) : Prop :=
  (∃ result, response = result_response request_id result)
  ∨ (∃ text, response = error_response request_id text).

(** The line is one an answer is written for, when its handling
    returns: it holds a JSON object whose identifier is not null. *)
Definition expects_response (H : Host) (W : World) (a : arrival) : bool :=
  match json_loads W (strip H (line a)) with
  | Some (JDict kv) => negb (is_none (id_of kv))
  | _ => false
  end.

(** The names of the tools the result of [tools/list] lists, with what
    it says of each. *)
Definition listed (result : json) : list (json * list (string * json)) :=
  match result with
  | JDict [("tools", JList tools)] =>
      omap (fun tool =>
              match tool with
              | JDict (("name", name) :: about) => Some (name, about)
              | _ => None
              end) tools
  | _ => []
  end.

(** The names of the tools the result of [initialize] declares, with
    what it says of each. *)
Definition declared (result : json) : list (json * list (string * json)) :=
  match result with
  | JDict [_; ("capabilities", JDict [("tools", JDict tools)]); _] =>
      omap (fun tool =>
              match tool with
              | (name, JDict about) => Some (JStr name, about)
              | _ => None
              end) tools
  | _ => []
  end.

(** The request of a call of the tool [name]. *)
Definition tool_call (name : string) (arguments : list (string * json)) : json :=
  JDict [("name", JStr name); ("arguments", JDict arguments)].

(** What the handling of a request leaves on the standard output: what
    was there, and at most one line. *)
Inductive outcome_of (W : World) (request_id : json) (s : MCPStdioServer.t)
  : outcome unit → MCPStdioServer.t → Prop :=
| silent r s' :
    stdout s' = stdout s →
    (is_none request_id = true → r = Returned () ∨ r = Hangs) →
    (is_none request_id = false → r ≠ Returned ()) →
    outcome_of W request_id s r s'
| answered response text s' :
    is_none request_id = false →
    responds_to request_id response →
    json_dumps W response = Some text →
    stdout s' = (stdout s ++ [written text])%list →
    outcome_of W request_id s (Returned ()) s'.

(** The lines written are answers to lines that were read, in their
    order: each is the text of a response to a request that bears an
    identifier, the identifier of the response; a line that is read may
    have no answer. *)
Inductive answers (H : Host) (W : World) : list arrival → list string → Prop :=
| answers_none input : answers H W input []
| answers_pass a input lines :
    answers H W input lines → answers H W (a :: input) lines
| answers_reply a input lines kv response text :
    json_loads W (strip H (line a)) = Some (JDict kv) →
    is_none (id_of kv) = false →
    responds_to (id_of kv) response →
    json_dumps W response = Some text →
    answers H W input lines →
    answers H W (a :: input) (written text :: lines).

(** The call of a tool ended on the [ValueError] of an unknown tool. *)
Definition refused (r : outcome (failure + json) * ContextManager.t) : Prop :=
  ∃ tool_name, r.1 = Returned (inl (UnknownTool tool_name)).

End ServerSpec.


(** A host and tools to run the server on: the white space of ASCII
    for [strip], a name for each exception, and the coroutines of the
    aggregator on arguments of the types the schemas of the tools
    declare.  The examples give them no others. *)
Module ServerExample.
Import MCPStdioServer.
Local Open Scope string_scope.

Definition is_blank (c : ascii) : bool :=
  let n := nat_of_ascii c in
  (Nat.eqb n 32 || (Nat.leb 9 n && Nat.leb n 13) || (Nat.leb 28 n && Nat.leb n 31))%bool.

Fixpoint lstrip (s : string) : string :=
  match s with
  | String c s' => if is_blank c then lstrip s' else s
  | EmptyString => EmptyString
  end.

Definition reversed (s : string) : string :=
  string_of_list_ascii (rev (list_ascii_of_string s)).

Definition strip (s : string) : string :=
  reversed (lstrip (reversed (lstrip s))).

Definition name_of (e : exn) : string :=
  match e with
  | LSPError _ => "LSP error"
  | AttributeError => "AttributeError"
  | TypeError => "TypeError"
  | KeyError => "KeyError"
  | ValueError => "ValueError"
  | JSONDecodeError => "JSONDecodeError"
  | OSError path => "OSError: " +:+ path
  end.

Definition host : Host := {|
  str_exception := name_of;
  dumps_error := fun _ => TypeError;
  MCPStdioServer.strip := strip;
  MAX_TOKENS := 4096;
  registered := fun c => map fst (map_to_list (LSPClient.servers c));
|}.

(** The dictionaries [find_symbol] and [apply_edit] return. *)
Definition location_dict (l : ContextManager.Location.t) : json :=
  JDict [("file", JStr (ContextManager.Location.file l));
         ("line", ContextManager.Location.line l);
         ("kind", JStr (ContextManager.Location.kind l));
         ("name", ContextManager.Location.name l);
         ("documentation", ContextManager.Location.documentation l)].

Definition find_result_dict (r : ContextManager.FindResult.t) : json :=
  JDict [("symbol_name", JStr (ContextManager.FindResult.symbol_name r));
         ("found", JBool (ContextManager.FindResult.found r));
         ("message", JStr (ContextManager.FindResult.message r));
         ("locations",
          JList (map location_dict (ContextManager.FindResult.locations r)))].

Definition edit_result_dict (r : ContextManager.EditResult.t) : json :=
  JDict [("success", JBool (ContextManager.EditResult.success r));
         ("message", JStr (ContextManager.EditResult.message r));
         ("edits_applied", JInt (ContextManager.EditResult.edits_applied r))].

(** An edit whose fields, when present, are a string, an integer and
    a string. *)
Definition edit_of (v : json) : option ContextManager.Edit.t :=
  match v with
  | JDict kv =>
      type ← match assoc "type" kv with
             | None => Some None
             | Some (JStr t) => Some (Some t)
             | Some _ => None
             end;
      line ← match assoc "line" kv with
             | None => Some None
             | Some (JInt n) => Some (Some n)
             | Some _ => None
             end;
      text ← match assoc "text" kv with
             | None => Some None
             | Some (JStr t) => Some (Some t)
             | Some _ => None
             end;
      Some (ContextManager.Edit.Make type line text)
  | _ => None
  end.

Definition tools (W : World) : Tools := {|
  tool_find_symbol := fun symbol_name _ =>
    match symbol_name with
    | JStr name =>
        r ← ContextManager.find_symbol W name;
        mret (find_result_dict r)
    | _ => lift (Raised TypeError)
    end;
  tool_get_context := fun now_lookup now_store query scope max_tokens =>
    match query with
    | JStr q => ContextManager.get_context W now_lookup now_store q scope max_tokens
    | _ => lift (Raised TypeError)
    end;
  tool_apply_edit := fun file_path edits =>
    match file_path, edits with
    | JStr path, JList l =>
        match mapM edit_of l with
        | Some typed =>
            r ← ContextManager.apply_edit W path typed;
            mret (edit_result_dict r)
        | None => lift (Raised TypeError)
        end
    | _, _ => lift (Raised TypeError)
    end;
|}.

(** A world without any backend. *)
Definition bare_world : World :=
  let W := Example.world [] in
  {| getpid := getpid W; getcwd := getcwd W; abspath := abspath W;
     workspace := workspace W; popen := fun _ => None;
     re_search_definition := re_search_definition W;
     re_imported_modules := re_imported_modules W;
     sha256_hexdigest := sha256_hexdigest W;
     encode := encode W; py_str := py_str W;
     json_dumps := json_dumps W; json_loads := json_loads W;
     strerror := strerror W |}.

(** A server on the example files, with the default configuration. *)
Definition fresh : MCPStdioServer.t := MCPStdioServer.new 512 14 Example.files.

End ServerExample.

Module WalkSpec.

(** The directories reached from [top] through directories whose
    names do not start with a dot. *)
Inductive visible_from (top : string) : string → Prop :=
| visible_top : visible_from top top
| visible_sub root name :
    visible_from top root →
    startswith name "." = false →
    visible_from top (path_join root name).

End WalkSpec.

(** * Properties *)

(** Unfolding the sequencing of the programs. *)
Ltac step_prog :=
  unfold mbind, mret, prog_bind, prog_ret, outcome_bind, outcome_ret,
    get_state, modify, lift;
  cbn beta iota.

(** ** Strings *)

Section strings.
Local Open Scope string_scope.

Lemma occurs_cons c d s :
  occurs c (String d s) = (Ascii.eqb d c || occurs c s)%bool.
Proof.
  unfold occurs. cbn [str_in String.prefix].
  destruct (ascii_dec c d) as [->|Hne].
  - rewrite Ascii.eqb_refl. by destruct s.
  - assert (Ascii.eqb d c = false) as ->
      by (apply Ascii.eqb_neq; congruence).
    reflexivity.
Qed.

Lemma occurs_nil c : occurs c EmptyString = false.
Proof. reflexivity. Qed.

Lemma append_cons d a b : String d a +:+ b = String d (a +:+ b).
Proof. reflexivity. Qed.

Lemma append_nil b : EmptyString +:+ b = b.
Proof. reflexivity. Qed.

Lemma append_assoc a b c : (a +:+ b) +:+ c = a +:+ (b +:+ c).
Proof.
  induction a as [|d a IH]; [done|]. by rewrite !append_cons, IH.
Qed.

Lemma length_append a b :
  String.length (a +:+ b) = (String.length a + String.length b)%nat.
Proof.
  induction a as [|d a IH]; [done|]. rewrite append_cons. cbn. by rewrite IH.
Qed.

Lemma occurs_app c a b :
  occurs c (a +:+ b) = (occurs c a || occurs c b)%bool.
Proof.
  induction a as [|d a IH].
  - by rewrite append_nil, occurs_nil.
  - rewrite append_cons, !occurs_cons, IH. by rewrite orb_assoc.
Qed.

Lemma split_once_absent c s :
  occurs c s = false → str_split_once c s = None.
Proof.
  induction s as [|d s IH]; [done|].
  rewrite occurs_cons. intros [Hd Hs]%orb_false_iff.
  cbn [str_split_once]. by rewrite Hd, (IH Hs).
Qed.

Lemma split_once_first c a b :
  occurs c a = false → str_split_once c (a +:+ String c b) = Some (a, b).
Proof.
  induction a as [|d a IH].
  - intros _. rewrite append_nil. cbn [str_split_once]. by rewrite Ascii.eqb_refl.
  - rewrite occurs_cons, append_cons. intros [Hd Ha]%orb_false_iff.
    cbn [str_split_once]. by rewrite Hd, (IH Ha).
Qed.

Lemma split_absent c s : occurs c s = false → str_split c s = [s].
Proof.
  induction s as [|d s IH]; [done|].
  rewrite occurs_cons. intros [Hd Hs]%orb_false_iff.
  cbn [str_split]. by rewrite Hd, (IH Hs).
Qed.

Lemma split_first c a b :
  occurs c a = false → str_split c (a +:+ String c b) = a :: str_split c b.
Proof.
  induction a as [|d a IH].
  - intros _. rewrite append_nil. cbn [str_split]. by rewrite Ascii.eqb_refl.
  - rewrite occurs_cons, append_cons. intros [Hd Ha]%orb_false_iff.
    cbn [str_split]. by rewrite Hd, (IH Ha).
Qed.

Lemma split_nonempty c s : str_split c s ≠ [].
Proof.
  destruct s as [|d s]; [done|]. cbn [str_split].
  destruct (Ascii.eqb d c); [done|]. by destruct (str_split c s).
Qed.



End strings.

(** ** Query parsing *)

Section parse_query.
Import ContextManager.
Local Open Scope string_scope.

Lemma dot_is_not_colon : Ascii.eqb "." ":" = false.
Proof. reflexivity. Qed.

(** C6. The three forms of a query.  [Class.method], with one dot and no
    colon, gives no file and the method name; [file:symbol], when the
    text before the first colon exists as it is written, gives that file
    and the symbol; a token without dot and colon gives no file and
    itself. *)
Theorem parse_query_forms (W : World) (files : gmap string node)
    (cls method file symbol token : string) :
  occurs ":" cls = false → occurs "." cls = false →
  occurs ":" method = false → occurs "." method = false →
  occurs ":" file = false → path_exists files file = true →
  occurs ":" token = false → occurs "." token = false →
  _parse_query W files (cls +:+ "." +:+ method) = (None, method)
  ∧ _parse_query W files (file +:+ ":" +:+ symbol) = (Some file, symbol)
  ∧ _parse_query W files token = (None, token).
Proof.
  intros Hc1 Hc2 Hm1 Hm2 Hf He Ht1 Ht2. unfold _parse_query.
  rewrite !append_cons, !append_nil. repeat split.
  - rewrite split_once_absent.
    2:{ by rewrite occurs_app, occurs_cons, Hc1, Hm1. }
    change (str_in "." ?q) with (occurs "." q).
    rewrite occurs_app, occurs_cons, Ascii.eqb_refl, orb_true_r.
    by rewrite split_first, split_absent.
  - by rewrite split_once_first, He.
  - rewrite split_once_absent by done.
    change (str_in "." ?q) with (occurs "." q). by rewrite Ht2.
Qed.

(** The queries of the specification, on the example files. *)
Lemma parse_query_examples :
  _parse_query (Example.world []) Example.files "UserService.authenticate"
    = (None, "authenticate")
  ∧ _parse_query (Example.world []) Example.files "/abs/path/user.py:UserService"
    = (Some "/abs/path/user.py", "UserService")
  ∧ _parse_query (Example.world []) Example.files "foo" = (None, "foo").
Proof.
  apply (parse_query_forms (Example.world []) Example.files
           "UserService" "authenticate" "/abs/path/user.py" "UserService" "foo");
    reflexivity.
Defined.

End parse_query.

(** ** Line edits *)

Section apply_edit.
Import ContextManager EditSpec.
Local Open Scope string_scope.
Local Open Scope list_scope.
Local Open Scope Z_scope.

Lemma insert_edit_perm edit sorted :
  Permutation (edit :: sorted) (insert_edit edit sorted).
Proof.
  induction sorted as [|e rest IH]; cbn [insert_edit]; [done|].
  destruct (line_of e >? line_of edit); [|done].
  rewrite perm_swap. by constructor.
Qed.

Lemma sorted_reverse_perm edits : Permutation edits (sorted_reverse edits).
Proof.
  induction edits as [|e rest IH]; [done|].
  cbn [sorted_reverse foldr]. rewrite <- insert_edit_perm.
  by constructor.
Qed.

Lemma insert_edit_descending edit sorted :
  descending sorted → descending (insert_edit edit sorted).
Proof.
  unfold descending.
  induction 1 as [|e rest Hrest IH Hall]; cbn [insert_edit].
  - repeat constructor.
  - destruct (Z.gtb_spec (line_of e) (line_of edit)) as [Hgt|Hle].
    + constructor; [done|].
      eapply Permutation_Forall; [apply insert_edit_perm|].
      constructor; [lia|done].
    + constructor; [by constructor|].
      constructor; [lia|].
      eapply Forall_impl; [exact Hall|]. cbn. lia.
Qed.

Lemma sorted_reverse_descending edits : descending (sorted_reverse edits).
Proof.
  induction edits as [|e rest IH]; [constructor|].
  by apply insert_edit_descending.
Qed.

Lemma apply_one_unfold lines n edit :
  apply_one (lines, n) edit =
    if String.eqb (type_of edit) "replace"
       && (0 <=? line_of edit) && (line_of edit <? len lines)
    then (<[Z.to_nat (line_of edit) := text_of edit]> lines, n + 1)
    else if String.eqb (type_of edit) "insert" then
      if (0 <=? line_of edit) && (line_of edit <=? len lines)
      then (list_insert_at (Z.to_nat (line_of edit)) (text_of edit) lines, n + 1)
      else (lines, n)
    else if String.eqb (type_of edit) "delete" then
      if (0 <=? line_of edit) && (line_of edit <? len lines)
      then (delete (Z.to_nat (line_of edit)) lines, n + 1)
      else (lines, n)
    else (lines, n).
Proof. reflexivity. Qed.






(** The count a run reports is the only one it can report. *)
Lemma takes_effect_functional lines edit l1 l2 :
  takes_effect lines edit l1 → takes_effect lines edit l2 → l1 = l2.
Proof.
  intros [i Ht Hl Hi|i Ht Hl Hi|i Ht Hl Hi] [j Ht' Hl' Hj|j Ht' Hl' Hj|j Ht' Hl' Hj];
    try congruence; by replace j with i by lia.
Qed.

Lemma applies_functional lines edits l1 n1 l2 n2 :
  applies lines edits l1 n1 → applies lines edits l2 n2 → l1 = l2 ∧ n1 = n2.
Proof.
  intros H1. revert l2 n2.
  induction H1 as [lines|lines edit lines1 rest l1 n1 Heff _ IH
                  |lines edit rest l1 n1 Hskip _ IH];
    intros l2 n2 H2; inversion H2; subst.
  - done.
  - match goal with
    | H : takes_effect _ _ ?l |- _ =>
        pose proof (takes_effect_functional _ _ _ _ Heff H); subst l
    end.
    match goal with H : applies lines1 rest _ _ |- _ => apply IH in H as [-> ->] end.
    done.
  - by match goal with H : ∀ _, ¬ takes_effect _ _ _ |- _ => destruct (H _ Heff) end.
  - by match goal with H : takes_effect _ _ _ |- _ => destruct (Hskip _ H) end.
  - match goal with H : applies lines rest _ _ |- _ => by apply IH in H end.
Qed.


(** [apply_edit] on a file that can be read: the file is rewritten with
    the lines the loop ends with, and the count of the loop is reported. *)
Lemma apply_edit_regular W file_path edits s text :
  fs s !! file_path = Some (RegularFile text) →
  let content := universal_newlines text in
  apply_edit W file_path edits s =
    (Returned (EditResult.Make true
                 ("Successfully applied "
                  +:+ str_of_int (run_edits (str_split newline content) edits).2
                  +:+ " edit(s) to " +:+ file_path)
                 (run_edits (str_split newline content) edits).2),
     Make (lsp_client s) (cache s)
          (<[file_path := RegularFile
               (join_lines (run_edits (str_split newline content) edits).1)]> (fs s))).
Proof.
  intros Hfile content. unfold apply_edit. step_prog.
  unfold path_exists, read_text. rewrite Hfile.
  rewrite bool_decide_eq_true_2 by eauto. cbn [negb]. fold content.
  destruct (run_edits (str_split newline content) edits) as [lines' n].
  by step_prog.
Qed.


End apply_edit.

(** ** The registry of sessions *)

Section registry.
Import LSPClient RegistrySpec.
Local Open Scope string_scope.

Lemma start_server_configured W language c :
  configured c → configured (_start_server W language c).2.
Proof.
  intros Hc. unfold _start_server.
  destruct (assoc language LANGUAGE_SERVERS) as [command|] eqn:Hlang; [|done].
  destruct (has_server language c); [done|].
  destruct (LSPServerProcess.start W _) as [[]]; [|done..].
  intros l. cbn [snd servers]. rewrite lookup_insert.
  case_decide as Hl; [subst; eauto|apply Hc].
Qed.

Lemma on_server_configured {A} language (m : prog LSPServerProcess.t A) c :
  configured c → configured (on_server language m c).2.
Proof.
  intros Hc. unfold on_server.
  destruct (servers c !! language) as [server|] eqn:Hs; [|done].
  destruct (m server) as [r server']. intros l. cbn [snd servers].
  rewrite lookup_insert. case_decide as Hl; [|apply Hc].
  subst. intros _. apply Hc. eauto.
Qed.

Lemma started_then_configured {A} W language (m : prog LSPServerProcess.t A)
    (d : A) c :
  configured c →
  configured ((_start_server W language;;
               c' ← get_state;
               if has_server language c' then on_server language m
               else mret d) c).2.
Proof.
  intros Hc. step_prog.
  pose proof (start_server_configured W language c Hc) as Hc'.
  destruct (_start_server W language c) as [[] c']; [|done..].
  destruct (has_server language c'); [|done].
  by apply on_server_configured.
Qed.

Lemma reachable_configured W c : reachable W c → configured c.
Proof.
  induction 1 as [|c _ IH|c language _ IH|c f l ch _ IH|c f l ch _ IH|c f _ IH].
  - intros l [x Hx]. cbn [servers LSPClient.new] in Hx.
    by rewrite lookup_empty in Hx.
  - unfold initialize. step_prog.
    pose proof (start_server_configured W "python" c IH) as Hc'.
    by destruct (_start_server W "python" c) as [[] c'].
  - by apply start_server_configured.
  - by apply started_then_configured.
  - by apply started_then_configured.
  - by apply started_then_configured.
Qed.

Lemma unmapped_is_unknown file_path :
  extension file_path ∉ mapped_extensions →
  _get_language_from_file file_path = "unknown".
Proof.
  unfold _get_language_from_file, extension, mapped_extensions, language_map.
  intros Hnot. cbn [assoc].
  repeat match goal with
         | |- context [String.eqb ?a ?b] =>
             destruct (String.eqb_spec a b) as [He|_];
             [exfalso; apply Hnot; rewrite <- He; set_solver|]
         end.
  reflexivity.
Qed.

Lemma unknown_not_started W c :
  configured c →
  _start_server W "unknown" c = (Returned (), c)
  ∧ has_server "unknown" c = false.
Proof.
  intros Hc. split; [done|].
  unfold has_server. apply bool_decide_eq_false_2.
  intros Hs. by apply Hc in Hs as [? ?].
Qed.

(** C7. A path whose extension is not a mapped one resolves to the
    language [unknown]; no session is started for it (the registry is
    left as it was); [get_definition] returns [None] and
    [get_references] and [get_symbols] return the empty list, and none
    of them raises. *)
Theorem unmapped_extension_no_session W c file_path line character :
  reachable W c →
  extension file_path ∉ mapped_extensions →
  _get_language_from_file file_path = "unknown"
  ∧ get_definition W file_path line character c = (Returned JNull, c)
  ∧ get_references W file_path line character c = (Returned (JList []), c)
  ∧ get_symbols W file_path c = (Returned (JList []), c).
Proof.
  intros Hc%reachable_configured Hext.
  pose proof (unmapped_is_unknown _ Hext) as Hlang.
  destruct (unknown_not_started W c Hc) as [Hstart Hnone].
  split; [done|].
  unfold get_definition, get_references, get_symbols. rewrite Hlang.
  step_prog. by rewrite Hstart, Hnone.
Qed.

(** A Markdown file, on a registry that has served a Python file. *)
Lemma unmapped_extension_example :
  let W := Example.world [Example.reply 1 JNull; Example.reply 2 (JList [])] in
  let c := (get_symbols W "/w/svc.py" LSPClient.new).2 in
  _get_language_from_file "/w/notes.md" = "unknown"
  ∧ get_definition W "/w/notes.md" (JInt 0) (JInt 0) c = (Returned JNull, c)
  ∧ get_references W "/w/notes.md" (JInt 0) (JInt 0) c = (Returned (JList []), c)
  ∧ get_symbols W "/w/notes.md" c = (Returned (JList []), c).
Proof.
  intros W c.
  apply (unmapped_extension_no_session W c "/w/notes.md" (JInt 0) (JInt 0)).
  - apply reach_symbols, reach_new.
  - apply (bool_decide_unpack _). by vm_compute.
Defined.

End registry.

(** ** The result cache *)

Section cache.
Import TTLCache CacheSpec.

Lemma currsize_cons it its : currsize_of (it :: its) = size it + currsize_of its.
Proof. reflexivity. Qed.

Lemma currsize_app its1 its2 :
  currsize_of (its1 ++ its2) = currsize_of its1 + currsize_of its2.
Proof.
  induction its1 as [|it its1 IH]; [done|].
  rewrite <- app_comm_cons, !currsize_cons, IH. lia.
Qed.

Lemma currsize_nonneg its :
  Forall (fun it => 0 ≤ size it) its → 0 ≤ currsize_of its.
Proof.
  induction 1; [done|]. rewrite currsize_cons. lia.
Qed.

Lemma currsize_filter (P : item → bool) its :
  Forall (fun it => 0 ≤ size it) its →
  currsize_of (List.filter P its) ≤ currsize_of its.
Proof.
  induction 1 as [|it its Hit _ IH]; [done|].
  cbn [List.filter]. destruct (P it); rewrite !currsize_cons; lia.
Qed.

Lemma sized_filter (P : item → bool) its :
  Forall (fun it => 0 ≤ size it) its →
  Forall (fun it => 0 ≤ size it) (List.filter P its).
Proof.
  induction 1 as [|it its Hit _ IH]; cbn; [done|].
  destruct (P it); [by constructor|done].
Qed.

(** Taking an item out frees at least its size. *)
Lemma currsize_remove k its it :
  Forall (fun it => 0 ≤ size it) its →
  find k its = Some it →
  currsize_of (remove k its) + size it ≤ currsize_of its.
Proof.
  unfold find, remove.
  induction 1 as [|it' its Hit' Hall IH]; [done|].
  cbn [List.find List.filter].
  destruct (has_key k it') eqn:Hk; cbn [negb]; rewrite !currsize_cons.
  - intros [= ->].
    pose proof (currsize_filter (fun it => negb (has_key k it)) its Hall). lia.
  - intros Hfind. specialize (IH Hfind). lia.
Qed.

Lemma make_room_fits maxsize sz its its' :
  make_room maxsize sz its = Some its' →
  currsize_of its' + sz ≤ maxsize.
Proof.
  revert its'. induction its as [|it its IH]; intros its'; cbn [make_room].
  - destruct (Z.gtb_spec (currsize_of [] + sz) maxsize); [done|].
    by intros [= <-].
  - destruct (Z.gtb_spec (currsize_of (it :: its) + sz) maxsize); [apply IH|].
    by intros [= <-].
Qed.

Lemma make_room_sized maxsize sz its its' :
  Forall (fun it => 0 ≤ size it) its →
  make_room maxsize sz its = Some its' →
  Forall (fun it => 0 ≤ size it) its'.
Proof.
  intros Hall. revert its'.
  induction Hall as [|it its Hit Hall IH]; intros its'; cbn [make_room].
  - destruct (_ >? _); [done|]. by intros [= <-].
  - destruct (_ >? _); [apply IH|]. intros [= <-]. by constructor.
Qed.

(** A value that is not larger than the capacity always finds room:
    [popitem] is never called on an empty cache. *)
Lemma make_room_total maxsize sz its :
  sz ≤ maxsize → is_Some (make_room maxsize sz its).
Proof.
  intros Hsz. induction its as [|it its IH]; cbn [make_room].
  - destruct (Z.gtb_spec (currsize_of [] + sz) maxsize) as [Hgt|]; [|eauto].
    cbn in Hgt. lia.
  - destruct (_ >? _); eauto.
Qed.

(** A value larger than the capacity is refused: [ValueError] is raised
    once the expired items are gone, and nothing is stored. *)
Lemma setitem_too_large c now k v sz :
  maxsize c < sz →
  setitem c now k v sz = (Raised ValueError, expire now c).
Proof.
  intros Hsz. unfold setitem. cbn [maxsize expire].
  destruct (Z.gtb_spec sz (maxsize c)); [done|lia].
Qed.

(** What a value that fits leaves in the cache. *)
Lemma setitem_fits c now k v sz :
  sz ≤ maxsize c →
  ∃ its',
    setitem c now k v sz =
      (Returned (), Make (maxsize c) (ttl c)
                         (remove k its' ++ [Item k v sz (now + ttl c)])).
Proof.
  intros Hsz. unfold setitem. cbn [maxsize ttl expire items].
  destruct (Z.gtb_spec sz (maxsize c)); [lia|].
  set (its := List.filter (live now) (items c)).
  destruct (match find k its with Some old => size old <? sz | None => true end).
  - destruct (make_room_total (maxsize c) sz its Hsz) as [its' ->]. eauto.
  - eauto.
Qed.

Lemma setitem_within_capacity c now k v sz :
  0 ≤ sz → sized c → within_capacity c →
  within_capacity (setitem c now k v sz).2 ∧ sized (setitem c now k v sz).2.
Proof.
  unfold within_capacity, sized, currsize. intros Hsz Hsized Hcap.
  unfold setitem. cbn [maxsize ttl expire items].
  set (its := List.filter (live now) (items c)).
  assert (Forall (fun it => 0 ≤ size it) its) as Hits by by apply sized_filter.
  assert (currsize_of its ≤ maxsize c) as Hcur
    by (pose proof (currsize_filter (live now) _ Hsized); fold its in H; lia).
  destruct (Z.gtb_spec sz (maxsize c)) as [Hbig|Hfit]; [done|].
  destruct (find k its) as [old|] eqn:Hold;
    [destruct (Z.ltb_spec (size old) sz) as [Hgrow|Hsame]|];
    try (destruct (make_room (maxsize c) sz its) as [its'|] eqn:Hroom;
         [pose proof (make_room_fits _ _ _ _ Hroom);
          pose proof (make_room_sized _ _ _ _ Hits Hroom) as Hits';
          pose proof (currsize_filter (fun it => negb (has_key k it)) _ Hits');
          cbn [snd items maxsize]; rewrite currsize_app; unfold remove;
          split; [cbn; lia|];
          apply Forall_app; split; [by apply sized_filter|by repeat constructor]
         |cbn; split; [lia|constructor]]).
  pose proof (currsize_remove k its old Hits Hold).
  cbn [snd items maxsize]. rewrite currsize_app. split; [cbn; lia|].
  apply Forall_app; split; [by apply sized_filter|by repeat constructor].
Qed.

Lemma get_within_capacity c now k :
  sized c → within_capacity c →
  within_capacity (TTLCache.get c now k).2 ∧ sized (TTLCache.get c now k).2.
Proof.
  unfold within_capacity, sized, currsize, TTLCache.get. intros Hsized Hcap.
  destruct (find k (items c)) as [it|] eqn:Hit; [|done].
  destruct (live now it); [|done].
  pose proof (currsize_remove k _ it Hsized Hit).
  cbn [snd items maxsize]. rewrite currsize_app. split; [cbn; lia|].
  apply Forall_app; split; [by apply sized_filter|].
  constructor; [|done].
  unfold find in Hit. apply find_some in Hit as [Hin _].
  apply list_elem_of_In in Hin. by eapply Forall_forall in Hsized.
Qed.

Lemma find_inserted k its it :
  has_key k it = true → find k (remove k its ++ [it]) = Some it.
Proof.
  intros Hk. unfold find, remove.
  induction its as [|it' its IH]; cbn; [by rewrite Hk|].
  destruct (has_key k it') eqn:Hk'; cbn; [done|]. by rewrite Hk'.
Qed.

Section manager.
Context {V : Type} (json_dumps : V → option string) (json_loads : string → option V).

Lemma get_size_nonneg value : 0 ≤ CacheManager._get_size value.
Proof. unfold CacheManager._get_size. lia. Qed.

Lemma init_within_capacity CACHE_SIZE_MB CACHE_TTL_DAYS :
  0 ≤ CACHE_SIZE_MB →
  within_capacity (CacheManager.init CACHE_SIZE_MB CACHE_TTL_DAYS)
  ∧ sized (CacheManager.init CACHE_SIZE_MB CACHE_TTL_DAYS).
Proof.
  intros Hmb. split; [|constructor].
  unfold within_capacity, currsize. cbn. lia.
Qed.

Lemma manager_set_within_capacity c now k v :
  sized c → within_capacity c →
  within_capacity (CacheManager.set json_dumps c now k v).2
  ∧ sized (CacheManager.set json_dumps c now k v).2.
Proof.
  intros Hsized Hcap. unfold CacheManager.set.
  destruct (json_dumps v) as [serialized|]; [|done].
  pose proof (setitem_within_capacity c now k serialized _
                (get_size_nonneg serialized) Hsized Hcap) as Hset.
  by destruct (setitem c now k serialized _) as [[] c'].
Qed.

Lemma manager_get_within_capacity c now k :
  sized c → within_capacity c →
  within_capacity (CacheManager.get json_loads c now k).2
  ∧ sized (CacheManager.get json_loads c now k).2.
Proof.
  intros Hsized Hcap. unfold CacheManager.get.
  pose proof (get_within_capacity c now k Hsized Hcap) as Hget.
  destruct (TTLCache.get c now k) as [[value|] c']; [|done].
  by destruct (negb _).
Qed.

Lemma manager_set_too_large c now k v serialized :
  json_dumps v = Some serialized →
  maxsize c < CacheManager._get_size serialized →
  CacheManager.set json_dumps c now k v = (false, expire now c).
Proof.
  intros Hdumps Hbig. unfold CacheManager.set.
  by rewrite Hdumps, setitem_too_large.
Qed.

Lemma manager_set_then_get c now now' k v serialized :
  json_dumps v = Some serialized →
  serialized ≠ EmptyString →
  CacheManager._get_size serialized ≤ maxsize c →
  now' < now + ttl c →
  (CacheManager.set json_dumps c now k v).1 = true
  ∧ (CacheManager.get json_loads (CacheManager.set json_dumps c now k v).2 now' k).1
    = json_loads serialized.
Proof.
  intros Hdumps Hne Hfit Hlive. unfold CacheManager.set. rewrite Hdumps.
  destruct (setitem_fits c now k serialized _ Hfit) as [its' ->].
  split; [done|]. cbn [snd]. unfold CacheManager.get, TTLCache.get.
  cbn [items maxsize ttl]. rewrite find_inserted by apply String.eqb_refl.
  unfold live. cbn [expires value].
  destruct (Z.ltb_spec now' (now + ttl c)); [|lia].
  by apply String.eqb_neq in Hne as ->.
Qed.

(** The capacity is the configured one, and the tracked size is within
    it, all along. *)
Lemma served_within_capacity CACHE_SIZE_MB CACHE_TTL_DAYS c :
  0 ≤ CACHE_SIZE_MB →
  served json_dumps json_loads CACHE_SIZE_MB CACHE_TTL_DAYS c →
  within_capacity c ∧ sized c.
Proof.
  intros Hmb. induction 1 as [|c now k v _ [Hcap Hsized]|c now k _ [Hcap Hsized]].
  - by apply init_within_capacity.
  - by apply manager_set_within_capacity.
  - by apply manager_get_within_capacity.
Qed.

Lemma setitem_maxsize c now k v sz : maxsize (setitem c now k v sz).2 = maxsize c.
Proof.
  destruct (Z.lt_ge_cases (maxsize c) sz) as [Hbig|Hfit].
  - by rewrite setitem_too_large.
  - by destruct (setitem_fits c now k v sz) as [its' ->]; [lia|].
Qed.

Lemma served_maxsize CACHE_SIZE_MB CACHE_TTL_DAYS c :
  served json_dumps json_loads CACHE_SIZE_MB CACHE_TTL_DAYS c →
  maxsize c = CACHE_SIZE_MB * 1024 * 1024.
Proof.
  induction 1 as [|c now k v _ IH|c now k _ IH]; [done|..].
  - unfold CacheManager.set. destruct (json_dumps v) as [serialized|]; [|done].
    pose proof (setitem_maxsize c now k serialized
                  (CacheManager._get_size serialized)) as Hmax.
    destruct (setitem c now k serialized _) as [[] c']; cbn [snd] in *; congruence.
  - unfold CacheManager.get, TTLCache.get.
    destruct (find k (items c)) as [it|]; [|done].
    destruct (live now it); [|done]. by destruct (negb _).
Qed.

(** C2, as the code has it.  On a cache of a non-negative configured
    size, a value whose serialized size exceeds the capacity is not
    stored: [set] raises nothing, returns [False] and leaves the cache
    with its unexpired entries.  Whatever was set or looked up before,
    and after this [set] too, the tracked aggregate size is within the
    capacity. *)
Theorem oversized_value_is_refused CACHE_SIZE_MB CACHE_TTL_DAYS c now k v :
  0 ≤ CACHE_SIZE_MB →
  served json_dumps json_loads CACHE_SIZE_MB CACHE_TTL_DAYS c →
  maxsize c = CACHE_SIZE_MB * 1024 * 1024
  ∧ currsize c ≤ maxsize c
  ∧ currsize (CacheManager.set json_dumps c now k v).2 ≤ maxsize c
  ∧ (∀ serialized,
       json_dumps v = Some serialized →
       maxsize c < CacheManager._get_size serialized →
       CacheManager.set json_dumps c now k v = (false, expire now c)).
Proof.
  intros Hmb Hserved.
  split; [by eapply served_maxsize|].
  split; [by eapply served_within_capacity|].
  split; [|intros serialized; apply manager_set_too_large].
  pose proof (served_set _ _ _ _ _ now k v Hserved) as Hset.
  destruct (served_within_capacity _ _ _ Hmb Hset) as [Hcap _].
  unfold within_capacity in Hcap.
  by rewrite (served_maxsize _ _ _ Hset), <- (served_maxsize _ _ _ Hserved) in Hcap.
Qed.

(** C4, as the code has it.  A payload that [json] gives back as it was,
    and whose serialized text fits in the capacity, is returned by a
    [get] that follows its [set] before its time to live has passed. *)
Theorem set_then_get_round_trip c now now' k v serialized :
  json_dumps v = Some serialized →
  json_loads serialized = Some v →
  serialized ≠ EmptyString →
  CacheManager._get_size serialized ≤ maxsize c →
  now' < now + ttl c →
  (CacheManager.set json_dumps c now k v).1 = true
  ∧ (CacheManager.get json_loads (CacheManager.set json_dumps c now k v).2 now' k).1
    = Some v.
Proof.
  intros Hdumps Hloads Hne Hfit Hlive. rewrite <- Hloads.
  by apply manager_set_then_get.
Qed.

End manager.

End cache.

(** *** The cache at work, and a payload that is too large for it *)

Section cache_examples.
Import TTLCache CacheSpec.
Local Open Scope string_scope.
Local Open Scope Z_scope.

Lemma length_filler n : String.length (filler n) = n.
Proof. induction n; cbn; congruence. Qed.

Lemma escape_filler n : Example.escape (filler n) = Some (filler n).
Proof.
  induction n as [|n IH]; [done|].
  cbn [filler Example.escape]. by rewrite IH.
Qed.

Lemma dumps_filler n :
  Example.dumps (JDict [("documentation", JStr (filler n))]) = Some (payload_text n).
Proof.
  cbn [Example.dumps]. unfold Example.quote. rewrite escape_filler.
  change (Example.escape "documentation") with (Some "documentation").
  unfold mbind, option_bind. cbn [String.concat].
  unfold payload_text, closing, opening.
  repeat (rewrite ?append_assoc, ?append_cons, ?append_nil).
  reflexivity.
Qed.

Lemma length_payload_text n : String.length (payload_text n) = (n + 21)%nat.
Proof.
  unfold payload_text. rewrite !length_append, length_filler.
  change (String.length opening) with 19%nat.
  change (String.length closing) with 2%nat. lia.
Qed.

Lemma string_body_filler n rest :
  Example.string_body (filler n +:+ String Example.dquote rest)
  = Some (filler n, rest).
Proof.
  induction n as [|n IH]; [done|].
  cbn [filler]. rewrite append_cons. cbn [Example.string_body].
  by rewrite IH.
Qed.

Lemma loads_payload_text n :
  Example.loads (payload_text n)
  = Some (JDict [("documentation", JStr (filler n))]).
Proof.
  unfold Example.loads. rewrite length_payload_text.
  replace (2 * (n + 21) + 2)%nat with (S (S (S (2 * n + 41)))) by lia.
  unfold payload_text, closing, opening.
  repeat (rewrite ?append_assoc, ?append_cons, ?append_nil).
  cbn -[Nat.mul Nat.add]. rewrite string_body_filler.
  reflexivity.
Qed.

(** The payload of 512 MiB is larger than the default capacity. *)
Lemma huge_payload_size :
  512 * 1024 * 1024
  < CacheManager._get_size (payload_text (Z.to_nat (512 * 1024 * 1024))).
Proof.
  unfold CacheManager._get_size. rewrite length_payload_text.
  rewrite Nat2Z.inj_add, Z2Nat.id by lia. lia.
Qed.

Lemma huge_payload_refused_by_default k :
  CacheManager.set Example.dumps (CacheManager.init 512 14) 0 k huge_payload
  = (false, CacheManager.init 512 14).
Proof.
  erewrite manager_set_too_large;
    [reflexivity|apply dumps_filler|apply huge_payload_size].
Qed.

(** The amended C2 on the default cache, after a first payload was
    stored. *)
Lemma oversized_value_example :
  let v := JDict [("tokens_saved", JInt 0)] in
  let c := (CacheManager.set Example.dumps (CacheManager.init 512 14) 0 "first" v).2 in
  maxsize c = 512 * 1024 * 1024
  ∧ currsize c ≤ maxsize c
  ∧ currsize (CacheManager.set Example.dumps c 1 "k" huge_payload).2 ≤ maxsize c
  ∧ (∀ serialized,
       Example.dumps huge_payload = Some serialized →
       maxsize c < CacheManager._get_size serialized →
       CacheManager.set Example.dumps c 1 "k" huge_payload = (false, expire 1 c)).
Proof.
  intros v c.
  apply (oversized_value_is_refused Example.dumps Example.loads 512 14 c 1 "k"
           huge_payload).
  - lia.
  - apply served_set, served_init.
Defined.

(** Against C2 as the specification words it: on the default cache, the
    [set] of a payload larger than the capacity returns [False] and the
    cache stays empty. *)
Lemma oversized_value_is_not_stored :
  let c := CacheManager.init 512 14 in
  let serialized := payload_text (Z.to_nat (512 * 1024 * 1024)) in
  Example.dumps huge_payload = Some serialized
  ∧ maxsize c < CacheManager._get_size serialized
  ∧ (CacheManager.set Example.dumps c 0 "k" huge_payload).1 = false
  ∧ items (CacheManager.set Example.dumps c 0 "k" huge_payload).2 = [].
Proof.
  intros c serialized. split; [apply dumps_filler|].
  split; [apply huge_payload_size|].
  unfold c. by rewrite huge_payload_refused_by_default.
Qed.

(** The amended C4 on the default cache. *)
Lemma round_trip_example :
  let c := CacheManager.init 512 14 in
  let v := JDict [("symbols", JList []); ("tokens_saved", JInt 37)] in
  (CacheManager.set Example.dumps c 0 "k" v).1 = true
  ∧ (CacheManager.get Example.loads
       (CacheManager.set Example.dumps c 0 "k" v).2 0 "k").1 = Some v.
Proof.
  intros c v.
  eapply (set_then_get_round_trip Example.dumps Example.loads c 0 0 "k" v).
  - reflexivity.
  - reflexivity.
  - discriminate.
  - vm_compute. discriminate.
  - reflexivity.
Defined.

(** Against C4 as the specification words it: a payload that [json]
    gives back as it was, and that a [get] following its [set] on the
    default cache does not return. *)
Lemma round_trip_fails_when_too_large :
  let c := CacheManager.init 512 14 in
  let serialized := payload_text (Z.to_nat (512 * 1024 * 1024)) in
  Example.dumps huge_payload = Some serialized
  ∧ Example.loads serialized = Some huge_payload
  ∧ (CacheManager.get Example.loads
       (CacheManager.set Example.dumps c 0 "k" huge_payload).2 0 "k").1 = None.
Proof.
  intros c serialized. split; [apply dumps_filler|].
  split; [apply loads_payload_text|].
  unfold c. by rewrite huge_payload_refused_by_default.
Qed.

End cache_examples.

(** ** Requests and replies of a session *)

Section session.
Import LSPServerProcess SessionSpec.
Local Open Scope string_scope.
Local Open Scope list_scope.

(** The loop drops the frames that bear another identifier and stops at
    the first that bears its own. *)
Lemma read_reply_skips msg_id before kv after :
  Forall (passed_over msg_id) before →
  eq_int (id_of kv) msg_id = true →
  read_reply msg_id (before ++ Message (JDict kv) :: after)
  = (delivered kv, after).
Proof.
  intros Hbefore Hid.
  induction Hbefore as [|f before (kv' & -> & Hother) _ IH].
  - cbn [app read_reply]. fold (id_of kv). rewrite Hid. unfold delivered.
    by destruct (assoc "error" kv).
  - cbn [app read_reply]. fold (id_of kv'). by rewrite Hother.
Qed.

(** Whatever the loop returns comes from a reply that bears its
    identifier, and from the first one. *)
Lemma read_reply_returned msg_id frames result rest :
  read_reply msg_id frames = (Returned result, rest) →
  ∃ before kv,
    frames = before ++ Message (JDict kv) :: rest
    ∧ Forall (passed_over msg_id) before
    ∧ eq_int (id_of kv) msg_id = true
    ∧ assoc "error" kv = None
    ∧ result = default JNull (assoc "result" kv).
Proof.
  induction frames as [|f frames IH]; [done|].
  cbn [read_reply]. destruct f as [msg|]; [|done].
  destruct msg as [| | | | |kv]; try done. fold (id_of kv).
  destruct (eq_int (id_of kv) msg_id) eqn:Hid.
  - destruct (assoc "error" kv) eqn:Herr; [done|]. intros [= <- <-].
    exists [], kv. by repeat split.
  - intros (before & kv' & -> & Hbefore & Hrest)%IH.
    exists (Message (JDict kv) :: before), kv'. split; [done|].
    split; [|done]. constructor; [|done]. by exists kv.
Qed.

Lemma request_unfold method params s sent frames :
  writer s = Some sent → reader s = Some frames →
  _request method params s =
    ((read_reply (_request_id s + 1) frames).1,
     Make (language s) (command s) (process s)
          (Some (read_reply (_request_id s + 1) frames).2)
          (Some (sent ++ [JDict [("jsonrpc", JStr "2.0");
                                 ("id", JInt (_request_id s + 1));
                                 ("method", JStr method); ("params", params)]]))
          (_request_id s + 1)).
Proof.
  intros Hw Hr. unfold _request, _get_next_id, write, read_until. step_prog.
  unfold with_request_id, with_writer, with_reader.
  cbn [writer reader language command process _request_id]. rewrite Hw.
  cbn [writer reader language command process _request_id]. rewrite Hr.
  by destruct (read_reply (_request_id s + 1) frames).
Qed.

(** C5, as the code has it.  A request gets what the first reply that
    bears its identifier carries, whatever replies bearing other
    identifiers come before it; these are read and dropped, and the
    frames after the reply are left to the next request.  And a request
    that returns has got the result of a reply that bears its
    identifier. *)
Theorem request_gets_reply_with_its_id method params s sent before kv after :
  writer s = Some sent →
  reader s = Some (before ++ Message (JDict kv) :: after) →
  Forall (passed_over (_request_id s + 1)) before →
  eq_int (id_of kv) (_request_id s + 1) = true →
  (_request method params s).1 = delivered kv
  ∧ reader (_request method params s).2 = Some after
  ∧ _request_id (_request method params s).2 = _request_id s + 1
  ∧ (∀ s0 sent0 frames result s',
       writer s0 = Some sent0 → reader s0 = Some frames →
       _request method params s0 = (Returned result, s') →
       ∃ before' kv',
         frames = before' ++ Message (JDict kv') :: default [] (reader s')
         ∧ Forall (passed_over (_request_id s0 + 1)) before'
         ∧ eq_int (id_of kv') (_request_id s0 + 1) = true
         ∧ assoc "error" kv' = None
         ∧ result = default JNull (assoc "result" kv')).
Proof.
  intros Hw Hr Hbefore Hid.
  rewrite (request_unfold _ _ _ _ _ Hw Hr), read_reply_skips by done.
  repeat split. intros s0 sent0 frames result s' Hw0 Hr0.
  rewrite (request_unfold _ _ _ _ _ Hw0 Hr0).
  destruct (read_reply (_request_id s0 + 1) frames) as [r rest] eqn:Hread.
  cbn [fst snd]. intros [= -> <-]. cbn [reader default].
  by apply read_reply_returned.
Qed.

(** A reply that arrives behind two messages for other identifiers. *)
Lemma request_example :
  let s := listening [Example.reply 7 (JStr "late");
                      Message (JDict [("method", JStr "window/logMessage")]);
                      Example.reply 1 (JStr "mine");
                      Example.reply 2 (JStr "next")] in
  (_request "shutdown" (JDict []) s).1 = Returned (JStr "mine")
  ∧ reader (_request "shutdown" (JDict []) s).2
    = Some [Example.reply 2 (JStr "next")]
  ∧ _request_id (_request "shutdown" (JDict []) s).2 = 1.
Proof.
  intros s.
  destruct (request_gets_reply_with_its_id "shutdown" (JDict []) s []
              [Example.reply 7 (JStr "late");
               Message (JDict [("method", JStr "window/logMessage")])]
              [("jsonrpc", JStr "2.0"); ("id", JInt 1); ("result", JStr "mine")]
              [Example.reply 2 (JStr "next")])
    as (H1 & H2 & H3 & _).
  - reflexivity.
  - reflexivity.
  - repeat constructor; eexists; (split; [reflexivity|reflexivity]).
  - reflexivity.
  - exact (conj H1 (conj H2 H3)).
Defined.

(** Against C5 as the specification words it: the replies to two
    requests arrive in the other order; the first request drops the
    reply to the second, which then waits for ever. *)
Lemma reply_out_of_order_is_lost :
  let replies := [Example.reply 2 (JStr "second"); Example.reply 1 (JStr "first")] in
  In (Example.reply 2 (JStr "second")) replies
  ∧ (two_requests (listening replies)).1
    = (Returned (JStr "first"), Hangs).
Proof. split; [by left|reflexivity]. Qed.

End session.

(** ** Symbols of a file and [find_symbol] *)

Section symbols.
Import ContextManager.
Local Open Scope string_scope.
Local Open Scope list_scope.

(** The registry works on the sessions only. *)
Lemma on_lsp_frame {A} (m : prog LSPClient.t A) s :
  cache (on_lsp m s).2 = cache s ∧ fs (on_lsp m s).2 = fs s.
Proof. unfold on_lsp. by destruct (m (lsp_client s)). Qed.

(** A file [_find_symbol_file] returns was read, so it exists. *)
Lemma found_file_exists W files symbol_name file_path :
  _find_symbol_file W files symbol_name = Some file_path →
  path_exists files file_path = true.
Proof.
  unfold _find_symbol_file. intros [_ Hdef]%find_some.
  unfold defines, read_text in Hdef. unfold path_exists.
  apply bool_decide_eq_true_2.
  destruct (files !! file_path) as [[content|]|]; [eauto|done..].
Qed.

(** What [_extract_symbols] returns: the symbols selected from the reply
    of the backend or, when there is none and the file exists, the
    stub. *)
Lemma extract_symbols_returned W file_path symbol_name scope s symbols s' :
  _extract_symbols W file_path symbol_name scope s = (Returned symbols, s') →
  ∃ raw listed selected,
    on_lsp (LSPClient.get_symbols W file_path) s = (Returned raw, s')
    ∧ py_iter raw = Returned listed
    ∧ select_symbols scope symbol_name file_path listed = Returned selected
    ∧ symbols =
        match selected with
        | [] => if path_exists (fs s) file_path
                then [stub_symbol symbol_name file_path] else []
        | _ => selected
        end.
Proof.
  unfold _extract_symbols. step_prog.
  pose proof (on_lsp_frame (LSPClient.get_symbols W file_path) s) as [_ Hfs].
  destruct (on_lsp (LSPClient.get_symbols W file_path) s) as [[raw| |] s1];
    [|done..].
  cbn [snd] in Hfs.
  destruct (py_iter raw) as [listed| |] eqn:Hlisted; [|done..].
  destruct (select_symbols scope symbol_name file_path listed)
    as [selected| |] eqn:Hselected; [|done..].
  rewrite Hfs. intros Hret. exists raw, listed, selected.
  destruct selected as [|sym selected].
  - destruct (path_exists (fs s) file_path); injection Hret as <- <-; done.
  - by injection Hret as <- <-.
Qed.

(** C10. When [find_symbol] returns with [found] true, the list of
    locations is not empty and the message gives its length; the
    locations are those of the symbols of the backend whose name
    contains the one looked for or, when there is none, the single
    location of the stub of kind Unknown. *)
Theorem find_symbol_found_has_locations W symbol_name s r s' :
  find_symbol W symbol_name s = (Returned r, s') →
  FindResult.found r = true →
  FindResult.locations r ≠ []
  ∧ FindResult.message r
    = "Found " +:+ str_of_int (len (FindResult.locations r))
      +:+ " occurrence(s) of '" +:+ symbol_name +:+ "'"
  ∧ ∃ file_path raw listed selected,
      _find_symbol_file W (fs s) symbol_name = Some file_path
      ∧ on_lsp (LSPClient.get_symbols W file_path) s = (Returned raw, s')
      ∧ py_iter raw = Returned listed
      ∧ select_symbols "function" symbol_name file_path listed = Returned selected
      ∧ FindResult.locations r =
          match selected with
          | [] => [location_of (stub_symbol symbol_name file_path)]
          | _ => map location_of selected
          end
      ∧ Location.kind (location_of (stub_symbol symbol_name file_path)) = "Unknown".
Proof.
  unfold find_symbol. step_prog.
  destruct (_find_symbol_file W (fs s) symbol_name) as [file_path|] eqn:Hfile;
    [|by intros [= <- <-]].
  destruct (String.eqb file_path EmptyString); [by intros [= <- <-]|].
  destruct (_extract_symbols W file_path symbol_name "function" s)
    as [[symbols| |] s1] eqn:Hsym; [|done..].
  intros [= <- <-] _. cbn [FindResult.locations FindResult.message].
  apply extract_symbols_returned in Hsym
    as (raw & listed & selected & Hraw & Hlisted & Hselected & ->).
  rewrite (found_file_exists _ _ _ _ Hfile).
  split; [by destruct selected|]. split; [done|].
  exists file_path, raw, listed, selected. by destruct selected.
Qed.

(** [authenticate] in the example workspace: the backend knows it. *)
Lemma find_symbol_example :
  let W := Example.world [Example.reply 1 JNull;
                          Example.reply 2 (JList [Example.symbol_at "UserService" 5 1;
                                                  Example.symbol_at "authenticate" 6 2])] in
  let r := FindResult.Make "authenticate" true
             "Found 1 occurrence(s) of 'authenticate'"
             [Location.Make "/w/svc.py" (JInt 2) "Method"
                            (JStr "authenticate") (JStr EmptyString)] in
  (find_symbol W "authenticate" Example.fresh).1 = Returned r
  ∧ FindResult.locations r ≠ []
  ∧ FindResult.message r = "Found 1 occurrence(s) of 'authenticate'".
Proof.
  intros W r. split; [reflexivity|].
  assert (find_symbol W "authenticate" Example.fresh
          = (Returned r, (find_symbol W "authenticate" Example.fresh).2))
    as Hrun by reflexivity.
  destruct (find_symbol_found_has_locations W _ _ _ _ Hrun eq_refl)
    as (Hne & Hmsg & _).
  by split.
Defined.

End symbols.

(** ** References *)

Section references.
Import ContextManager ReferenceSpec.
Local Open Scope string_scope.
Local Open Scope list_scope.









End references.

(** ** [get_context]: the saving reported and the key of the cache *)

Section context.
Import ContextManager ContextSpec.
Local Open Scope string_scope.
Local Open Scope list_scope.
Local Open Scope Z_scope.


Lemma assembled_saves symbols dependencies references raw_tokens optimized_tokens :
  saves (assembled symbols dependencies references raw_tokens optimized_tokens).
Proof. eexists. split; [reflexivity|]. lia. Qed.





(** C9. The key of the cache does not tell every request from every
    other: the query [a:b] with the scope [c] and the query [a] with the
    scope [b:c] have the same key for any token budget, whatever the
    hash function, since the text that is hashed is the same.  Whatever
    payload the cache holds for the one is returned for the other; in
    the world of the two modules, the request for [a] then gets the
    payload computed for [b], not the one it gets on a fresh
    aggregator. *)
Theorem cache_key_collision :
  ("a:b", "c") ≠ ("a", "b:c")
  ∧ (∀ W max_tokens,
       _generate_cache_key W "a:b" "c" max_tokens
       = _generate_cache_key W "a" "b:c" max_tokens)
  ∧ (∀ W now_lookup now_store max_tokens s cached c',
       CacheManager.get (json_loads W) (cache s) now_lookup
         (_generate_cache_key W "a:b" "c" max_tokens) = (Some cached, c') →
       truthy cached = true →
       get_context W now_lookup now_store "a" "b:c" max_tokens s
       = (Returned cached, Make (lsp_client s) c' (fs s)))
  ∧ (let W := two_modules_world in
     let first := get_context W 0 0 "a:b" "c" 4096 two_modules_start in
     first.1 = Returned (stub_payload "b" 0)
     ∧ (get_context W 1 1 "a" "b:c" 4096 first.2).1 = Returned (stub_payload "b" 0)
     ∧ (get_context W 1 1 "a" "b:c" 4096 two_modules_start).1
       = Returned (stub_payload "a" 0)
     ∧ stub_payload "b" 0 ≠ stub_payload "a" 0).
Proof.
  split; [done|]. split; [done|]. split.
  - intros W now_lookup now_store max_tokens s cached c' Hget Htruthy.
    unfold get_context, cache_get. step_prog.
    change (_generate_cache_key W "a" "b:c" max_tokens)
      with (_generate_cache_key W "a:b" "c" max_tokens).
    by rewrite Hget, Htruthy.
  - cbv zeta. split; [by vm_compute|]. split; [by vm_compute|].
    split; [by vm_compute|done].
Qed.

(** *** The cache of an aggregator stays sound *)

Lemma make_room_forall (P : TTLCache.item → Prop) maxsize sz its its' :
  Forall P its → TTLCache.make_room maxsize sz its = Some its' → Forall P its'.
Proof.
  intros Hall. revert its'.
  induction Hall as [|it its Hit Hall IH]; intros its'; cbn [TTLCache.make_room].
  - destruct (_ >? _); [done|]. by intros [= <-].
  - destruct (_ >? _); [apply IH|]. intros [= <-]. by constructor.
Qed.

Lemma filter_forall {A} (P : A → Prop) (f : A → bool) l :
  Forall P l → Forall P (List.filter f l).
Proof.
  induction 1 as [|x l Hx _ IH]; cbn; [done|].
  destruct (f x); [by constructor|done].
Qed.

Lemma setitem_forall (P : TTLCache.item → Prop) c now k v sz :
  Forall P (TTLCache.items c) →
  P (TTLCache.Item k v sz (now + TTLCache.ttl c)) →
  Forall P (TTLCache.items (TTLCache.setitem c now k v sz).2).
Proof.
  intros Hall Hnew. unfold TTLCache.setitem.
  cbn [TTLCache.maxsize TTLCache.ttl TTLCache.expire TTLCache.items].
  pose proof (filter_forall P (TTLCache.live now) _ Hall) as Hlive.
  destruct (sz >? TTLCache.maxsize c); [done|].
  set (its := List.filter (TTLCache.live now) (TTLCache.items c)) in *.
  assert (∀ its', Forall P its' →
            Forall P (TTLCache.remove k its' ++ [TTLCache.Item k v sz (now + TTLCache.ttl c)]))
    as Hstore.
  { intros its' Hits'. apply Forall_app. split; [by apply filter_forall|].
    by repeat constructor. }
  destruct (match TTLCache.find k its with
            | Some old => TTLCache.size old <? sz
            | None => true
            end); [|by apply Hstore].
  destruct (TTLCache.make_room (TTLCache.maxsize c) sz its) as [its'|] eqn:Hroom;
    [|constructor].
  apply Hstore. by eapply make_room_forall.
Qed.

Lemma get_forall (P : TTLCache.item → Prop) c now k :
  Forall P (TTLCache.items c) →
  Forall P (TTLCache.items (TTLCache.get c now k).2).
Proof.
  intros Hall. unfold TTLCache.get.
  destruct (TTLCache.find k (TTLCache.items c)) as [it|] eqn:Hfind; [|done].
  destruct (TTLCache.live now it); [|done].
  cbn [snd TTLCache.items]. apply Forall_app. split; [by apply filter_forall|].
  constructor; [|done].
  apply find_some in Hfind as [Hin%list_elem_of_In _].
  by eapply Forall_forall in Hall.
Qed.

Lemma sound_after_get W c now k :
  cache_sound W c → cache_sound W (CacheManager.get (json_loads W) c now k).2.
Proof.
  intros Hsound. unfold CacheManager.get.
  pose proof (get_forall _ c now k Hsound) as Hget.
  destruct (TTLCache.get c now k) as [[value|] c']; [|done].
  by destruct (negb _).
Qed.

Lemma sound_after_set W c now k payload :
  faithful W → saves payload → cache_sound W c →
  cache_sound W (CacheManager.set (json_dumps W) c now k payload).2.
Proof.
  intros Hfaithful Hsaves Hsound. unfold CacheManager.set.
  destruct (json_dumps W payload) as [serialized|] eqn:Hdumps; [|done].
  pose proof (setitem_forall _ c now k serialized
                (CacheManager._get_size serialized) Hsound) as Hset.
  destruct (TTLCache.setitem c now k serialized _) as [[] c'];
    apply Hset; intros decoded Hloads _;
    by rewrite (Hfaithful _ _ _ Hdumps Hloads).
Qed.

(** The extraction steps work on the sessions only. *)
Lemma extract_symbols_frame W file_path symbol_name scope s :
  cache (_extract_symbols W file_path symbol_name scope s).2 = cache s
  ∧ fs (_extract_symbols W file_path symbol_name scope s).2 = fs s.
Proof.
  unfold _extract_symbols. step_prog.
  pose proof (on_lsp_frame (LSPClient.get_symbols W file_path) s) as Hframe.
  destruct (on_lsp _ s) as [[raw| |] s1]; [|done..].
  destruct (py_iter raw); [|done..].
  destruct (select_symbols _ _ _ _) as [[|? ?]| |]; try done.
  by destruct (path_exists _ _).
Qed.

Lemma references_of_frame W symbol s :
  cache (references_of W symbol s).2 = cache s
  ∧ fs (references_of W symbol s).2 = fs s.
Proof.
  unfold references_of. step_prog.
  pose proof (on_lsp_frame (LSPClient.get_references W (location_file symbol)
                              (location_line symbol) (JInt 0)) s) as Hframe.
  destruct (on_lsp _ s) as [[raw| |] s1]; [|done..].
  destruct (py_first5 raw); [|done..].
  by destruct (collect_references _ _ _).
Qed.

Lemma extract_references_frame W symbols s :
  cache (_extract_references W symbols s).2 = cache s
  ∧ fs (_extract_references W symbols s).2 = fs s.
Proof.
  revert s. induction symbols as [|symbol rest IH]; intros s; [done|].
  cbn [_extract_references]. step_prog.
  pose proof (references_of_frame W symbol s) as [Hc Hf].
  destruct (references_of W symbol s) as [[mine| |] s1]; [|done..].
  cbn [snd] in *. pose proof (IH s1) as [Hc' Hf'].
  destruct (_extract_references W rest s1) as [[others| |] s2];
    cbn [snd] in *; split; congruence.
Qed.

Lemma compute_context_sound W now cache_key query scope s :
  faithful W → cache_sound W (cache s) →
  cache_sound W (cache (compute_context W now cache_key query scope s).2).
Proof.
  intros Hfaithful Hsound. unfold compute_context. step_prog.
  destruct (_parse_query W (fs s) query) as [parsed_file symbol_name].
  set (file_path := match parsed_file with
                    | Some f => if String.eqb f EmptyString then _ else Some f
                    | None => _
                    end).
  destruct file_path as [file_path|]; step_prog; [|done].
  destruct (String.eqb file_path EmptyString); step_prog; [done|].
  pose proof (extract_symbols_frame W file_path symbol_name scope s) as [Hc1 _].
  destruct (_extract_symbols W file_path symbol_name scope s)
    as [[symbols| |] s1]; cbn [snd] in *; [|by rewrite Hc1..].
  unfold _extract_dependencies. step_prog.
  pose proof (extract_references_frame W symbols s1) as [Hc2 _].
  destruct (_extract_references W symbols s1) as [[references| |] s2];
    cbn [snd] in *; [|by rewrite Hc2, Hc1..].
  destruct (_count_tokens W symbols _ references) as [optimized| |];
    cbn [snd]; [|by rewrite Hc2, Hc1..].
  unfold cache_set.
  match goal with
  | |- context [CacheManager.set _ _ _ _ ?payload] =>
      pose proof (sound_after_set W (cache s2) now cache_key payload Hfaithful) as Hset
  end.
  destruct (CacheManager.set _ _ _ _ _) as [stored c]. cbn [snd cache] in *.
  apply Hset; [apply assembled_saves|by rewrite Hc2, Hc1].
Qed.

Lemma get_context_sound W now_lookup now_store query scope max_tokens s :
  faithful W → cache_sound W (cache s) →
  cache_sound W (cache (get_context W now_lookup now_store query scope max_tokens s).2).
Proof.
  intros Hfaithful Hsound. unfold get_context, cache_get. step_prog.
  pose proof (sound_after_get W (cache s) now_lookup
                (_generate_cache_key W query scope max_tokens) Hsound) as Hget.
  destruct (CacheManager.get _ _ _ _) as [cached c']. cbn [snd] in Hget.
  destruct cached as [cached|]; [destruct (truthy cached); [done|]|];
    by apply compute_context_sound.
Qed.

Lemma find_symbol_frame W symbol_name s :
  cache (find_symbol W symbol_name s).2 = cache s.
Proof.
  unfold find_symbol. step_prog.
  destruct (_find_symbol_file W (fs s) symbol_name) as [file_path|]; [|done].
  destruct (String.eqb file_path EmptyString); [done|].
  pose proof (extract_symbols_frame W file_path symbol_name "function" s) as [Hc _].
  by destruct (_extract_symbols W file_path symbol_name "function" s) as [[] s1].
Qed.

Lemma apply_edit_frame W file_path edits s :
  cache (apply_edit W file_path edits s).2 = cache s.
Proof.
  unfold apply_edit. step_prog.
  destruct (negb _); [done|].
  destruct (read_text (fs s) file_path); [|done..].
  by destruct (run_edits _ _).
Qed.

(** With a faithful [json], every payload the cache of an aggregator
    holds reports a saving that is not negative, whatever was asked of
    the aggregator before: the hypothesis of C8 holds all along. *)
Lemma runs_cache_sound W s : faithful W → runs W s → cache_sound W (cache s).
Proof.
  intros Hfaithful.
  induction 1 as [lsp mb days files|s t1 t2 q sc m _ IH|s name _ IH|s path edits _ IH].
  - constructor.
  - by apply get_context_sound.
  - by rewrite find_symbol_frame.
  - by rewrite apply_edit_frame.
Qed.

End context.

(** ** The codec of the example world

[Example.loads] reads back what [Example.dumps] wrote: the example
world is one where [json] is faithful. *)

Section example_codec.
Import ContextManager ContextSpec CodecSpec.
Local Open Scope string_scope.
Local Open Scope list_scope.
Local Open Scope Z_scope.

Ltac norm_append := repeat (rewrite ?append_assoc, ?append_cons, ?append_nil).

Lemma prefix_nil s : String.prefix EmptyString s = true.
Proof. by destruct s. Qed.

(** *** Strings *)

Lemma string_body_escape s e rest :
  Example.escape s = Some e →
  Example.string_body (e +:+ String Example.dquote rest) = Some (s, rest).
Proof.
  revert e. induction s as [|c s IH]; intros e.
  - intros [= <-]. rewrite append_nil. cbn [Example.string_body].
    by rewrite Ascii.eqb_refl.
  - cbn [Example.escape]. destruct (Example.printable c) eqn:Hc; [|done].
    destruct (Example.escape s) as [r|]; [|done]. cbn [mbind option_bind].
    specialize (IH r eq_refl).
    destruct (Ascii.eqb c Example.dquote) eqn:Hq;
      [|destruct (Ascii.eqb c "\") eqn:Hb]; cbn [orb]; intros [= <-];
      rewrite ?append_cons; cbn [Example.string_body].
    + change (Ascii.eqb "\" Example.dquote) with false. cbn iota.
      rewrite Ascii.eqb_refl, Hq. cbn [orb]. by rewrite IH.
    + change (Ascii.eqb "\" Example.dquote) with false. cbn iota.
      rewrite Ascii.eqb_refl, Hq, Hb. cbn [orb]. by rewrite IH.
    + rewrite Hq, Hb. by rewrite IH.
Qed.

Lemma quote_body s q rest :
  Example.quote s = Some q →
  ∃ e, q +:+ rest = String Example.dquote (e +:+ String Example.dquote rest)
       ∧ Example.string_body (e +:+ String Example.dquote rest) = Some (s, rest).
Proof.
  unfold Example.quote. destruct (Example.escape s) as [e|] eqn:He; [|done].
  intros [= <-]. exists e. split; [|by apply string_body_escape].
  by norm_append.
Qed.

(** *** Numbers *)

Lemma digit_char y :
  (y < 10)%N → Example.digit (pretty_N_char y) = Some (Z.of_N y).
Proof.
  intros Hy.
  assert (y = 0 ∨ y = 1 ∨ y = 2 ∨ y = 3 ∨ y = 4 ∨ y = 5 ∨ y = 6 ∨ y = 7
          ∨ y = 8 ∨ y = 9)%N as Hcases by lia.
  repeat (destruct Hcases as [->|Hcases]; [reflexivity|]). by subst.
Qed.

Lemma pretty_go_append x s rest :
  pretty_N_go x s +:+ rest = pretty_N_go x (s +:+ rest).
Proof.
  revert s. induction (N.lt_wf_0 x) as [x _ IH]; intros s.
  assert (x = 0 ∨ 0 < x)%N as [->|Hx] by lia; [by rewrite !pretty_N_go_0|].
  rewrite (pretty_N_go_step x s), (pretty_N_go_step x (s +:+ rest)) by done.
  rewrite IH by by apply N.div_lt. by rewrite append_cons.
Qed.

(** Reading the digits of [x] multiplies what was read before by a
    power of ten and adds [x]. *)
Lemma digits_pretty_go x :
  ∃ p, ∀ acc s,
    Example.digits acc (pretty_N_go x s) = Example.digits (acc * p + Z.of_N x) s.
Proof.
  induction (N.lt_wf_0 x) as [x _ IH].
  assert (x = 0 ∨ 0 < x)%N as [->|Hx] by lia.
  - exists 1. intros acc s. rewrite pretty_N_go_0. f_equal. lia.
  - destruct (IH (x `div` 10)%N) as [p Hp]; [by apply N.div_lt|].
    exists (10 * p). intros acc s. rewrite pretty_N_go_step, Hp by done.
    cbn [Example.digits]. rewrite digit_char by by apply N.mod_lt.
    f_equal. rewrite (N.div_mod x 10) at 3 by done. lia.
Qed.

Lemma digits_stop n rest :
  terminated rest → Example.digits n rest = (n, rest).
Proof. destruct rest as [|c rest]; [done|]. cbn. by intros ->. Qed.

Lemma pretty_go_head x s :
  (∃ c s' d, s = String c s' ∧ Example.digit c = Some d) →
  ∃ c s' d, pretty_N_go x s = String c s' ∧ Example.digit c = Some d.
Proof.
  revert s. induction (N.lt_wf_0 x) as [x _ IH]; intros s Hs.
  assert (x = 0 ∨ 0 < x)%N as [->|Hx] by lia; [by rewrite pretty_N_go_0|].
  rewrite pretty_N_go_step by done. apply IH; [by apply N.div_lt|].
  eexists _, _, _. split; [done|]. by apply digit_char, N.mod_lt.
Qed.

Lemma pretty_pos_head p rest :
  ∃ c s' d, pretty_N_go (N.pos p) rest = String c s' ∧ Example.digit c = Some d.
Proof.
  rewrite pretty_N_go_step by done. apply pretty_go_head.
  eexists _, _, _. split; [done|]. by apply digit_char, N.mod_lt.
Qed.

Lemma number_digit c s' d :
  Example.digit c = Some d →
  Example.number (String c s')
  = (let '(n, rest) := Example.digits d s' in Some (n, rest)).
Proof.
  intros Hd. destruct c as [[] [] [] [] [] [] [] []];
    cbv in Hd; try discriminate; by injection Hd as <-.
Qed.

Lemma value_digit fuel c s' d :
  Example.digit c = Some d →
  Example.value (S fuel) (String c s')
  = ('(n, rest) ← Example.number (String c s'); Some (JInt n, rest)).
Proof.
  intros Hd. destruct c as [[] [] [] [] [] [] [] []];
    cbv in Hd; try discriminate; reflexivity.
Qed.

Lemma digits_from_zero c s' d :
  Example.digit c = Some d →
  Example.digits d s' = Example.digits 0 (String c s').
Proof. intros Hd. cbn [Example.digits]. by rewrite Hd. Qed.

Lemma number_pos p rest :
  terminated rest →
  ∃ c s' d,
    pretty_N_go (N.pos p) rest = String c s'
    ∧ Example.digit c = Some d
    ∧ Example.digits d s' = (Z.pos p, rest).
Proof.
  intros Hrest. destruct (pretty_pos_head p rest) as (c & s' & d & Heq & Hd).
  exists c, s', d. split; [done|]. split; [done|].
  rewrite (digits_from_zero c s' d Hd), <- Heq.
  destruct (digits_pretty_go (N.pos p)) as [pw Hpw]. rewrite Hpw.
  by rewrite digits_stop.
Qed.

Lemma value_int fuel n rest :
  terminated rest →
  Example.value (S fuel) (str_of_int n +:+ rest) = Some (JInt n, rest).
Proof.
  intros Hrest. unfold str_of_int, pretty, pretty_Z. destruct n as [|p|p].
  - change ("0" +:+ rest) with (String "0" rest).
    rewrite (value_digit fuel "0" rest 0) by done.
    rewrite (number_digit "0" rest 0) by done. by rewrite digits_stop.
  - unfold pretty, pretty_positive, pretty, pretty_N.
    rewrite decide_False by done. rewrite pretty_go_append, append_nil.
    destruct (number_pos p rest Hrest) as (c & s' & d & -> & Hd & Hdig).
    rewrite (value_digit fuel c s' d Hd), (number_digit c s' d Hd).
    by rewrite Hdig.
  - unfold pretty, pretty_positive, pretty, pretty_N.
    rewrite decide_False by done. rewrite append_assoc, pretty_go_append, append_nil.
    destruct (number_pos p rest Hrest) as (c & s' & d & -> & Hd & Hdig).
    change ("-" +:+ String c s') with (String "-" (String c s')).
    change (Example.value (S fuel) (String "-" (String c s')))
      with ('(n, rest) ← Example.number (String "-" (String c s'));
            Some (JInt n, rest)).
    change (Example.number (String "-" (String c s')))
      with (d ← Example.digit c;
            let '(n, rest) := Example.digits d s' in Some (- n, rest)).
    rewrite Hd. cbn [mbind option_bind]. by rewrite Hdig.
Qed.

(** *** Lists and dictionaries *)

Lemma dumps_list l :
  Example.dumps (JList l)
  = (inner ← mapM Example.dumps l;
     Some ("[" +:+ String.concat ", " inner +:+ "]")).
Proof. reflexivity. Qed.

Lemma dumps_dict kv :
  Example.dumps (JDict kv)
  = (inner ← mapM dumps_member kv;
     Some ("{" +:+ String.concat ", " inner +:+ "}")).
Proof.
  cbn [Example.dumps]. f_equal.
  induction kv as [|[k x] kv IH]; [done|]. cbn [mapM]. rewrite <- IH.
  unfold dumps_member. cbn [fst snd].
  destruct (Example.quote k); [|done]. cbn [mbind option_bind].
  by destruct (Example.dumps x).
Qed.

Lemma digit_opens c d : Example.digit c = Some d → opens c = true.
Proof.
  intros Hd. destruct c as [[] [] [] [] [] [] [] []];
    cbv in Hd; try discriminate; reflexivity.
Qed.

(** The text of a value starts with a character that tells what the
    value is. *)
Lemma dumps_opened v s : Example.dumps v = Some s → opened s.
Proof.
  destruct v as [|[]|n|str|l|kv].
  - by intros [= <-].
  - by intros [= <-].
  - by intros [= <-].
  - intros [= <-]. unfold str_of_int, pretty, pretty_Z. destruct n as [|p|p]; [done|..].
    + unfold pretty, pretty_positive, pretty, pretty_N. rewrite decide_False by done.
      destruct (pretty_pos_head p EmptyString) as (c & s' & d & -> & Hd).
      by eapply digit_opens.
    + done.
  - cbn [Example.dumps]. unfold Example.quote.
    destruct (Example.escape str); [|done]. by intros [= <-].
  - rewrite dumps_list. destruct (mapM Example.dumps l); [|done]. by intros [= <-].
  - rewrite dumps_dict. destruct (mapM dumps_member kv); [|done]. by intros [= <-].
Qed.

Lemma value_space fuel s :
  Example.value fuel (String " " s) = Example.value fuel s.
Proof. by destruct fuel. Qed.

Lemma elements_space fuel s :
  Example.elements fuel (String " " s) = Example.elements fuel s.
Proof. destruct fuel; [done|]. cbn [Example.elements]. by rewrite value_space. Qed.

Lemma members_space fuel s :
  Example.members fuel (String " " s) = Example.members fuel s.
Proof. by destruct fuel. Qed.

Lemma value_list_open fuel c s :
  opens c = true →
  Example.value (S fuel) (String "[" (String c s))
  = ('(l, rest) ← Example.elements fuel (String c s); Some (JList l, rest)).
Proof.
  intros Hc. destruct c as [[] [] [] [] [] [] [] []];
    cbv in Hc; try discriminate; reflexivity.
Qed.

Lemma value_dict_open fuel c s :
  opens c = true →
  Example.value (S fuel) (String "{" (String c s))
  = ('(kv, rest) ← Example.members fuel (String c s); Some (JDict kv, rest)).
Proof.
  intros Hc. destruct c as [[] [] [] [] [] [] [] []];
    cbv in Hc; try discriminate; reflexivity.
Qed.

Lemma skip_ws_comma s : Example.skip_ws (String "," s) = String "," s.
Proof. reflexivity. Qed.
Lemma skip_ws_colon s : Example.skip_ws (String ":" s) = String ":" s.
Proof. reflexivity. Qed.
Lemma skip_ws_bracket s : Example.skip_ws (String "]" s) = String "]" s.
Proof. reflexivity. Qed.
Lemma skip_ws_brace s : Example.skip_ws (String "}" s) = String "}" s.
Proof. reflexivity. Qed.
Lemma skip_ws_dquote s :
  Example.skip_ws (String Example.dquote s) = String Example.dquote s.
Proof. reflexivity. Qed.

Lemma elements_read l inner fuel rest :
  l ≠ [] → Forall reads l →
  Forall2 (fun x sx => Example.dumps x = Some sx) l inner →
  (length l + list_sum (map weight l) ≤ fuel)%nat →
  Example.elements fuel (String.concat ", " inner +:+ "]" +:+ rest) = Some (l, rest).
Proof.
  intros Hne Hreads Hdumps. revert fuel Hne Hreads.
  induction Hdumps as [|x sx l inner Hx Hrest IH]; intros fuel Hne Hreads Hfuel; [done|].
  apply Forall_cons in Hreads as [Hread Hreads].
  cbn [length map list_sum] in Hfuel.
  cbn [length map list_sum fold_right] in Hfuel.
  destruct fuel as [|fuel]; [lia|]. cbn [Example.elements].
  destruct Hrest as [|y sy l inner Hy Hrest].
  - cbn [String.concat]. norm_append.
    rewrite (Hread fuel sx (String "]" rest) Hx); [|lia|reflexivity].
    cbn [mbind option_bind]. by rewrite skip_ws_bracket.
  - change (String.concat ", " (sx :: sy :: inner))
      with (sx +:+ ", " +:+ String.concat ", " (sy :: inner)).
    norm_append.
    rewrite (Hread fuel sx _ Hx); [|lia|reflexivity].
    cbn [mbind option_bind]. rewrite skip_ws_comma, elements_space.
    specialize (IH fuel). revert IH. norm_append. intros ->; [done..|].
    cbn [length map list_sum fold_right] in *. lia.
Qed.

Lemma dumps_member_text k x m :
  dumps_member (k, x) = Some m →
  ∃ q sx, Example.quote k = Some q ∧ Example.dumps x = Some sx
          ∧ m = q +:+ ": " +:+ sx.
Proof.
  unfold dumps_member. cbn [fst snd].
  destruct (Example.quote k) as [q|]; [|done].
  destruct (Example.dumps x) as [sx|]; [|done].
  intros [= <-]. by exists q, sx.
Qed.

Lemma members_read kv inner fuel rest :
  kv ≠ [] → Forall (fun p => reads (snd p)) kv →
  Forall2 (fun p m => dumps_member p = Some m) kv inner →
  (length kv + list_sum (map (fun p => weight (snd p)) kv) ≤ fuel)%nat →
  Example.members fuel (String.concat ", " inner +:+ "}" +:+ rest) = Some (kv, rest).
Proof.
  intros Hne Hreads Hdumps. revert fuel Hne Hreads.
  induction Hdumps as [|[k x] m kv inner Hm Hrest IH]; intros fuel Hne Hreads Hfuel;
    [done|].
  apply Forall_cons in Hreads as [Hread Hreads]. cbn [snd] in Hread.
  cbn [length map list_sum fold_right snd] in Hfuel.
  destruct fuel as [|fuel]; [lia|].
  apply dumps_member_text in Hm as (q & sx & Hq & Hx & ->).
  destruct Hrest as [|[k' y] m' kv inner Hm' Hrest].
  - cbn [String.concat]. norm_append.
    destruct (quote_body k q (String ":" (String " " (sx +:+ String "}" rest))) Hq)
      as (e & -> & Hbody).
    cbn [Example.members]. rewrite skip_ws_dquote, Ascii.eqb_refl, Hbody.
    cbn [mbind option_bind]. rewrite skip_ws_colon, value_space.
    rewrite (Hread fuel sx (String "}" rest) Hx); [|lia|reflexivity].
    cbn [mbind option_bind]. by rewrite skip_ws_brace.
  - change (String.concat ", " ((q +:+ ": " +:+ sx) :: m' :: inner))
      with ((q +:+ ": " +:+ sx) +:+ ", " +:+ String.concat ", " (m' :: inner)).
    norm_append.
    destruct (quote_body k q
                (String ":" (String " " (sx +:+ String "," (String " "
                   (String.concat ", " (m' :: inner) +:+ String "}" rest))))) Hq)
      as (e & -> & Hbody).
    cbn [Example.members]. rewrite skip_ws_dquote, Ascii.eqb_refl, Hbody.
    cbn [mbind option_bind]. rewrite skip_ws_colon, value_space.
    rewrite (Hread fuel sx _ Hx); [|lia|reflexivity].
    cbn [mbind option_bind]. rewrite skip_ws_comma, members_space.
    specialize (IH fuel). revert IH. norm_append. intros ->; [done..|].
    cbn [length map list_sum fold_right snd] in *. lia.
Qed.

Lemma literal_read word v rest :
  Example.literal word v (word +:+ rest) = Some (v, rest).
Proof.
  unfold Example.literal.
  assert (String.prefix word (word +:+ rest) = true
          ∧ drop_str (String.length word) (word +:+ rest) = rest) as [-> ->]; [|done].
  induction word as [|c word [IH1 IH2]]; [by rewrite append_nil, prefix_nil|].
  rewrite append_cons. cbn [String.prefix String.length drop_str].
  by destruct (ascii_dec c c).
Qed.

Lemma value_dquote fuel s :
  Example.value (S fuel) (String Example.dquote s)
  = ('(body, rest) ← Example.string_body s; Some (JStr body, rest)).
Proof. reflexivity. Qed.

Lemma list_sum_elem {A} (f : A → nat) x l :
  x ∈ l → (f x ≤ list_sum (map f l))%nat.
Proof.
  induction 1 as [x l|x y l _ IH]; cbn [map list_sum fold_right]; [lia|].
  unfold list_sum in IH. lia.
Qed.

(** *** Every value is read back from its text *)

Lemma concat_opened sx inner :
  opened sx →
  ∃ c body, String.concat ", " (sx :: inner) = String c body ∧ opens c = true.
Proof.
  destruct sx as [|c sx]; [done|]. intros Hc.
  destruct inner as [|sy inner]; [by exists c, sx|].
  exists c, (sx +:+ ", " +:+ String.concat ", " (sy :: inner)). by split.
Qed.

Lemma member_opened k x m : dumps_member (k, x) = Some m → opened m.
Proof.
  intros (q & sx & Hq & _ & ->)%dumps_member_text.
  unfold Example.quote in Hq. destruct (Example.escape k); [|done].
  by injection Hq as <-.
Qed.

Lemma reads_all n v : (weight v ≤ n)%nat → reads v.
Proof.
  revert v. induction n as [|n IH]; intros v Hn; [destruct v; cbn in Hn; lia|].
  intros fuel s rest Hs Hfuel Hrest.
  destruct fuel as [|fuel]; [destruct v; cbn in Hfuel; lia|].
  destruct v as [|[]|i|str|l|kv].
  - injection Hs as <-.
    change (Example.literal "null" JNull ("null" +:+ rest) = Some (JNull, rest)).
    apply literal_read.
  - injection Hs as <-.
    change (Example.literal "true" (JBool true) ("true" +:+ rest)
            = Some (JBool true, rest)).
    apply literal_read.
  - injection Hs as <-.
    change (Example.literal "false" (JBool false) ("false" +:+ rest)
            = Some (JBool false, rest)).
    apply literal_read.
  - injection Hs as <-. by apply value_int.
  - cbn [Example.dumps] in Hs.
    destruct (quote_body str s rest Hs) as (e & -> & Hbody).
    by rewrite value_dquote, Hbody.
  - rewrite dumps_list in Hs.
    destruct (mapM Example.dumps l) as [inner|] eqn:Hinner; [|done].
    injection Hs as <-. apply mapM_Some in Hinner.
    cbn [weight] in Hn, Hfuel.
    destruct Hinner as [|x sx l inner Hx Hinner]; [done|].
    assert (Forall reads (x :: l)) as Hreads.
    { apply Forall_forall. intros y Hy. apply IH.
      pose proof (list_sum_elem weight y _ Hy). lia. }
    pose proof (elements_read (x :: l) (sx :: inner) fuel rest) as Hread.
    destruct (concat_opened sx inner (dumps_opened _ _ Hx)) as (c & body & Hconcat & Hc).
    revert Hread. rewrite Hconcat. norm_append. intros Hread.
    rewrite value_list_open by done.
    rewrite Hread; [done|done|done| |lia]. by constructor.
  - rewrite dumps_dict in Hs.
    destruct (mapM dumps_member kv) as [inner|] eqn:Hinner; [|done].
    injection Hs as <-. apply mapM_Some in Hinner.
    cbn [weight] in Hn, Hfuel.
    destruct Hinner as [|[k x] m kv inner Hm Hinner]; [done|].
    assert (Forall (fun p => reads (snd p)) ((k, x) :: kv)) as Hreads.
    { apply Forall_forall. intros p Hp. apply IH.
      pose proof (list_sum_elem (fun p => weight (snd p)) p _ Hp). cbn beta in *. lia. }
    pose proof (members_read ((k, x) :: kv) (m :: inner) fuel rest) as Hread.
    destruct (concat_opened m inner (member_opened _ _ _ Hm)) as (c & body & Hconcat & Hc).
    revert Hread. rewrite Hconcat. norm_append. intros Hread.
    rewrite value_dict_open by done.
    rewrite Hread; [done|done|done| |lia]. by constructor.
Qed.

(** *** The text is long enough to pay for the reading *)

Lemma opened_length s : opened s → (1 ≤ String.length s)%nat.
Proof. destruct s; [done|]. cbn. lia. Qed.

Lemma append_empty s : s +:+ EmptyString = s.
Proof. induction s as [|c s IH]; [done|]. by rewrite append_cons, IH. Qed.

Lemma concat_length {A} (f : A → nat) l inner :
  Forall2 (fun x sx => (f x ≤ String.length sx)%nat) l inner → l ≠ [] →
  (length l + list_sum (map f l) ≤ S (String.length (String.concat ", " inner)))%nat.
Proof.
  induction 1 as [|x sx l inner Hx Hrest IH]; [done|]. intros _.
  destruct Hrest as [|y sy l inner Hy Hrest].
  - cbn. lia.
  - change (String.concat ", " (sx :: sy :: inner))
      with (sx +:+ ", " +:+ String.concat ", " (sy :: inner)).
    rewrite !length_append.
    specialize (IH ltac:(done)).
    cbn [length map list_sum fold_right String.length] in *. lia.
Qed.

Lemma weight_length n v s :
  (weight v ≤ n)%nat → Example.dumps v = Some s → (weight v ≤ String.length s)%nat.
Proof.
  revert v s. induction n as [|n IH]; intros v s Hn Hs; [destruct v; cbn in Hn; lia|].
  pose proof (opened_length _ (dumps_opened _ _ Hs)) as Hone.
  destruct v as [| | | |l|kv]; try done.
  - rewrite dumps_list in Hs.
    destruct (mapM Example.dumps l) as [inner|] eqn:Hinner; [|done].
    injection Hs as <-. apply mapM_Some in Hinner.
    cbn [weight] in Hn |- *.
    destruct (decide (l = [])) as [->|Hl]; [cbn; lia|].
    pose proof (concat_length weight l inner) as Hlen.
    rewrite !length_append. cbn [String.length].
    enough ((length l + list_sum (map weight l)
             ≤ S (String.length (String.concat ", " inner)))%nat) by lia.
    apply Hlen; [|done].
    clear Hlen Hone Hl. induction Hinner as [|x sx l inner Hx Hinner IHl]; [done|].
    constructor.
    + apply IH; [|done]. cbn [length map list_sum fold_right] in Hn. unfold list_sum in *. lia.
    + apply IHl. cbn [length map list_sum fold_right] in Hn |- *. unfold list_sum in *. lia.
  - rewrite dumps_dict in Hs.
    destruct (mapM dumps_member kv) as [inner|] eqn:Hinner; [|done].
    injection Hs as <-. apply mapM_Some in Hinner.
    cbn [weight] in Hn |- *.
    destruct (decide (kv = [])) as [->|Hl]; [cbn; lia|].
    pose proof (concat_length (fun p => weight (snd p)) kv inner) as Hlen.
    rewrite !length_append. cbn [String.length].
    enough ((length kv + list_sum (map (fun p => weight (snd p)) kv)
             ≤ S (String.length (String.concat ", " inner)))%nat) by lia.
    apply Hlen; [|done].
    clear Hlen Hone Hl. induction Hinner as [|[k x] m kv inner Hm Hinner IHl]; [done|].
    constructor.
    + apply dumps_member_text in Hm as (q & sx & _ & Hx & ->).
      rewrite !length_append. cbn [snd].
      enough ((weight x ≤ String.length sx)%nat) by lia.
      apply IH; [|done]. cbn [length map list_sum fold_right snd] in Hn. unfold list_sum in *. lia.
    + apply IHl. cbn [length map list_sum fold_right] in Hn |- *. unfold list_sum in *. lia.
Qed.

(** *** The codec of the example world gives back what it was given *)

Lemma loads_dumps v s : Example.dumps v = Some s → Example.loads s = Some v.
Proof.
  intros Hs. unfold Example.loads.
  pose proof (weight_length _ v s (le_n _) Hs) as Hlen.
  pose proof (reads_all _ v (le_n _) (2 * String.length s + 2)%nat s EmptyString Hs) as Hread.
  rewrite append_empty in Hread. rewrite Hread; [done|lia|done].
Qed.

Lemma example_world_faithful script : faithful (Example.world script).
Proof.
  intros payload serialized decoded Hdumps Hloads.
  cbn [json_dumps json_loads Example.world] in Hdumps, Hloads.
  rewrite (loads_dumps _ _ Hdumps) in Hloads. by injection Hloads.
Qed.

(** The cache of an aggregator of the example world is sound all
    along: the hypothesis of C8 holds there in every state. *)
Lemma example_runs_cache_sound script s :
  runs (Example.world script) s → cache_sound (Example.world script) (cache s).
Proof. apply runs_cache_sound, example_world_faithful. Qed.

End example_codec.

(** * Further properties of the code *)

(** ** [apply_edit]: what the edits make of the file *)

Section edits_by_line.
Import ContextManager EditSpec LineSpec.
Local Open Scope string_scope.
Local Open Scope list_scope.
Local Open Scope Z_scope.

Lemma edit_at_cons_other e rest i :
  line_of e ≠ i → edit_at (e :: rest) i = edit_at rest i.
Proof.
  intros Hne. unfold edit_at. cbn [List.find].
  by destruct (Z.eqb_spec (line_of e) i).
Qed.

Lemma edit_at_cons_same e rest : edit_at (e :: rest) (line_of e) = Some e.
Proof. unfold edit_at. cbn [List.find]. by rewrite Z.eqb_refl. Qed.

Lemma edit_at_below edits i :
  Forall (fun e => line_of e < i) edits → edit_at edits i = None.
Proof.
  induction 1 as [|e rest He _ IH]; [done|].
  rewrite edit_at_cons_other by lia. done.
Qed.

(** Edits that name lines before [i] leave the lines from [i] on as
    they are. *)
Lemma rewritten_below edits i lines :
  Forall (fun e => line_of e < i) edits → rewritten edits i lines = lines.
Proof.
  revert i. induction lines as [|l lines IH]; intros i Hall; cbn [rewritten].
  - by rewrite edit_at_below.
  - rewrite edit_at_below by done. cbn [rendered app]. f_equal.
    apply IH. eapply Forall_impl; [exact Hall|]. cbn. lia.
Qed.

Lemma line_of_shifted i e : line_of (shifted i e) = line_of e - i.
Proof. reflexivity. Qed.

Lemma type_of_shifted i e : type_of (shifted i e) = type_of e.
Proof. reflexivity. Qed.

Lemma text_of_shifted i e : text_of (shifted i e) = text_of e.
Proof. reflexivity. Qed.

Lemma len_cons {A} (x : A) l : len (x :: l) = len l + 1.
Proof. unfold len. cbn [length]. lia. Qed.

Lemma apply_one_effective lines n e :
  apply_one (lines, n) e
  = if effective (len lines) e then (acted lines e, n + 1) else (lines, n).
Proof.
  rewrite apply_one_unfold. unfold effective, acted.
  destruct (String.eqb_spec (type_of e) "replace") as [Ht|_].
  { rewrite !Ht. cbn [andb String.eqb Ascii.eqb Bool.eqb].
    by destruct (0 <=? line_of e), (line_of e <? len lines). }
  cbn [andb].
  destruct (String.eqb_spec (type_of e) "insert") as [_|_].
  { by destruct (0 <=? line_of e), (line_of e <=? len lines). }
  destruct (String.eqb_spec (type_of e) "delete") as [_|_].
  { by destruct (0 <=? line_of e), (line_of e <? len lines). }
  by rewrite andb_false_r.
Qed.

Lemma effective_shifted (l : string) (lines : list string) e :
  0 < line_of e →
  effective (len lines) (shifted 1 e) = effective (len (l :: lines)) e.
Proof.
  intros Hpos. unfold effective.
  rewrite line_of_shifted, type_of_shifted, len_cons.
  destruct (Z.leb_spec 0 (line_of e - 1)), (Z.leb_spec 0 (line_of e)); try lia.
  cbn [andb].
  destruct (String.eqb (type_of e) "replace").
  { destruct (Z.ltb_spec (line_of e - 1) (len lines)),
             (Z.ltb_spec (line_of e) (len lines + 1)); lia || done. }
  destruct (String.eqb (type_of e) "insert").
  { destruct (Z.leb_spec (line_of e - 1) (len lines)),
             (Z.leb_spec (line_of e) (len lines + 1)); lia || done. }
  destruct (String.eqb (type_of e) "delete"); [|done].
  destruct (Z.ltb_spec (line_of e - 1) (len lines)),
           (Z.ltb_spec (line_of e) (len lines + 1)); lia || done.
Qed.

Lemma acted_shifted (l : string) (lines : list string) e :
  0 < line_of e → acted (l :: lines) e = l :: acted lines (shifted 1 e).
Proof.
  intros Hpos. unfold acted.
  rewrite line_of_shifted, type_of_shifted, text_of_shifted.
  assert (Z.to_nat (line_of e) = S (Z.to_nat (line_of e - 1))) as -> by lia.
  destruct (String.eqb (type_of e) "replace"); [done|].
  by destruct (String.eqb (type_of e) "insert").
Qed.

(** An edit that names a line after the first acts on the lines after
    the first. *)
Lemma apply_one_tail (l : string) (lines : list string) n e :
  0 < line_of e →
  apply_one (l :: lines, n) e
  = (l :: (apply_one (lines, n) (shifted 1 e)).1,
     (apply_one (lines, n) (shifted 1 e)).2).
Proof.
  intros Hpos. rewrite !apply_one_effective.
  rewrite (effective_shifted l), acted_shifted by done.
  by destruct (effective _ e).
Qed.

(** An edit has one type. *)
Lemma type_cases e :
  (String.eqb (type_of e) "replace" = true
   ∧ String.eqb (type_of e) "insert" = false
   ∧ String.eqb (type_of e) "delete" = false)
  ∨ (String.eqb (type_of e) "replace" = false
     ∧ String.eqb (type_of e) "insert" = true
     ∧ String.eqb (type_of e) "delete" = false)
  ∨ (String.eqb (type_of e) "replace" = false
     ∧ String.eqb (type_of e) "insert" = false
     ∧ String.eqb (type_of e) "delete" = true)
  ∨ (String.eqb (type_of e) "replace" = false
     ∧ String.eqb (type_of e) "insert" = false
     ∧ String.eqb (type_of e) "delete" = false).
Proof.
  destruct (String.eqb_spec (type_of e) "replace") as [->|_]; [by left|].
  destruct (String.eqb_spec (type_of e) "insert") as [->|_]; [right; by left|].
  destruct (String.eqb_spec (type_of e) "delete") as [_|_]; [right; right; by left|].
  right; right; by right.
Qed.

Ltac by_type e :=
  destruct (type_cases e) as [(Hr & Hi & Hd)|[(Hr & Hi & Hd)|[(Hr & Hi & Hd)|(Hr & Hi & Hd)]]];
  rewrite ?Hr, ?Hi, ?Hd.

Lemma shifted_shifted i e : shifted 1 (shifted i e) = shifted (i + 1) e.
Proof. unfold shifted, line_of. cbn. do 2 f_equal. lia. Qed.

Lemma shifted_zero lines n e :
  apply_one (lines, n) (shifted 0 e) = apply_one (lines, n) e.
Proof.
  rewrite !apply_one_effective. unfold effective, acted.
  by rewrite line_of_shifted, type_of_shifted, text_of_shifted, Z.sub_0_r.
Qed.

(** The edit that names the highest line first, then the others: the
    same as all of them met line by line. *)
Lemma rewritten_head e rest i post k :
  Forall (fun r => line_of r < line_of e) rest →
  rewritten rest i (apply_one (post, k) (shifted i e)).1
  = rewritten (e :: rest) i post.
Proof.
  intros Hall. revert i k. induction post as [|l post IH]; intros i k.
  - rewrite apply_one_effective. cbn [rewritten].
    unfold effective, acted.
    rewrite line_of_shifted, type_of_shifted, text_of_shifted.
    change (len (@nil string)) with 0.
    destruct (Z.eq_dec (line_of e) i) as [<-|Hne].
    + rewrite edit_at_cons_same, Z.sub_diag. unfold appended.
      assert (edit_at rest (line_of e) = None) as Hnone by by apply edit_at_below.
      assert (edit_at rest (line_of e + 1) = None) as Hnone1.
      { apply edit_at_below. eapply Forall_impl; [exact Hall|]. cbn. lia. }
      by_type e; cbn; rewrite ?Hnone, ?Hnone1, ?rewritten_below by done; done.
    + rewrite edit_at_cons_other by done.
      by_type e; cbn [andb fst].
      * destruct (0 <=? _), (_ <? 0); done.
      * destruct (Z.leb_spec 0 (line_of e - i)), (Z.leb_spec (line_of e - i) 0);
          try done. lia.
      * destruct (0 <=? _), (_ <? 0); done.
      * by rewrite andb_false_r.
  - destruct (Z.lt_trichotomy (line_of e) i) as [Hlt|[<-|Hgt]].
    + (* the edit names a line before these *)
      assert (effective (len (l :: post)) (shifted i e) = false) as Heff.
      { unfold effective. rewrite line_of_shifted.
        destruct (Z.leb_spec 0 (line_of e - i)); [lia|done]. }
      rewrite apply_one_effective, Heff. cbn [fst].
      rewrite !rewritten_below; [done| |].
      * constructor; [done|]. eapply Forall_impl; [exact Hall|]. cbn. lia.
      * eapply Forall_impl; [exact Hall|]. cbn. lia.
    + (* the edit names the first of these *)
      rewrite apply_one_effective. cbn [rewritten].
      rewrite edit_at_cons_same.
      rewrite (rewritten_below (e :: rest) (line_of e + 1)).
      2:{ constructor; [lia|]. eapply Forall_impl; [exact Hall|]. cbn. lia. }
      rewrite rewritten_below by done.
      unfold effective, acted, rendered.
      rewrite line_of_shifted, type_of_shifted, text_of_shifted, Z.sub_diag, len_cons.
      assert ((0 <=? 0) = true) as -> by done.
      assert ((0 <? len post + 1) = true) as ->.
      { apply Z.ltb_lt. unfold len. lia. }
      assert ((0 <=? len post + 1) = true) as ->.
      { apply Z.leb_le. unfold len. lia. }
      by_type e; done.
    + (* the edit names a later line *)
      rewrite apply_one_tail by (rewrite line_of_shifted; lia).
      cbn [fst rewritten]. rewrite shifted_shifted.
      rewrite edit_at_cons_other by lia. f_equal. apply IH.
Qed.

Lemma loop_rewrites edits lines k :
  strictly_descending edits →
  (foldl apply_one (lines, k) edits).1 = rewritten edits 0 lines.
Proof.
  intros Hsorted. revert lines k.
  induction Hsorted as [|e rest _ IH Hall]; intros lines k.
  - cbn [foldl fst]. symmetry. by apply rewritten_below.
  - cbn [foldl]. destruct (apply_one (lines, k) e) as [lines1 k1] eqn:Hone.
    rewrite IH. rewrite <- (rewritten_head e rest 0 lines k) by done.
    by rewrite shifted_zero, Hone.
Qed.

Lemma len_acted lines e :
  effective (len lines) e = true →
  len (acted lines e)
  = len lines + (if String.eqb (type_of e) "replace" then 0
                 else if String.eqb (type_of e) "insert" then 1 else -1).
Proof.
  unfold effective, acted, len, list_insert_at.
  intros [Hpos Hrange]%andb_true_iff. apply Z.leb_le in Hpos.
  revert Hrange. by_type e.
  - intros _. rewrite length_insert. lia.
  - intros Hle%Z.leb_le.
    rewrite length_app, length_take. cbn [length]. rewrite length_drop. lia.
  - intros Hlt%Z.ltb_lt. rewrite length_delete; [lia|].
    apply lookup_lt_is_Some. lia.
  - done.
Qed.

(** An edit that takes effect does not change which of the edits on
    earlier lines take effect. *)
Lemma effective_after lines e r :
  effective (len lines) e = true → line_of r < line_of e →
  effective (len (acted lines e)) r = effective (len lines) r.
Proof.
  intros He Hlt. rewrite (len_acted lines e He).
  unfold effective in He |- *.
  apply andb_true_iff in He as [Hpos Hrange]. apply Z.leb_le in Hpos.
  f_equal. revert Hrange.
  destruct (String.eqb (type_of e) "replace").
  { by rewrite Z.add_0_r. }
  destruct (String.eqb (type_of e) "insert").
  { intros Hle%Z.leb_le.
    destruct (String.eqb (type_of r) "replace"); [|destruct (String.eqb (type_of r) "insert");
      [|destruct (String.eqb (type_of r) "delete"); [|done]]].
    - destruct (Z.ltb_spec (line_of r) (len lines + 1)),
               (Z.ltb_spec (line_of r) (len lines)); lia || done.
    - destruct (Z.leb_spec (line_of r) (len lines + 1)),
               (Z.leb_spec (line_of r) (len lines)); lia || done.
    - destruct (Z.ltb_spec (line_of r) (len lines + 1)),
               (Z.ltb_spec (line_of r) (len lines)); lia || done. }
  destruct (String.eqb (type_of e) "delete"); [|done].
  intros Hle%Z.ltb_lt.
  destruct (String.eqb (type_of r) "replace"); [|destruct (String.eqb (type_of r) "insert");
    [|destruct (String.eqb (type_of r) "delete"); [|done]]].
  - destruct (Z.ltb_spec (line_of r) (len lines + -1)),
             (Z.ltb_spec (line_of r) (len lines)); lia || done.
  - destruct (Z.leb_spec (line_of r) (len lines + -1)),
             (Z.leb_spec (line_of r) (len lines)); lia || done.
  - destruct (Z.ltb_spec (line_of r) (len lines + -1)),
             (Z.ltb_spec (line_of r) (len lines)); lia || done.
Qed.

Lemma filter_effective_after lines e rest :
  effective (len lines) e = true →
  Forall (fun r => line_of r < line_of e) rest →
  List.filter (effective (len (acted lines e))) rest
  = List.filter (effective (len lines)) rest.
Proof.
  intros He. induction 1 as [|r rest Hr _ IH]; [done|].
  cbn [List.filter]. by rewrite IH, effective_after.
Qed.

Lemma loop_counts edits lines k :
  strictly_descending edits →
  (foldl apply_one (lines, k) edits).2
  = k + len (List.filter (effective (len lines)) edits).
Proof.
  intros Hsorted. revert lines k.
  induction Hsorted as [|e rest _ IH Hall]; intros lines k.
  - cbn [foldl List.filter snd]. unfold len. cbn [length]. lia.
  - cbn [foldl List.filter]. rewrite apply_one_effective.
    destruct (effective (len lines) e) eqn:He.
    + rewrite IH, filter_effective_after by done. rewrite len_cons. lia.
    + by rewrite IH.
Qed.

(** With no two edits on a line, decreasing line numbers are strictly
    decreasing. *)
Lemma descending_strictly edits :
  descending edits → NoDup (map line_of edits) → strictly_descending edits.
Proof.
  unfold descending, strictly_descending.
  induction 1 as [|e rest _ IH Hall]; [constructor|].
  cbn [map]. intros [Hnotin Hnodup]%NoDup_cons. constructor; [by apply IH|].
  apply Forall_forall. intros r Hr.
  assert (line_of r ≤ line_of e).
  { eapply (proj1 (Forall_forall _ _) Hall). done. }
  assert (line_of r ≠ line_of e); [|lia].
  intros Heq. apply Hnotin. rewrite <- Heq. by apply list_elem_of_fmap_2.
Qed.

Lemma edit_at_perm edits edits' i :
  NoDup (map line_of edits) → Permutation edits edits' →
  edit_at edits i = edit_at edits' i.
Proof.
  intros Hnodup Hperm. revert Hnodup.
  induction Hperm as [|e l l' _ IH|x y l|l l' l'' H1 IH1 H2 IH2]; intros Hnodup.
  - done.
  - cbn [map] in Hnodup. apply NoDup_cons in Hnodup as [_ Hnodup].
    unfold edit_at in *. cbn [List.find]. by rewrite IH.
  - cbn [map] in Hnodup. apply NoDup_cons in Hnodup as [Hnotin _].
    unfold edit_at. cbn [List.find].
    destruct (Z.eqb_spec (line_of y) i) as [Hy|_],
             (Z.eqb_spec (line_of x) i) as [Hx|_]; try done.
    exfalso. apply Hnotin. rewrite Hy, <- Hx. by left.
  - rewrite IH1 by done. apply IH2.
    by rewrite <- (Permutation_map line_of H1).
Qed.

Lemma rewritten_ext edits edits' i lines :
  (∀ j, edit_at edits j = edit_at edits' j) →
  rewritten edits i lines = rewritten edits' i lines.
Proof.
  intros Hext. revert i. induction lines as [|l lines IH]; intros i; cbn [rewritten].
  - by rewrite Hext.
  - by rewrite Hext, IH.
Qed.

Lemma filter_length_perm {A} (f : A → bool) l l' :
  Permutation l l' → length (List.filter f l) = length (List.filter f l').
Proof.
  induction 1 as [|x l l' _ IH|x y l|l l' l'' _ IH1 _ IH2]; cbn [List.filter].
  - done.
  - destruct (f x); cbn [length]; by rewrite IH.
  - by destruct (f x), (f y).
  - by rewrite IH1.
Qed.

(** The loop of [apply_edit] when no two edits name the same line. *)
Lemma run_edits_by_line lines edits :
  NoDup (map line_of edits) →
  run_edits lines edits
  = (rewritten edits 0 lines, len (List.filter (effective (len lines)) edits)).
Proof.
  intros Hnodup. unfold run_edits.
  pose proof (sorted_reverse_perm edits) as Hperm.
  assert (strictly_descending (sorted_reverse edits)) as Hsorted.
  { apply descending_strictly; [apply sorted_reverse_descending|].
    by rewrite <- (Permutation_map line_of Hperm). }
  rewrite (surjective_pairing (foldl _ _ _)).
  rewrite loop_rewrites, loop_counts by done. f_equal.
  - apply rewritten_ext. intros j. symmetry. by apply edit_at_perm.
  - rewrite Z.add_0_l. unfold len. f_equal. symmetry. by apply filter_length_perm.
Qed.

(** X1. When no two edits name the same line, every edit acts on the
    line of the file as it was read that bears its number, whatever the
    other edits do: a [replace] puts its text in the place of that line,
    an [insert] puts its text before it (after the last line when it
    names the index one past it), a [delete] drops it; an edit of
    another type, or one that names no line, does nothing.  The count
    that is reported is the number of the edits that name a line of the
    file as it was read. *)
Theorem edits_act_on_the_lines_they_name W file_path edits s text :
  fs s !! file_path = Some (RegularFile text) →
  NoDup (map line_of edits) →
  let lines := str_split newline (universal_newlines text) in
  let edits_applied := len (List.filter (effective (len lines)) edits) in
  apply_edit W file_path edits s
  = (Returned (EditResult.Make true
                 ("Successfully applied " +:+ str_of_int edits_applied
                  +:+ " edit(s) to " +:+ file_path)
                 edits_applied),
     Make (lsp_client s) (cache s)
          (<[file_path := RegularFile (join_lines (rewritten edits 0 lines))]> (fs s))).
Proof.
  intros Hfile Hnodup lines edits_applied.
  rewrite (apply_edit_regular W file_path edits s text Hfile). cbn zeta.
  by rewrite run_edits_by_line.
Qed.

Lemma edits_by_line_example :
  let s := Make LSPClient.new (CacheManager.init 512 14)
                {["/w/f.txt" := RegularFile (join_lines ["a"; "b"; "c"])]} in
  let edits := [Edit.Make (Some "insert") (Some 3) (Some "d");
                Edit.Make (Some "delete") (Some 0) None;
                Edit.Make None (Some 1) (Some "B");
                Edit.Make (Some "insert") (Some 2) (Some "x");
                Edit.Make (Some "delete") (Some 7) None] in
  apply_edit (Example.world []) "/w/f.txt" edits s
  = (Returned (EditResult.Make true "Successfully applied 4 edit(s) to /w/f.txt" 4),
     Make LSPClient.new (CacheManager.init 512 14)
          {["/w/f.txt" := RegularFile (join_lines ["B"; "x"; "c"; "d"])]}).
Proof.
  intros s edits.
  rewrite (edits_act_on_the_lines_they_name (Example.world []) "/w/f.txt" edits s
             (join_lines ["a"; "b"; "c"])).
  - by vm_compute.
  - by vm_compute.
  - apply (bool_decide_unpack _). by vm_compute.
Defined.

(** X2. The order in which the edits are listed does not matter when
    no two of them name the same line: a list of edits and any
    rearrangement of it give the same result and leave the same file
    behind. *)
Theorem edit_order_is_irrelevant W file_path edits edits' s :
  NoDup (map line_of edits) →
  Permutation edits edits' →
  apply_edit W file_path edits s = apply_edit W file_path edits' s.
Proof.
  intros Hnodup Hperm.
  assert (∀ lines, run_edits lines edits = run_edits lines edits') as Hrun.
  { intros lines. rewrite !run_edits_by_line; [|by rewrite <- (Permutation_map line_of Hperm)|done].
    f_equal.
    - apply rewritten_ext. intros j. by apply edit_at_perm.
    - unfold len. f_equal. by apply filter_length_perm. }
  unfold apply_edit. step_prog.
  destruct (negb _); [done|].
  destruct (read_text (fs s) file_path); [|done..].
  by rewrite Hrun.
Qed.

Lemma edit_order_example :
  let s := Make LSPClient.new (CacheManager.init 512 14)
                {["/w/f.txt" := RegularFile (join_lines ["a"; "b"; "c"])]} in
  let first := Edit.Make (Some "delete") (Some 0) None in
  let second := Edit.Make (Some "insert") (Some 2) (Some "x") in
  apply_edit (Example.world []) "/w/f.txt" [first; second] s
  = apply_edit (Example.world []) "/w/f.txt" [second; first] s.
Proof.
  intros s first second.
  apply (edit_order_is_irrelevant (Example.world []) "/w/f.txt"
           [first; second] [second; first] s).
  - apply (bool_decide_unpack _). by vm_compute.
  - apply perm_swap.
Defined.






End edits_by_line.

(** ** [_parse_query] outside its three forms *)

Section queries.
Import ContextManager.
Local Open Scope string_scope.
Local Open Scope list_scope.

(** X5. What [_parse_query] does outside the three forms of its
    documentation.  In [file:symbol] with a file that does not exist as
    it is written, the file is looked up by name in the workspace, and
    when it is not found there either the file part is dropped and the
    symbol part is kept, dots and colons included.  A name with two dots
    or more is not split: it is kept whole as the symbol. *)
Theorem parse_query_falls_back W files file symbol a b c :
  occurs ":" file = false → path_exists files file = false →
  occurs ":" a = false → occurs "." a = false →
  occurs ":" b = false → occurs "." b = false →
  occurs ":" c = false →
  _parse_query W files (file +:+ ":" +:+ symbol)
  = match _find_file_in_workspace W file with
    | Some found_file => (Some found_file, symbol)
    | None => (None, symbol)
    end
  ∧ _parse_query W files (a +:+ "." +:+ b +:+ "." +:+ c)
    = (None, a +:+ "." +:+ b +:+ "." +:+ c).
Proof.
  intros Hfile Hmissing Ha Ha' Hb Hb' Hc. split.
  - unfold _parse_query.
    change (file +:+ ":" +:+ symbol) with (file +:+ String ":" symbol).
    rewrite split_once_first by done. by rewrite Hmissing.
  - unfold _parse_query.
    rewrite split_once_absent.
    2:{ change (a +:+ "." +:+ b +:+ "." +:+ c)
          with (a +:+ String "." (b +:+ String "." c)).
        rewrite !occurs_app, !occurs_cons, !occurs_app, !occurs_cons.
        by rewrite Ha, Hb, Hc. }
    destruct (str_in "." _); [|done].
    change (a +:+ "." +:+ b +:+ "." +:+ c)
      with (a +:+ String "." (b +:+ String "." c)).
    rewrite !split_first by done.
    pose proof (split_nonempty "." c) as Hne.
    by destruct (str_split "." c) as [|x [|y rest]].
Qed.

Lemma parse_query_falls_back_example :
  let W := Example.world [] in
  _parse_query W Example.files "hook.py:UserService.authenticate"
  = (Some "/w/.git/hook.py", "UserService.authenticate")
  ∧ _parse_query W Example.files "missing.py:a:b" = (None, "a:b")
  ∧ _parse_query W Example.files "pkg.UserService.authenticate"
    = (None, "pkg.UserService.authenticate").
Proof.
  intros W.
  destruct (parse_query_falls_back W Example.files "hook.py"
              "UserService.authenticate" "pkg" "UserService" "authenticate")
    as [Hfirst Hthird]; [done..|].
  destruct (parse_query_falls_back W Example.files "missing.py"
              "a:b" "pkg" "UserService" "authenticate")
    as [Hsecond _]; [done..|].
  split; [exact Hfirst|]. split; [exact Hsecond|exact Hthird].
Defined.

End queries.

(** ** The symbols and the file they are taken from *)

Section located.
Import ContextManager.
Local Open Scope string_scope.
Local Open Scope list_scope.

Lemma format_symbol_located lsp_symbol file_path symbol :
  _format_symbol lsp_symbol file_path = Returned symbol →
  location_file symbol = file_path.
Proof.
  unfold _format_symbol. step_prog.
  repeat (match goal with
          | |- context [match ?o with Returned _ => _ | Raised _ => _ | Hangs => _ end] =>
              destruct o; [|done..]
          end).
  by intros [= <-].
Qed.

Lemma select_symbols_located scope symbol_name file_path listed selected :
  select_symbols scope symbol_name file_path listed = Returned selected →
  Forall (fun symbol => location_file symbol = file_path) selected.
Proof.
  revert selected. induction listed as [|symbol listed IH]; intros selected.
  - by intros [= <-].
  - cbn [select_symbols]. step_prog.
    destruct (in_scope scope symbol_name symbol) as [[]| |]; [| |done..].
    + destruct (_format_symbol symbol file_path) as [formatted| |] eqn:Hf; [|done..].
      destruct (select_symbols scope symbol_name file_path listed)
        as [others| |]; [|done..].
      intros [= <-]. constructor; [by eapply format_symbol_located|by apply IH].
    + apply IH.
Qed.

Lemma extract_symbols_located W file_path symbol_name scope s symbols s' :
  _extract_symbols W file_path symbol_name scope s = (Returned symbols, s') →
  Forall (fun symbol => location_file symbol = file_path) symbols.
Proof.
  intros (raw & listed & selected & _ & _ & Hsel & ->)%extract_symbols_returned.
  apply select_symbols_located in Hsel.
  destruct selected; [|done].
  destruct (path_exists _ _); by repeat constructor.
Qed.

(** X6. [find_symbol] reports one file only: the first Python file, in
    the order of the walk, that declares the symbol.  Every location it
    returns is in that file, whatever other files declare the symbol
    too.  When no file declares it, nothing is found, no backend is
    asked and nothing changes. *)
Theorem find_symbol_reports_one_file W symbol_name s r s' :
  find_symbol W symbol_name s = (Returned r, s') →
  FindResult.symbol_name r = symbol_name
  ∧ (FindResult.found r = true →
     ∃ file_path,
       _find_symbol_file W (fs s) symbol_name = Some file_path
       ∧ Forall (fun l => Location.file l = file_path) (FindResult.locations r))
  ∧ (_find_symbol_file W (fs s) symbol_name = None →
     r = FindResult.Make symbol_name false
           ("Symbol '" +:+ symbol_name +:+ "' not found in codebase") []
     ∧ s' = s).
Proof.
  unfold find_symbol. step_prog.
  destruct (_find_symbol_file W (fs s) symbol_name) as [file_path|] eqn:Hfile.
  - destruct (String.eqb file_path EmptyString).
    { intros [= <- <-]. by repeat split. }
    destruct (_extract_symbols W file_path symbol_name "function" s)
      as [[symbols| |] s1] eqn:Hsym; [|done..].
    intros [= <- <-]. cbn. split; [done|]. split; [|done].
    intros _. exists file_path. split; [done|].
    apply extract_symbols_located in Hsym.
    induction Hsym; by constructor.
  - intros [= <- <-]. by repeat split.
Qed.

Lemma find_symbol_reports_one_file_example :
  let W := Example.world [Example.reply 1 JNull;
                          Example.reply 2 (JList [Example.symbol_at "authenticate" 6 2])] in
  let r := (find_symbol W "authenticate" Example.fresh).1 in
  defines W Example.files "authenticate" "/w/.git/hook.py" = true
  ∧ r = Returned (FindResult.Make "authenticate" true
                    "Found 1 occurrence(s) of 'authenticate'"
                    [Location.Make "/w/svc.py" (JInt 2) "Method"
                       (JStr "authenticate") (JStr EmptyString)]).
Proof.
  intros W r. split; [reflexivity|].
  destruct (find_symbol W "authenticate" Example.fresh) as [o s'] eqn:Hrun.
  assert (o = Returned (FindResult.Make "authenticate" true
                    "Found 1 occurrence(s) of 'authenticate'"
                    [Location.Make "/w/svc.py" (JInt 2) "Method"
                       (JStr "authenticate") (JStr EmptyString)])) as Ho.
  { by vm_compute in Hrun; injection Hrun as <- _. }
  subst o.
  destruct (find_symbol_reports_one_file W "authenticate" Example.fresh _ s' Hrun)
    as (_ & Hfound & _).
  destruct (Hfound eq_refl) as (file_path & _ & _).
  subst r. reflexivity.
Defined.

Lemma in_scope_unknown scope symbol_name symbol :
  scope ≠ "function" → scope ≠ "class" → scope ≠ "file" →
  in_scope scope symbol_name symbol = Returned false.
Proof.
  intros H1 H2 H3. unfold in_scope.
  apply String.eqb_neq in H1 as ->. apply String.eqb_neq in H2 as ->.
  by apply String.eqb_neq in H3 as ->.
Qed.

Lemma select_symbols_unknown scope symbol_name file_path listed :
  scope ≠ "function" → scope ≠ "class" → scope ≠ "file" →
  select_symbols scope symbol_name file_path listed = Returned [].
Proof.
  intros H1 H2 H3. induction listed as [|symbol listed IH]; [done|].
  cbn [select_symbols]. by rewrite in_scope_unknown.
Qed.

(** X7. With a scope that is none of [function], [class] and [file]
    (such as [project], which the request model of the HTTP server
    lists), what the backend reports is not looked at: the symbols are
    the stub of kind Unknown at line 1 when the file exists, and none
    when it does not. *)
Theorem unknown_scope_gives_the_stub W file_path symbol_name scope s symbols s' :
  scope ≠ "function" → scope ≠ "class" → scope ≠ "file" →
  _extract_symbols W file_path symbol_name scope s = (Returned symbols, s') →
  symbols = if path_exists (fs s) file_path
            then [stub_symbol symbol_name file_path] else [].
Proof.
  intros H1 H2 H3 (raw & listed & selected & _ & _ & Hsel & ->)%extract_symbols_returned.
  rewrite select_symbols_unknown in Hsel by done. by injection Hsel as <-.
Qed.

Lemma unknown_scope_example :
  let W := Example.world [Example.reply 1 JNull;
                          Example.reply 2 (JList [Example.symbol_at "UserService" 5 1;
                                                  Example.symbol_at "authenticate" 6 2])] in
  (_extract_symbols W "/w/svc.py" "authenticate" "project" Example.fresh).1
  = Returned [stub_symbol "authenticate" "/w/svc.py"].
Proof.
  intros W.
  destruct (_extract_symbols W "/w/svc.py" "authenticate" "project" Example.fresh)
    as [o s'] eqn:Hrun.
  assert (∃ symbols, o = Returned symbols) as [symbols ->].
  { vm_compute in Hrun. injection Hrun as <- _. by eexists. }
  by rewrite (unknown_scope_gives_the_stub W "/w/svc.py" "authenticate" "project"
                Example.fresh symbols s' ltac:(done) ltac:(done) ltac:(done) Hrun).
Defined.

End located.

(** ** Dependencies *)

Section dependencies.
Import ContextManager DependencySpec.
Local Open Scope string_scope.
Local Open Scope list_scope.

Lemma add_module_collected (P : Dependency → Prop) file_path acc module :
  (module ≠ EmptyString →
   P {| module := module; summary := "Imported by " +:+ basename file_path |}) →
  collected P acc → collected P (add_module file_path acc module).
Proof.
  intros HP (Hnodup & Hseen & Hall). destruct acc as [dependencies seen_modules].
  cbn [fst snd] in *. unfold add_module.
  destruct (String.eqb_spec module EmptyString) as [->|Hne]; cbn [negb andb].
  { done. }
  case_bool_decide as Hnew; [|done].
  split; [|split]; cbn [fst snd].
  - rewrite map_app. cbn [map ContextManager.module].
    apply NoDup_app. split; [done|]. split.
    + intros m Hm ->%list_elem_of_singleton.
      apply list_elem_of_fmap in Hm as (d & -> & Hd).
      apply Hnew. by apply (proj1 (Forall_forall _ _) Hseen).
    + apply NoDup_singleton.
  - apply Forall_app. split.
    + eapply Forall_impl; [exact Hseen|]. cbn. set_solver.
    + constructor; [|done]. cbn. set_solver.
  - apply Forall_app. split; [done|]. constructor; [by apply HP|done].
Qed.

Lemma add_modules_collected (P : Dependency → Prop) file_path acc modules :
  (∀ module, module ≠ EmptyString →
     P {| module := module; summary := "Imported by " +:+ basename file_path |}) →
  collected P acc → collected P (add_modules file_path acc modules).
Proof.
  intros HP. revert acc. induction modules as [|[module|] modules IH]; intros acc Hacc.
  - done.
  - cbn [add_modules]. apply IH. apply add_module_collected; [apply HP|done].
  - done.
Qed.

Lemma dependencies_of_collected W files symbols acc symbol :
  symbol ∈ symbols →
  collected (imported_by files symbols) acc →
  collected (imported_by files symbols) (dependencies_of W files acc symbol).
Proof.
  intros Hin Hacc. unfold dependencies_of.
  destruct (path_exists files (location_file symbol)) eqn:Hexists; [|done].
  destruct (read_text files (location_file symbol)) as [content| |]; [|done..].
  apply add_modules_collected; [|done].
  intros module Hne. split; [done|]. by exists symbol.
Qed.

Lemma foldl_collected W files symbols todo acc :
  (∀ symbol, symbol ∈ todo → symbol ∈ symbols) →
  collected (imported_by files symbols) acc →
  collected (imported_by files symbols) (foldl (dependencies_of W files) acc todo).
Proof.
  intros Hsub Hacc. revert acc Hacc.
  induction todo as [|symbol todo IH]; intros acc Hacc; [done|].
  cbn [foldl]. apply IH.
  - intros sym Hsym. apply Hsub. by right.
  - apply dependencies_of_collected; [apply Hsub; by left|done].
Qed.

(** X8. [_extract_dependencies] always returns, and changes nothing.
    No module is listed twice, whatever the number of the files and of
    the import lines that name it, and none has an empty name; every
    dependency is attributed to the file of one of the symbols, a file
    that exists. *)
Theorem dependencies_are_distinct W symbols s :
  ∃ dependencies,
    _extract_dependencies W symbols s = (Returned dependencies, s)
    ∧ NoDup (map module dependencies)
    ∧ Forall (imported_by (fs s) symbols) dependencies.
Proof.
  unfold _extract_dependencies. step_prog. eexists. split; [reflexivity|].
  assert (collected (imported_by (fs s) symbols)
            (foldl (dependencies_of W (fs s)) ([], ∅) symbols)) as (Hnodup & _ & Hall).
  { apply foldl_collected; [done|].
    split; [constructor|]. by split. }
  by split.
Qed.

End dependencies.

(** ** The references of the symbols of a file *)

Section references_elsewhere.
Import ContextManager.
Local Open Scope string_scope.
Local Open Scope list_scope.





End references_elsewhere.

(** ** [get_context] and its cache *)

Section served_again.
Import ContextManager ContextSpec.
Local Open Scope string_scope.
Local Open Scope list_scope.
Local Open Scope Z_scope.

Lemma count_tokens_nonneg W symbols dependencies references n :
  _count_tokens W symbols dependencies references = Returned n → 0 ≤ n.
Proof.
  unfold _count_tokens, token_count. destruct (encode W _); [|done].
  intros [= <-]. unfold len. lia.
Qed.

Lemma estimate_raw_tokens_bounds W files file_path scope :
  0 ≤ _estimate_raw_tokens W files file_path scope
  ∧ (scope = "function" → _estimate_raw_tokens W files file_path scope ≤ 1000)
  ∧ (scope = "class" → _estimate_raw_tokens W files file_path scope ≤ 2000).
Proof.
  unfold _estimate_raw_tokens.
  destruct (negb _); [by repeat split|].
  destruct (read_text files file_path) as [content| |];
    [|repeat split; intros; lia..].
  destruct (String.eqb_spec scope "function") as [->|Hf]; [by repeat split|].
  destruct (String.eqb_spec scope "class") as [->|Hc]; [by repeat split|].
  unfold token_count. destruct (encode W content); (split; [unfold len; lia|done]).
Qed.

(** What [compute_context] leaves behind: nothing when no file was
    found, and else the payload in the cache, under the key. *)
Lemma compute_context_stores W now cache_key query scope s result s' :
  compute_context W now cache_key query scope s = (Returned result, s') →
  (result = _empty_result ∧ s' = s)
  ∨ ∃ file_path symbols dependencies references optimized_tokens,
      _count_tokens W symbols dependencies references = Returned optimized_tokens
      ∧ result = assembled symbols dependencies references
                   (_estimate_raw_tokens W (fs s) file_path scope) optimized_tokens
      ∧ cache s' = (CacheManager.set (json_dumps W) (cache s) now cache_key result).2
      ∧ fs s' = fs s.
Proof.
  unfold compute_context. step_prog.
  destruct (_parse_query W (fs s) query) as [parsed_file symbol_name].
  set (file_path := match parsed_file with
                    | Some f => if String.eqb f EmptyString then _ else Some f
                    | None => _
                    end).
  destruct file_path as [file_path|]; step_prog; [|intros [= <- <-]; by left].
  destruct (String.eqb file_path EmptyString); step_prog;
    [intros [= <- <-]; by left|].
  pose proof (extract_symbols_frame W file_path symbol_name scope s) as [Hc1 Hf1].
  destruct (_extract_symbols W file_path symbol_name scope s)
    as [[symbols| |] s1]; [|done..].
  unfold _extract_dependencies. step_prog.
  pose proof (extract_references_frame W symbols s1) as [Hc2 Hf2].
  destruct (_extract_references W symbols s1) as [[references| |] s2]; [|done..].
  destruct (_count_tokens W symbols _ references) as [optimized| |] eqn:Hcount;
    [|done..].
  cbn [snd] in *. unfold cache_set. rewrite Hc2, Hc1.
  intros Hret. right.
  exists file_path, symbols, (foldl (dependencies_of W (fs s1)) ([], ∅) symbols).1,
    references, optimized.
  split; [exact Hcount|].
  destruct (CacheManager.set _ _ _ _ _) as [stored c] eqn:Hset.
  injection Hret as <- <-. split; [done|]. cbn [cache fs]. split; [|congruence].
  exact (eq_sym (f_equal snd Hset)).
Qed.

Lemma assembled_truthy symbols dependencies references raw_tokens optimized_tokens :
  truthy (assembled symbols dependencies references raw_tokens optimized_tokens) = true.
Proof. reflexivity. Qed.

(** What [get_context] does when the cache has nothing to give. *)
Lemma get_context_miss W now_lookup now_store query scope max_tokens s :
  (CacheManager.get (json_loads W) (cache s) now_lookup
     (_generate_cache_key W query scope max_tokens)).1 = None →
  get_context W now_lookup now_store query scope max_tokens s
  = compute_context W now_store (_generate_cache_key W query scope max_tokens)
      query scope
      (Make (lsp_client s)
            (CacheManager.get (json_loads W) (cache s) now_lookup
               (_generate_cache_key W query scope max_tokens)).2
            (fs s)).
Proof.
  intros Hmiss. unfold get_context, cache_get. step_prog.
  destruct (CacheManager.get _ _ _ _) as [cached c']. cbn [fst snd] in *.
  by subst cached.
Qed.

Lemma manager_get_config {V} (json_loads : string → option V) c now k :
  TTLCache.maxsize (CacheManager.get json_loads c now k).2 = TTLCache.maxsize c
  ∧ TTLCache.ttl (CacheManager.get json_loads c now k).2 = TTLCache.ttl c.
Proof.
  unfold CacheManager.get, TTLCache.get.
  destruct (TTLCache.find k (TTLCache.items c)) as [it|]; [|done].
  destruct (TTLCache.live now it); [|done].
  by destruct (negb _).
Qed.

(** X10. The saving that is computed on a miss of the cache is an
    integer between zero and the raw estimate of the file: it is at most
    1000 for the scope [function] and at most 2000 for the scope
    [class], whatever the size of the file. *)
Theorem saving_is_bounded W now_lookup now_store query scope max_tokens s result s' :
  (CacheManager.get (json_loads W) (cache s) now_lookup
     (_generate_cache_key W query scope max_tokens)).1 = None →
  get_context W now_lookup now_store query scope max_tokens s = (Returned result, s') →
  ∃ n,
    tokens_saved result = Some (JInt n)
    ∧ 0 ≤ n
    ∧ (scope = "function" → n ≤ 1000)
    ∧ (scope = "class" → n ≤ 2000).
Proof.
  intros Hmiss. rewrite get_context_miss by done.
  intros [[-> _]|(file_path & symbols & dependencies & references & optimized
                  & Hcount & -> & _)]%compute_context_stores.
  - exists 0. by repeat split.
  - apply count_tokens_nonneg in Hcount. cbn [fs].
    pose proof (estimate_raw_tokens_bounds W (fs s) file_path scope)
      as (Hraw & Hfunction & Hclass).
    eexists. split; [reflexivity|].
    split; [lia|]. split; intros Hscope;
      [specialize (Hfunction Hscope)|specialize (Hclass Hscope)]; lia.
Qed.

Lemma saving_is_bounded_example :
  ∃ n, tokens_saved authenticate_payload = Some (JInt n) ∧ 0 ≤ n ∧ n ≤ 1000.
Proof.
  destruct (saving_is_bounded authenticate_world 0 0 "UserService.authenticate"
              "function" 4096 Example.fresh authenticate_payload
              (get_context authenticate_world 0 0 "UserService.authenticate"
                 "function" 4096 Example.fresh).2)
    as (n & Hn & Hpos & Hfunction & _); [reflexivity|by vm_compute|].
  exists n. split; [done|]. split; [done|]. by apply Hfunction.
Defined.

(** What a payload that was just stored is worth: any state that
    holds the cache [compute_context] left serves it. *)
Lemma stored_payload_is_served W t1 t2 t3 t4 query scope max_tokens s result s1
    serialized s' :
  json_dumps W result = Some serialized →
  json_loads W serialized = Some result →
  serialized ≠ EmptyString →
  CacheManager._get_size serialized ≤ TTLCache.maxsize (cache s) →
  (CacheManager.get (json_loads W) (cache s) t1
     (_generate_cache_key W query scope max_tokens)).1 = None →
  get_context W t1 t2 query scope max_tokens s = (Returned result, s1) →
  result ≠ _empty_result →
  t3 < t2 + TTLCache.ttl (cache s) →
  cache s' = cache s1 →
  ∃ s2,
    get_context W t3 t4 query scope max_tokens s' = (Returned result, s2)
    ∧ lsp_client s2 = lsp_client s'
    ∧ fs s2 = fs s'.
Proof.
  intros Hdumps Hloads Hne Hsize Hmiss Hfirst Hfound Hlive Hsame.
  rewrite get_context_miss in Hfirst by done.
  apply compute_context_stores in Hfirst
    as [[-> _]|(file_path & symbols & dependencies & references & optimized
                & _ & Hresult & Hcache & _)]; [done|].
  cbn [cache] in Hcache.
  set (key := _generate_cache_key W query scope max_tokens) in *.
  pose proof (manager_get_config (json_loads W) (cache s) t1 key) as [Hmax Httl].
  set (c := (CacheManager.get (json_loads W) (cache s) t1 key).2) in *.
  destruct (manager_set_then_get (json_dumps W) (json_loads W) c t2 t3 key result
              serialized Hdumps Hne) as [_ Hget]; [lia..|].
  rewrite <- Hcache, <- Hsame, Hloads in Hget.
  unfold get_context, cache_get. step_prog. fold key.
  destruct (CacheManager.get (json_loads W) (cache s') t3 key) as [cached c'].
  cbn [fst] in Hget. subst cached.
  assert (truthy result = true) as -> by by rewrite Hresult.
  by eexists.
Qed.

(** X11. A payload that was computed from a file is served again from
    the cache: when [get_context] has found nothing in the cache and has
    computed a payload that is not the empty result, that [json] gives
    back from its text and that fits the capacity of the cache, the same
    request made before the time to live has passed returns the same
    payload, and no backend is asked and no file is read for it. *)
Theorem second_call_is_served_from_the_cache W t1 t2 t3 t4 query scope
    max_tokens s result s1 serialized :
  json_dumps W result = Some serialized →
  json_loads W serialized = Some result →
  serialized ≠ EmptyString →
  CacheManager._get_size serialized ≤ TTLCache.maxsize (cache s) →
  (CacheManager.get (json_loads W) (cache s) t1
     (_generate_cache_key W query scope max_tokens)).1 = None →
  get_context W t1 t2 query scope max_tokens s = (Returned result, s1) →
  result ≠ _empty_result →
  t3 < t2 + TTLCache.ttl (cache s) →
  ∃ s2,
    get_context W t3 t4 query scope max_tokens s1 = (Returned result, s2)
    ∧ lsp_client s2 = lsp_client s1
    ∧ fs s2 = fs s1.
Proof.
  intros Hdumps Hloads Hne Hsize Hmiss Hfirst Hfound Hlive.
  by eapply stored_payload_is_served.
Qed.

Lemma second_call_example :
  let W := authenticate_world in
  let first := get_context W 0 0 "UserService.authenticate" "function" 4096
                 Example.fresh in
  let second := get_context W 1 1 "UserService.authenticate" "function" 4096 first.2 in
  first.1 = Returned authenticate_payload
  ∧ second.1 = Returned authenticate_payload
  ∧ lsp_client second.2 = lsp_client first.2.
Proof.
  intros W first second.
  assert (first = (Returned authenticate_payload, first.2)) as Hfirst
    by by vm_compute.
  destruct (second_call_is_served_from_the_cache W 0 0 1 1 "UserService.authenticate"
              "function" 4096 Example.fresh authenticate_payload first.2
              (default EmptyString (Example.dumps authenticate_payload)))
    as (s2 & Hsecond & Hlsp & _).
  - by vm_compute.
  - by vm_compute.
  - by vm_compute.
  - apply Z.leb_le. by vm_compute.
  - by vm_compute.
  - exact Hfirst.
  - done.
  - apply Z.ltb_lt. by vm_compute.
  - split; [by rewrite Hfirst|]. subst second. rewrite Hsecond. by split.
Defined.

(** X29. An edit does not invalidate the cache.  A payload that
    [get_context] computed and stored is still the answer to the same
    request after [apply_edit] has rewritten a file, the file the
    payload was computed from included, until its time to live has
    passed. *)
Theorem edits_do_not_invalidate_the_cache W t1 t2 t3 t4 query scope max_tokens s
    result s1 serialized file_path edits :
  json_dumps W result = Some serialized →
  json_loads W serialized = Some result →
  serialized ≠ EmptyString →
  CacheManager._get_size serialized ≤ TTLCache.maxsize (cache s) →
  (CacheManager.get (json_loads W) (cache s) t1
     (_generate_cache_key W query scope max_tokens)).1 = None →
  get_context W t1 t2 query scope max_tokens s = (Returned result, s1) →
  result ≠ _empty_result →
  t3 < t2 + TTLCache.ttl (cache s) →
  (get_context W t3 t4 query scope max_tokens
     (apply_edit W file_path edits s1).2).1
  = Returned result.
Proof.
  intros Hdumps Hloads Hne Hsize Hmiss Hfirst Hfound Hlive.
  destruct (stored_payload_is_served W t1 t2 t3 t4 query scope max_tokens s result
              s1 serialized (apply_edit W file_path edits s1).2)
    as (s2 & -> & _); try done.
  apply apply_edit_frame.
Qed.

Lemma stale_payload_example :
  let W := authenticate_world in
  let first := get_context W 0 0 "UserService.authenticate" "function" 4096
                 Example.fresh in
  let edit := Edit.Make (Some "delete") (Some 2) None in
  let edited := apply_edit W "/w/svc.py" [edit] first.2 in
  fs edited.2 !! "/w/svc.py"
  = Some (RegularFile (join_lines ["import os"; "class UserService:"]))
  ∧ (get_context W 1 1 "UserService.authenticate" "function" 4096 edited.2).1
    = Returned authenticate_payload.
Proof.
  intros W first edit edited. split; [by vm_compute|].
  apply (edits_do_not_invalidate_the_cache W 0 0 1 1 "UserService.authenticate"
           "function" 4096 Example.fresh authenticate_payload first.2
           (default EmptyString (Example.dumps authenticate_payload))
           "/w/svc.py" [edit]).
  - by vm_compute.
  - by vm_compute.
  - by vm_compute.
  - apply Z.leb_le. by vm_compute.
  - by vm_compute.
  - by vm_compute.
  - done.
  - apply Z.ltb_lt. by vm_compute.
Defined.

(** X12. A request for which no file is found is answered with the
    empty result, and that answer is not kept: nothing is put in the
    cache, no backend is asked, no file is changed, so that the same
    request made again is computed again. *)
Theorem unresolved_query_is_not_cached W now_lookup now_store query scope
    max_tokens s symbol_name :
  (CacheManager.get (json_loads W) (cache s) now_lookup
     (_generate_cache_key W query scope max_tokens)).1 = None →
  _parse_query W (fs s) query = (None, symbol_name) →
  _find_symbol_file W (fs s) symbol_name = None →
  get_context W now_lookup now_store query scope max_tokens s
  = (Returned _empty_result,
     Make (lsp_client s)
          (CacheManager.get (json_loads W) (cache s) now_lookup
             (_generate_cache_key W query scope max_tokens)).2
          (fs s)).
Proof.
  intros Hmiss Hparse Hfile.
  rewrite get_context_miss by done.
  unfold compute_context. step_prog. cbn [fs]. by rewrite Hparse, Hfile.
Qed.

Lemma unresolved_query_example :
  get_context (Example.world []) 0 0 "nothing" "function" 4096 Example.fresh
  = (Returned _empty_result, Example.fresh).
Proof.
  rewrite (unresolved_query_is_not_cached (Example.world []) 0 0 "nothing"
             "function" 4096 Example.fresh "nothing"); by vm_compute.
Defined.

End served_again.

(** ** The entries of the cache *)

Section cache_entries.
Import TTLCache CacheSpec.
Context {V : Type} (json_dumps : V → option string) (json_loads : string → option V).

Lemma setitem_ttl c now k v sz : ttl (setitem c now k v sz).2 = ttl c.
Proof.
  unfold setitem. cbn [maxsize ttl expire items].
  destruct (sz >? maxsize c); [done|].
  destruct (match find k _ with Some old => size old <? sz | None => true end).
  - by destruct (make_room _ _ _).
  - done.
Qed.

Lemma served_ttl CACHE_SIZE_MB CACHE_TTL_DAYS c :
  served json_dumps json_loads CACHE_SIZE_MB CACHE_TTL_DAYS c →
  ttl c = CACHE_TTL_DAYS * 24 * 60 * 60.
Proof.
  induction 1 as [|c now k v _ IH|c now k _ IH]; [done|..].
  - unfold CacheManager.set. destruct (json_dumps v) as [serialized|]; [|done].
    pose proof (setitem_ttl c now k serialized
                  (CacheManager._get_size serialized)) as Httl.
    destruct (setitem c now k serialized _) as [[] c']; cbn [snd] in *; congruence.
  - unfold CacheManager.get, TTLCache.get.
    destruct (find k (items c)) as [it|]; [|done].
    destruct (live now it); [|done]. by destruct (negb _).
Qed.

(** What a [set] that returns [True] leaves in the cache. *)
Lemma manager_set_stored c now k v :
  (CacheManager.set json_dumps c now k v).1 = true →
  ∃ serialized its',
    json_dumps v = Some serialized
    ∧ (CacheManager.set json_dumps c now k v).2
      = Make (maxsize c) (ttl c)
             (remove k its'
              ++ [Item k serialized (CacheManager._get_size serialized) (now + ttl c)]).
Proof.
  unfold CacheManager.set. destruct (json_dumps v) as [serialized|]; [|done].
  unfold setitem. cbn [maxsize ttl expire items].
  destruct (_ >? maxsize c); [done|].
  destruct (match find k _ with Some old => size old <? _ | None => true end).
  - destruct (make_room _ _ _) as [its'|]; [|done]. intros _. by eexists _, _.
  - intros _. by eexists _, _.
Qed.

(** X13. An entry is served for the configured number of days and no
    longer: once [CACHE_TTL_DAYS] days, counted in seconds, have passed
    since a [set] that returned [True], [get] returns [None] for the
    key. *)
Theorem entry_expires_after_the_configured_days CACHE_SIZE_MB CACHE_TTL_DAYS
    c now now' k v :
  served json_dumps json_loads CACHE_SIZE_MB CACHE_TTL_DAYS c →
  (CacheManager.set json_dumps c now k v).1 = true →
  now + CACHE_TTL_DAYS * 24 * 60 * 60 ≤ now' →
  (CacheManager.get json_loads (CacheManager.set json_dumps c now k v).2 now' k).1
  = None.
Proof.
  intros Hserved Hset Hlate.
  rewrite <- (served_ttl _ _ c Hserved) in Hlate.
  destruct (manager_set_stored c now k v Hset) as (serialized & its' & _ & ->).
  unfold CacheManager.get, TTLCache.get. cbn [items].
  rewrite find_inserted by apply String.eqb_refl.
  unfold live. cbn [expires].
  by destruct (Z.ltb_spec now' (now + ttl c)); [lia|].
Qed.


Lemma find_filter (f g : item → bool) its it :
  List.find f its = Some it → g it = true → List.find f (List.filter g its) = Some it.
Proof.
  induction its as [|x its IH]; [done|]. cbn [List.find List.filter].
  destruct (f x) eqn:Hf.
  - intros [= ->] Hg. rewrite Hg. cbn [List.find]. by rewrite Hf.
  - intros Hfind Hg. destruct (g x); [|by apply IH].
    cbn [List.find]. rewrite Hf. by apply IH.
Qed.

Lemma find_snoc_other (f : item → bool) its it x :
  List.find f its = Some it → List.find f (its ++ [x]) = Some it.
Proof.
  induction its as [|y its IH]; [done|]. cbn [List.find app].
  destruct (f y); [done|]. apply IH.
Qed.

Lemma make_room_enough maxsize sz its :
  currsize_of its + sz ≤ maxsize → make_room maxsize sz its = Some its.
Proof.
  intros Hroom. destruct its as [|it its]; cbn [make_room].
  - by destruct (Z.gtb_spec (currsize_of [] + sz) maxsize); [lia|].
  - by destruct (Z.gtb_spec (currsize_of (it :: its) + sz) maxsize); [lia|].
Qed.

(** X14. Storing under one key leaves the entries of the other keys
    alone when there is room: an entry that [get] serves at some time
    is served, with the same payload, at that time after a [set] made
    earlier under another key, provided the unexpired entries and the
    new text together fit the capacity. *)
Theorem other_keys_are_kept c now now' k k' v serialized text :
  sized c →
  k ≠ k' →
  json_dumps v = Some serialized →
  currsize (expire now c) + CacheManager._get_size serialized ≤ maxsize c →
  now ≤ now' →
  (TTLCache.get c now' k').1 = Some text →
  (CacheManager.set json_dumps c now k v).1 = true
  ∧ (CacheManager.get json_loads (CacheManager.set json_dumps c now k v).2 now' k').1
    = (CacheManager.get json_loads c now' k').1.
Proof.
  intros Hsized Hk Hdumps Hroom Hnow Hget.
  unfold TTLCache.get in Hget.
  destruct (find k' (items c)) as [it|] eqn:Hfind; [|done].
  destruct (live now' it) eqn:Hlive; [|done].
  cbn [fst] in Hget. injection Hget as Htext.
  assert (CacheManager.get json_loads c now' k'
          = (if negb (String.eqb text EmptyString) then json_loads text else None,
             Make (maxsize c) (ttl c) (remove k' (items c) ++ [it]))) as ->.
  { unfold CacheManager.get, TTLCache.get. rewrite Hfind, Hlive, Htext.
    by destruct (negb _). }
  assert (∃ its', its' = List.filter (live now) (items c)) as [its Hits] by eauto.
  assert (find k' its = Some it) as Hfind'.
  { subst its. apply find_filter; [done|].
    unfold live in *. apply Z.ltb_lt in Hlive. apply Z.ltb_lt. lia. }
  assert (has_key k' it = true) as Hkey'.
  { unfold find in Hfind. by apply find_some in Hfind as [_ ?]. }
  assert (has_key k it = false) as Hkey.
  { unfold has_key in *. apply String.eqb_eq in Hkey'. apply String.eqb_neq.
    congruence. }
  assert (CacheManager.set json_dumps c now k v
          = (true, Make (maxsize c) (ttl c)
                        (remove k its ++ [Item k serialized
                                            (CacheManager._get_size serialized)
                                            (now + ttl c)]))) as ->.
  { unfold CacheManager.set. rewrite Hdumps. unfold setitem.
    cbn [maxsize ttl expire items]. rewrite <- Hits.
    unfold currsize in Hroom. cbn [expire items] in Hroom. rewrite <- Hits in Hroom.
    assert (0 ≤ currsize_of its) as Hsign.
    { subst its. by apply currsize_nonneg, sized_filter. }
    destruct (Z.gtb_spec (CacheManager._get_size serialized) (maxsize c)) as [Hbig|_];
      [lia|].
    rewrite make_room_enough by done.
    by destruct (match find k its with
                 | Some old => size old <? _
                 | None => true
                 end). }
  split; [done|]. cbn [fst snd].
  unfold CacheManager.get, TTLCache.get. cbn [items maxsize ttl].
  assert (find k' (remove k its ++ [Item k serialized
                                      (CacheManager._get_size serialized)
                                      (now + ttl c)]) = Some it) as ->.
  { apply find_snoc_other. unfold find, remove. apply find_filter; [done|].
    by rewrite Hkey. }
  rewrite Hlive, Htext. by destruct (negb _).
Qed.


End cache_entries.

Section cache_entries_examples.
Import TTLCache CacheSpec.
Local Open Scope string_scope.
Local Open Scope Z_scope.

Lemma entry_expires_example :
  let c := CacheManager.init 512 14 in
  let v := JDict [("tokens_saved", JInt 0)] in
  (CacheManager.get Example.loads
     (CacheManager.set Example.dumps c 0 "k" v).2 (14 * 24 * 60 * 60 - 1) "k").1
  = Some v
  ∧ (CacheManager.get Example.loads
       (CacheManager.set Example.dumps c 0 "k" v).2 (14 * 24 * 60 * 60) "k").1
    = None.
Proof.
  intros c v. split; [by vm_compute|].
  apply (entry_expires_after_the_configured_days Example.dumps Example.loads 512 14 c 0 (14 * 24 * 60 * 60) "k" v).
  - apply served_init.
  - by vm_compute.
  - lia.
Defined.

Lemma other_keys_example :
  let first := JDict [("tokens_saved", JInt 1)] in
  let second := JDict [("tokens_saved", JInt 2)] in
  let c := (CacheManager.set Example.dumps (CacheManager.init 512 14) 0 "a" first).2 in
  (CacheManager.get Example.loads
     (CacheManager.set Example.dumps c 1 "b" second).2 2 "a").1
  = Some first.
Proof.
  intros first second c.
  destruct (other_keys_are_kept Example.dumps Example.loads c 1 2 "b" "a" second
              (default EmptyString (Example.dumps second))
              (default EmptyString (Example.dumps first))) as [_ ->].
  - by repeat constructor.
  - done.
  - by vm_compute.
  - apply Z.leb_le. by vm_compute.
  - lia.
  - by vm_compute.
  - by vm_compute.
Defined.

End cache_entries_examples.


(** ** The identifiers of the requests of a session *)

Section numbering.
Import LSPServerProcess LSPClient RegistrySpec NumberingSpec.
Local Open Scope string_scope.
Local Open Scope list_scope.
Local Open Scope Z_scope.

Lemma request_ids_snoc sent msg :
  request_ids (sent ++ [msg])
  = request_ids sent ++ match request_id_of msg with Some n => [n] | None => [] end.
Proof.
  unfold request_ids. rewrite omap_app. by f_equal.
Qed.

Lemma request_numbered method params s :
  numbered s → numbered (_request method params s).2.
Proof.
  intros [Hpos Hsent]. unfold _request, _get_next_id, write, read_until. step_prog.
  unfold with_request_id, with_writer, with_reader.
  cbn [writer reader language command process _request_id].
  destruct (writer s) as [sent|] eqn:Hw.
  2:{ cbn [snd]. split; cbn; [lia|done]. }
  cbn [writer reader language command process _request_id].
  assert (request_ids (sent ++ [JDict [("jsonrpc", JStr "2.0");
                                        ("id", JInt (_request_id s + 1));
                                        ("method", JStr method); ("params", params)]])
          = seqZ 1 (_request_id s + 1)) as Hids.
  { rewrite request_ids_snoc, (Hsent sent eq_refl). cbn [request_id_of assoc String.eqb].
    rewrite seqZ_app by lia. f_equal.
    rewrite seqZ_cons, seqZ_nil by lia. f_equal. lia. }
  destruct (reader s) as [frames|].
  - destruct (read_reply (_request_id s + 1) frames) as [r rest].
    cbn [snd]. split; cbn; [lia|]. by intros ? [= <-].
  - cbn [snd]. split; cbn; [lia|]. by intros ? [= <-].
Qed.

Lemma notify_numbered method params s :
  numbered s → numbered (_notify method params s).2.
Proof.
  intros [Hpos Hsent]. unfold _notify, write, with_writer.
  destruct (writer s) as [sent|] eqn:Hw;
    [|cbn [snd]; split; [done|]; intros ? Hs; by rewrite Hw in Hs].
  cbn [snd]. split; [done|]. cbn. intros ? [= <-].
  rewrite request_ids_snoc, (Hsent sent eq_refl). cbn. by rewrite app_nil_r.
Qed.

Lemma bind_numbered {A B} (m : prog LSPServerProcess.t A)
    (k : A → prog LSPServerProcess.t B) s :
  numbered (m s).2 → (∀ a s', numbered s' → numbered (k a s').2) →
  numbered ((m ≫= k) s).2.
Proof.
  intros Hm Hk. step_prog. destruct (m s) as [[a| |] s']; [by apply Hk|done..].
Qed.

Lemma start_numbered W language command :
  numbered (start W (LSPServerProcess.new language command)).2.
Proof.
  unfold start.
  cbn [LSPServerProcess.new LSPServerProcess.command LSPServerProcess.language
       LSPServerProcess._request_id].
  destruct (popen W command) as [frames|]; [|by split].
  apply bind_numbered; [|done].
  unfold _initialize. apply bind_numbered.
  - apply request_numbered. split; [done|]. by intros ? [= <-].
  - intros result s' Hs'. apply bind_numbered; [by apply notify_numbered|done].
Qed.

Lemma get_symbols_numbered file_uri s :
  numbered s → numbered (LSPServerProcess.get_symbols file_uri s).2.
Proof.
  intros Hs. unfold LSPServerProcess.get_symbols.
  apply bind_numbered; [by apply request_numbered|done].
Qed.

Lemma get_references_numbered file_uri line character s :
  numbered s →
  numbered (LSPServerProcess.get_references file_uri line character s).2.
Proof.
  intros Hs. unfold LSPServerProcess.get_references.
  apply bind_numbered; [by apply request_numbered|done].
Qed.

Lemma get_definition_numbered file_uri line character s :
  numbered s →
  numbered (LSPServerProcess.get_definition file_uri line character s).2.
Proof.
  intros Hs. unfold LSPServerProcess.get_definition.
  apply bind_numbered; [by apply request_numbered|].
  intros result s' Hs'. unfold lift. by destruct (first_or_none result).
Qed.

Lemma start_server_numbered W language c :
  all_numbered c → all_numbered (_start_server W language c).2.
Proof.
  intros Hc. unfold _start_server.
  destruct (assoc language LANGUAGE_SERVERS) as [command|]; [|done].
  destruct (has_server language c); [done|].
  pose proof (start_numbered W language command) as Hstart.
  destruct (LSPServerProcess.start W _) as [[] server]; [|done..].
  intros l srv. cbn [snd servers]. rewrite lookup_insert.
  case_decide as Hl; [|apply Hc]. by intros [= <-].
Qed.

Lemma on_server_numbered {A} language (m : prog LSPServerProcess.t A) c :
  (∀ s, numbered s → numbered (m s).2) →
  all_numbered c → all_numbered (on_server language m c).2.
Proof.
  intros Hm Hc. unfold on_server.
  destruct (servers c !! language) as [server|] eqn:Hs; [|done].
  pose proof (Hm server (Hc _ _ Hs)) as Hserver.
  destruct (m server) as [r server']. intros l srv. cbn [snd servers].
  rewrite lookup_insert. case_decide as Hl; [|apply Hc]. by intros [= <-].
Qed.

Lemma started_then_numbered {A} W language (m : prog LSPServerProcess.t A)
    (d : A) c :
  (∀ s, numbered s → numbered (m s).2) →
  all_numbered c →
  all_numbered ((_start_server W language;;
                 c' ← get_state;
                 if has_server language c' then on_server language m
                 else mret d) c).2.
Proof.
  intros Hm Hc. step_prog.
  pose proof (start_server_numbered W language c Hc) as Hc'.
  destruct (_start_server W language c) as [[] c']; [|done..].
  destruct (has_server language c'); [|done].
  by apply on_server_numbered.
Qed.

Lemma reachable_numbered W c : reachable W c → all_numbered c.
Proof.
  induction 1 as [|c _ IH|c language _ IH|c f l ch _ IH|c f l ch _ IH|c f _ IH].
  - intros l srv Hl. cbn [servers LSPClient.new] in Hl.
    by rewrite lookup_empty in Hl.
  - unfold initialize. step_prog.
    pose proof (start_server_numbered W "python" c IH) as Hc'.
    by destruct (_start_server W "python" c) as [[] c'].
  - by apply start_server_numbered.
  - apply started_then_numbered; [|done].
    intros s. apply get_definition_numbered.
  - apply started_then_numbered; [|done].
    intros s. apply get_references_numbered.
  - apply started_then_numbered; [|done].
    intros s. apply get_symbols_numbered.
Qed.

(** X17. In every session of a registry, whatever was asked of the
    registry before and however the requests ended, the requests sent to
    the backend bear the numbers 1, 2, 3, ... up to the counter of the
    session, in the order in which they were sent: no identifier is used
    twice in a session. *)
Theorem request_ids_are_never_reused W c language server sent :
  reachable W c →
  servers c !! language = Some server →
  writer server = Some sent →
  request_ids sent = seqZ 1 (_request_id server)
  ∧ NoDup (request_ids sent).
Proof.
  intros Hc Hserver Hsent.
  destruct (reachable_numbered W c Hc language server Hserver) as [_ Hids].
  rewrite (Hids sent Hsent). split; [done|]. apply NoDup_seqZ.
Qed.

Lemma request_ids_example :
  let W := Example.world [Example.reply 1 JNull; Example.reply 2 (JList [])] in
  let c := (get_symbols W "/w/svc.py" LSPClient.new).2 in
  let server := default (LSPServerProcess.new EmptyString []) (servers c !! "python") in
  let sent := default [] (writer server) in
  length sent = 3%nat ∧ request_ids sent = [1; 2] ∧ NoDup (request_ids sent).
Proof.
  intros W c server sent.
  destruct (request_ids_are_never_reused W c "python" server sent) as [Hids Hnodup].
  - apply reach_symbols, reach_new.
  - by vm_compute.
  - by vm_compute.
  - split; [by vm_compute|]. split; [|done]. by rewrite Hids.
Defined.

End numbering.

(** ** A backend that cannot be spawned *)

Section missing_backend.
Import ContextManager ContextSpec.
Local Open Scope string_scope.
Local Open Scope list_scope.
Local Open Scope Z_scope.

Lemma start_server_not_spawned W language command c :
  assoc language LSPClient.LANGUAGE_SERVERS = Some command →
  LSPClient.has_server language c = false →
  popen W command = None →
  LSPClient._start_server W language c
  = (Raised (OSError (default EmptyString (head command))), c).
Proof.
  intros Hcommand Hnone Hpopen. unfold LSPClient._start_server.
  rewrite Hcommand, Hnone. unfold LSPServerProcess.start.
  cbn [LSPServerProcess.new LSPServerProcess.command]. by rewrite Hpopen.
Qed.

Lemma extract_symbols_not_spawned W file_path symbol_name scope s command :
  assoc (LSPClient._get_language_from_file file_path) LSPClient.LANGUAGE_SERVERS
    = Some command →
  LSPClient.has_server (LSPClient._get_language_from_file file_path) (lsp_client s)
    = false →
  popen W command = None →
  _extract_symbols W file_path symbol_name scope s
  = (Raised (OSError (default EmptyString (head command))), s).
Proof.
  intros Hcommand Hnone Hpopen.
  unfold _extract_symbols, on_lsp, LSPClient.get_symbols. step_prog.
  rewrite (start_server_not_spawned W _ command) by done. by destruct s.
Qed.

(** X15. When the backend of the language of a file cannot be spawned,
    the stub symbol is not used in its place: the extraction of the
    symbols raises the error of the spawn, and so does [get_context] for
    a query that names the file, once the cache has given nothing; no
    session is registered and nothing is put in the cache, so that the
    next request tries the spawn again. *)
Theorem missing_backend_is_an_error W now_lookup now_store file_path symbol_name
    scope max_tokens s command :
  occurs ":" file_path = false →
  file_path ≠ EmptyString →
  path_exists (fs s) file_path = true →
  assoc (LSPClient._get_language_from_file file_path) LSPClient.LANGUAGE_SERVERS
    = Some command →
  LSPClient.has_server (LSPClient._get_language_from_file file_path) (lsp_client s)
    = false →
  popen W command = None →
  (CacheManager.get (json_loads W) (cache s) now_lookup
     (_generate_cache_key W (file_path +:+ ":" +:+ symbol_name) scope max_tokens)).1
    = None →
  _extract_symbols W file_path symbol_name scope s
  = (Raised (OSError (default EmptyString (head command))), s)
  ∧ get_context W now_lookup now_store (file_path +:+ ":" +:+ symbol_name) scope
      max_tokens s
    = (Raised (OSError (default EmptyString (head command))),
       Make (lsp_client s)
            (CacheManager.get (json_loads W) (cache s) now_lookup
               (_generate_cache_key W (file_path +:+ ":" +:+ symbol_name) scope
                  max_tokens)).2
            (fs s)).
Proof.
  intros Hcolon Hne Hexists Hcommand Hnone Hpopen Hmiss.
  split; [by apply extract_symbols_not_spawned|].
  rewrite get_context_miss by done.
  unfold compute_context. step_prog. cbn [fs].
  unfold _parse_query.
  change (file_path +:+ ":" +:+ symbol_name) with (file_path +:+ String ":" symbol_name).
  rewrite split_once_first by done. rewrite Hexists.
  apply String.eqb_neq in Hne. rewrite !Hne. cbn beta iota.
  by rewrite (extract_symbols_not_spawned W file_path symbol_name scope _ command).
Qed.

Lemma missing_backend_example :
  (get_context ServerExample.bare_world 0 0 "/w/svc.py:authenticate" "function" 4096
     Example.fresh).1
  = Raised (OSError "pylsp").
Proof.
  destruct (missing_backend_is_an_error ServerExample.bare_world 0 0 "/w/svc.py"
              "authenticate" "function" 4096 Example.fresh ["pylsp"])
    as [_ Hraised]; [done..|].
  exact (f_equal fst Hraised).
Defined.

End missing_backend.

(** ** The names of the kinds *)

Section kinds.
Import ContextManager.
Local Open Scope string_scope.
Local Open Scope Z_scope.

(** X16. The names of the kinds of symbols: every number from 1 to 26
    has a name that is not [Unknown], two of these numbers never have
    the same name, every other number is named [Unknown], and so is a
    kind that is a string or [None]; [True] is read as 1. *)
Theorem kind_names n m :
  (1 ≤ n ≤ 26 → kind_of_int n ≠ "Unknown")
  ∧ (1 ≤ n ≤ 26 → 1 ≤ m ≤ 26 → kind_of_int n = kind_of_int m → n = m)
  ∧ (¬ 1 ≤ n ≤ 26 → kind_of_int n = "Unknown")
  ∧ _get_symbol_kind_name (JInt n) = Returned (kind_of_int n)
  ∧ _get_symbol_kind_name (JBool true) = Returned "File"
  ∧ (∀ s, _get_symbol_kind_name (JStr s) = Returned "Unknown")
  ∧ _get_symbol_kind_name JNull = Returned "Unknown".
Proof.
  assert (∀ k, 1 ≤ k ≤ 26 →
            k = 1 ∨ k = 2 ∨ k = 3 ∨ k = 4 ∨ k = 5 ∨ k = 6 ∨ k = 7 ∨ k = 8 ∨ k = 9
            ∨ k = 10 ∨ k = 11 ∨ k = 12 ∨ k = 13 ∨ k = 14 ∨ k = 15 ∨ k = 16
            ∨ k = 17 ∨ k = 18 ∨ k = 19 ∨ k = 20 ∨ k = 21 ∨ k = 22 ∨ k = 23
            ∨ k = 24 ∨ k = 25 ∨ k = 26) as Hcases by lia.
  split; [|split; [|split; [|by repeat split]]].
  - intros Hn. pose proof (Hcases n Hn) as Hn'.
    repeat (destruct Hn' as [->|Hn']; [done|]). by subst.
  - intros Hn Hm. pose proof (Hcases n Hn) as Hn'. pose proof (Hcases m Hm) as Hm'.
    clear Hcases Hn Hm.
    repeat (destruct Hn' as [->|Hn'];
            [repeat (destruct Hm' as [->|Hm']; [done|]); by subst|]).
    subst n. repeat (destruct Hm' as [->|Hm']; [done|]). by subst.
  - intros Hout. unfold kind_of_int, kind_map. cbn [List.find fst].
    repeat (match goal with
            | |- context [?k =? n] => destruct (Z.eqb_spec k n); [lia|]
            end).
    done.
Qed.

End kinds.

(** ** The results of the queries of a session *)

Section definitions.
Import LSPServerProcess SessionSpec.
Local Open Scope string_scope.
Local Open Scope list_scope.
Local Open Scope Z_scope.

Lemma request_answered method params s sent before kv after :
  writer s = Some sent →
  reader s = Some (before ++ Message (JDict kv) :: after) →
  Forall (passed_over (_request_id s + 1)) before →
  eq_int (id_of kv) (_request_id s + 1) = true →
  _request method params s
  = (delivered kv,
     Make (language s) (command s) (process s) (Some after)
          (Some (sent ++ [JDict [("jsonrpc", JStr "2.0");
                                 ("id", JInt (_request_id s + 1));
                                 ("method", JStr method); ("params", params)]]))
          (_request_id s + 1)).
Proof.
  intros Hw Hr Hbefore Hid.
  rewrite (request_unfold method params s sent _ Hw Hr).
  by rewrite read_reply_skips.
Qed.

(** X18. What the three queries of a session make of the result of
    the reply.  [get_definition] returns the first element of a list
    that is not empty and [None] for an empty list or a null result;
    for a single location given as an object, which is not a list, it
    raises [KeyError].  [get_references] and [get_symbols] return the
    empty list for a null result. *)
Theorem definition_is_the_first_of_a_list file_uri line character s sent
    before kv after :
  writer s = Some sent →
  reader s = Some (before ++ Message (JDict kv) :: after) →
  Forall (passed_over (_request_id s + 1)) before →
  eq_int (id_of kv) (_request_id s + 1) = true →
  assoc "error" kv = None →
  let result := default JNull (assoc "result" kv) in
  (∀ first others, result = JList (first :: others) →
     (get_definition file_uri line character s).1 = Returned first)
  ∧ (result = JList [] ∨ result = JNull →
     (get_definition file_uri line character s).1 = Returned JNull)
  ∧ (∀ member members, result = JDict (member :: members) →
     (get_definition file_uri line character s).1 = Raised KeyError)
  ∧ (result = JNull →
     (get_references file_uri line character s).1 = Returned (JList [])
     ∧ (get_symbols file_uri s).1 = Returned (JList [])).
Proof.
  intros Hw Hr Hbefore Hid Herror result.
  unfold get_definition, get_references, get_symbols. step_prog.
  rewrite !(request_answered _ _ s sent before kv after) by done.
  unfold delivered. rewrite Herror. fold result.
  split; [|split; [|split]].
  - by intros first others ->.
  - by intros [-> | ->].
  - by intros member members ->.
  - by intros ->.
Qed.

Lemma definition_example :
  let location := [("uri", JStr "file:///w/svc.py")] in
  let s := listening [Example.reply 1 (JDict location)] in
  (get_definition "file:///w/svc.py" (JInt 2) (JInt 0) s).1 = Raised KeyError.
Proof.
  intros location s.
  destruct (definition_is_the_first_of_a_list "file:///w/svc.py" (JInt 2) (JInt 0) s
              [] [] [("jsonrpc", JStr "2.0"); ("id", JInt 1);
                     ("result", JDict location)] [])
    as (_ & _ & Hobject & _); [done..|].
  by apply (Hobject ("uri", JStr "file:///w/svc.py") []).
Defined.

End definitions.

(** ** Stopping a session *)

Section stopping.
Import LSPServerProcess SessionSpec ShutdownSpec.
Local Open Scope string_scope.
Local Open Scope list_scope.
Local Open Scope Z_scope.

Lemma stop_outcome s r s' :
  stop s = (r, s') →
  (process s = false ∧ r = Returned () ∧ s' = s)
  ∨ (process s = true ∧ r = Hangs)
  ∨ (process s = true ∧ r ≠ Hangs ∧ stopped s').
Proof.
  unfold stop. destruct (process s); [|intros [= <- <-]; by left].
  destruct ((_request "shutdown" (JDict []) ≫= _) s) as [[[]| |] s1];
    intros [= <- <-]; right; [right|right|left]; by repeat split.
Qed.

Lemma stopped_request method params s :
  stopped s → (_request method params s).1 = Raised AttributeError.
Proof.
  intros (_ & _ & Hw). unfold _request, _get_next_id, write, with_request_id.
  step_prog. cbn [writer]. by rewrite Hw.
Qed.

(** X19. [stop] ends the use of a session.  On a session without a
    process it does nothing.  On a session with one, unless the request
    [shutdown] is never answered, the session is left without process,
    reader and writer, whether [stop] returned or raised; any request
    made on it afterwards raises [AttributeError], and a second [stop]
    does nothing. *)
Theorem stopped_session_is_unusable s r s' method params :
  stop s = (r, s') →
  (process s = false → r = Returned () ∧ s' = s)
  ∧ (process s = true → r ≠ Hangs →
     stopped s'
     ∧ (_request method params s').1 = Raised AttributeError
     ∧ stop s' = (Returned (), s')).
Proof.
  intros [(Hp & -> & ->)|[(Hp & ->)|(Hp & Hr & Hs)]]%stop_outcome.
  - split; [done|]. by rewrite Hp.
  - split; [by rewrite Hp|done].
  - split; [by rewrite Hp|]. intros _ _. split; [done|].
    split; [by apply stopped_request|].
    unfold stop. by destruct Hs as [-> _].
Qed.

Lemma stop_answering s :
  process s = true → answering s →
  stop s = (Returned (),
            Make (language s) (command s) false None None (_request_id s + 1)).
Proof.
  intros Hp (sent & before & kv & after & Hw & Hr & Hbefore & Hid & Herr).
  unfold stop. rewrite Hp. step_prog.
  rewrite (request_answered _ _ s sent before kv after) by done.
  unfold delivered. rewrite Herr. unfold _notify, write, with_writer.
  by cbn [writer language command process reader _request_id].
Qed.

Lemma stopped_session_example :
  let s := listening [Example.reply 1 JNull] in
  stop s = (Returned (), Make "python" ["pylsp"] false None None 1)
  ∧ (_request "textDocument/documentSymbol" (JDict []) (stop s).2).1
    = Raised AttributeError.
Proof.
  intros s. split; [reflexivity|].
  destruct (stopped_session_is_unusable s (stop s).1 (stop s).2
              "textDocument/documentSymbol" (JDict []))
    as [_ Hstopped]; [reflexivity|].
  by destruct Hstopped as (_ & Hrequest & _).
Defined.

End stopping.

(** ** Shutting the registry down *)

Section shutting_down.
Import LSPClient ShutdownSpec.
Local Open Scope string_scope.
Local Open Scope list_scope.
Local Open Scope Z_scope.

(** A session of the registry that is used after it was stopped. *)
Lemma get_symbols_stopped W file_path c server :
  is_Some (assoc (_get_language_from_file file_path) LANGUAGE_SERVERS) →
  servers c !! _get_language_from_file file_path = Some server →
  stopped server →
  (get_symbols W file_path c).1 = Raised AttributeError
  ∧ (get_references W file_path (JInt 0) (JInt 0) c).1 = Raised AttributeError.
Proof.
  intros [command Hcommand] Hserver Hstopped.
  assert (has_server (_get_language_from_file file_path) c = true) as Hhas.
  { unfold has_server. apply bool_decide_eq_true_2. by rewrite Hserver. }
  assert (_start_server W (_get_language_from_file file_path) c = (Returned (), c))
    as Hstart.
  { unfold _start_server. by rewrite Hcommand, Hhas. }
  unfold get_symbols, get_references. step_prog. rewrite Hstart, Hhas.
  unfold on_server. rewrite Hserver.
  unfold LSPServerProcess.get_symbols, LSPServerProcess.get_references. step_prog.
  pose proof (stopped_request "textDocument/documentSymbol"
                (JDict [LSPServerProcess.text_document (file_uri W file_path)])
                server Hstopped) as Hsym.
  pose proof (stopped_request "textDocument/references"
                (JDict [LSPServerProcess.text_document (file_uri W file_path);
                        LSPServerProcess.position (JInt 0) (JInt 0);
                        ("context", JDict [("includeDeclaration", JBool true)])])
                server Hstopped) as Href.
  destruct (LSPServerProcess._request "textDocument/documentSymbol" _ server)
    as [r1 s1]. cbn [fst] in Hsym. subst r1.
  destruct (LSPServerProcess._request "textDocument/references" _ server)
    as [r2 s2]. cbn [fst] in Href. by subst r2.
Qed.

Lemma stop_all_raised languages c e c' :
  Forall (fun language => is_Some (servers c !! language)) languages →
  stop_all languages c = (Raised e, c') →
  initialized c' = initialized c
  ∧ ∃ language server,
      language ∈ languages
      ∧ servers c' !! language = Some server
      ∧ stopped server.
Proof.
  intros Hall. revert c Hall.
  induction languages as [|language rest IH]; intros c Hall; [done|].
  apply Forall_cons in Hall as [[server Hserver] Hrest].
  cbn [stop_all]. step_prog. unfold on_server at 1. rewrite Hserver.
  destruct (LSPServerProcess.stop server) as [r server'] eqn:Hstop.
  destruct r as [[]|e'|].
  - intros Hraised. apply IH in Hraised as (Hinit & l & srv & Hl & Hsrv & Hstopped).
    + split; [done|]. exists l, srv. split; [by right|done].
    + eapply Forall_impl; [exact Hrest|]. cbn [servers]. intros l [srv Hsrv].
      rewrite lookup_insert. case_decide; eauto.
  - intros [= <- <-]. split; [done|]. exists language, server'.
    split; [by left|]. cbn [servers]. rewrite lookup_insert_eq. split; [done|].
    apply stop_outcome in Hstop as [(_ & ? & _)|[(_ & ?)|(_ & _ & ?)]]; done.
  - done.
Qed.

(** X20. A [shutdown] that fails leaves dead sessions behind.  When
    the stop of a session raises, the sessions are not cleared: the
    registry still holds a session that has been stopped, and since a
    language that has a session is not started again, every later
    query for a file of that language raises [AttributeError]. *)
Theorem failed_shutdown_leaves_dead_sessions W languages c e c' :
  Forall (fun language => is_Some (servers c !! language)) languages →
  shutdown languages c = (Raised e, c') →
  initialized c' = initialized c
  ∧ ∃ language server,
      language ∈ languages
      ∧ servers c' !! language = Some server
      ∧ stopped server
      ∧ ∀ file_path,
          _get_language_from_file file_path = language →
          is_Some (assoc language LANGUAGE_SERVERS) →
          (get_symbols W file_path c').1 = Raised AttributeError
          ∧ (get_references W file_path (JInt 0) (JInt 0) c').1
            = Raised AttributeError.
Proof.
  intros Hall. unfold shutdown. step_prog.
  destruct (stop_all languages c) as [[[]|e'|] c1] eqn:Hstop; [done| |done].
  intros [= <- <-].
  apply stop_all_raised in Hstop as (Hinit & language & server & Hl & Hs & Hstopped);
    [|done].
  split; [done|]. exists language, server. do 3 (split; [done|]).
  intros file_path <- Hconfigured. by eapply get_symbols_stopped.
Qed.

Lemma failed_shutdown_example :
  let refusal := JDict [("code", JInt (-32600)); ("message", JStr "not now")] in
  let W := Example.world [Example.reply 1 JNull;
                          Message (JDict [("jsonrpc", JStr "2.0"); ("id", JInt 2);
                                          ("error", refusal)])] in
  let c := (initialize W LSPClient.new).2 in
  (shutdown ["python"] c).1 = Raised (LSPError refusal)
  ∧ (get_symbols W "/w/svc.py" (shutdown ["python"] c).2).1 = Raised AttributeError.
Proof.
  intros refusal W c.
  assert (shutdown ["python"] c
          = (Raised (LSPError refusal), (shutdown ["python"] c).2)) as Hrun
    by by vm_compute.
  split; [by rewrite Hrun|].
  assert (Forall (fun language => is_Some (servers c !! language)) ["python"]) as Hall.
  { constructor; [|done]. apply (bool_decide_unpack _). by vm_compute. }
  destruct (failed_shutdown_leaves_dead_sessions W ["python"] c _ _ Hall Hrun)
    as (_ & language & server & Hin & _ & _ & Hdead).
  apply list_elem_of_singleton in Hin as ->.
  by destruct (Hdead "/w/svc.py" eq_refl ltac:(by eexists)) as [Hsymbols _].
Defined.

Lemma stop_all_returns languages c :
  NoDup languages → closing_down languages c →
  ∃ c', stop_all languages c = (Returned (), c').
Proof.
  intros Hnodup. revert c.
  induction Hnodup as [|language rest Hnotin _ IH]; intros c Hall; [by eexists|].
  apply Forall_cons in Hall as [(server & Hserver & Hstate) Hrest].
  cbn [stop_all]. step_prog. unfold on_server at 1. rewrite Hserver.
  assert (∃ server', LSPServerProcess.stop server = (Returned (), server'))
    as [server' ->].
  { destruct Hstate as [Hp|Ha].
    - unfold LSPServerProcess.stop. rewrite Hp. by eexists.
    - destruct (LSPServerProcess.process server) eqn:Hp.
      + rewrite stop_answering by done. by eexists.
      + unfold LSPServerProcess.stop. rewrite Hp. by eexists. }
  apply IH. apply Forall_forall. intros l Hl.
  destruct (proj1 (Forall_forall _ _) Hrest l Hl) as (srv & Hsrv & Hstate').
  exists srv. split; [|done]. cbn [servers].
  rewrite lookup_insert_ne; [done|]. by intros ->.
Qed.

(** X21. When every session of the registry answers its [shutdown]
    request with a result, or has been stopped already, [shutdown]
    returns and the registry is as new: it holds no session and is not
    initialized. *)
Theorem shutdown_clears_the_registry languages c :
  NoDup languages → closing_down languages c →
  shutdown languages c = (Returned (), LSPClient.new).
Proof.
  intros Hnodup Hall. unfold shutdown. step_prog.
  by destruct (stop_all_returns languages c Hnodup Hall) as [c' ->].
Qed.

Lemma shutdown_example :
  let W := Example.world [Example.reply 1 JNull; Example.reply 2 JNull] in
  let c := (initialize W LSPClient.new).2 in
  has_server "python" c = true
  ∧ shutdown ["python"] c = (Returned (), LSPClient.new).
Proof.
  intros W c. split; [by vm_compute|].
  apply shutdown_clears_the_registry; [apply NoDup_singleton|].
  constructor; [|done]. eexists. split; [by vm_compute|]. right.
  exists [JDict [("jsonrpc", JStr "2.0"); ("id", JInt 1); ("method", JStr "initialize");
                 ("params", JDict [
                    ("processId", JInt 4242);
                    ("rootUri", JStr "file:///w");
                    ("capabilities", JDict [
                       ("textDocument", JDict [
                          ("definition", JDict [("dynamicRegistration", JBool false)]);
                          ("references", JDict [("dynamicRegistration", JBool false)]);
                          ("documentSymbol",
                           JDict [("dynamicRegistration", JBool false)])])])])];
          JDict [("jsonrpc", JStr "2.0"); ("method", JStr "initialized");
                 ("params", JDict [])]],
    [], [("jsonrpc", JStr "2.0"); ("id", JInt 2); ("result", JNull)], [].
  by repeat split.
Defined.

End shutting_down.

(** ** The server on standard input and output *)

Section server.
Import MCPStdioServer ServerSpec.
Local Open Scope string_scope.
Local Open Scope list_scope.
Local Open Scope Z_scope.

Variables (T : Tools) (H : Host) (W : World).

Lemma on_context_manager_frame {A} (m : prog ContextManager.t A) s :
  cache_manager (on_context_manager m s).2 = cache_manager s
  ∧ request_id_counter (on_context_manager m s).2 = request_id_counter s
  ∧ stdout (on_context_manager m s).2 = stdout s.
Proof. unfold on_context_manager. by destruct (m (context_manager s)). Qed.

Lemma write_response_outcome response s :
  (∃ text, json_dumps W response = Some text
           ∧ write_response H W response s
             = (Returned (),
                Make (cache_manager s) (context_manager s) (request_id_counter s)
                     (stdout s ++ [written text])))
  ∨ (json_dumps W response = None
     ∧ write_response H W response s = (Raised (dumps_error H response), s)).
Proof.
  unfold write_response. destruct (json_dumps W response) as [text|]; [left|right];
    eauto.
Qed.

Lemma report_outcome request_id f s0 s :
  stdout s = stdout s0 →
  outcome_of W request_id s0 (report H W request_id f s).1 (report H W request_id f s).2.
Proof.
  intros Hout. unfold report. destruct (is_none request_id) eqn:Hid.
  - apply silent; [done|by left|by rewrite Hid].
  - destruct (write_response_outcome
                (error_response request_id (message H W f)) s)
      as [(text & Hdumps & ->)|[_ ->]].
    + eapply answered; [done|right; by eexists|exact Hdumps|]. cbn. by rewrite Hout.
    + apply silent; [done|by rewrite Hid|done].
Qed.

Lemma answer_outcome now_lookup now_store method params request_id s :
  outcome_of W request_id s
    (answer T H W now_lookup now_store method params request_id s).1
    (answer T H W now_lookup now_store method params request_id s).2.
Proof.
  unfold answer.
  pose proof (on_context_manager_frame
                (dispatch T H now_lookup now_store method params) s) as (_ & _ & Hout).
  destruct (on_context_manager _ s) as [[[f|result]|e|] s1]; cbn [snd] in Hout.
  - by apply report_outcome.
  - destruct (is_none request_id) eqn:Hid.
    { apply silent; [done|by left|by rewrite Hid]. }
    destruct (write_response_outcome (result_response request_id result) s1)
      as [(text & Hdumps & ->)|[_ ->]].
    + eapply answered; [done|left; by eexists|exact Hdumps|]. cbn. by rewrite Hout.
    + by apply report_outcome.
  - by apply report_outcome.
  - apply silent; [done|by right|done].
Qed.

Lemma handle_request_dict now_lookup now_store kv s :
  handle_request T H W now_lookup now_store (JDict kv) s
  = answer T H W now_lookup now_store
      (default JNull (assoc "method" kv)) (default (JDict []) (assoc "params" kv))
      (id_of kv) s.
Proof. reflexivity. Qed.

Lemma handle_request_other now_lookup now_store request s :
  (∀ kv, request ≠ JDict kv) →
  handle_request T H W now_lookup now_store request s = (Raised AttributeError, s).
Proof. intros Hnot. by destruct request as [| | | | |kv]; [..|destruct (Hnot kv)]. Qed.

(** X22. A notification is never answered: for a request without
    identifier, or whose identifier is null, nothing is written on the
    standard output, whatever the method, the tools and their outcome;
    an error of the handling is swallowed too, so that [handle_request]
    returns unless the handling never ends. *)
Theorem notification_is_never_answered now_lookup now_store kv s :
  assoc "id" kv = None ∨ assoc "id" kv = Some JNull →
  stdout (handle_request T H W now_lookup now_store (JDict kv) s).2 = stdout s
  ∧ ((handle_request T H W now_lookup now_store (JDict kv) s).1 = Returned ()
     ∨ (handle_request T H W now_lookup now_store (JDict kv) s).1 = Hangs).
Proof.
  intros Hid. rewrite handle_request_dict.
  assert (is_none (id_of kv) = true) as Hnone.
  { unfold id_of. by destruct Hid as [-> | ->]. }
  destruct (answer_outcome now_lookup now_store
              (default JNull (assoc "method" kv))
              (default (JDict []) (assoc "params" kv)) (id_of kv) s)
    as [r s' Hout Hr _|response text s' Hsome]; [|congruence].
  split; [done|]. by apply Hr.
Qed.


(** X23. A request that bears an identifier is answered once, with
    its identifier.  When [handle_request] returns, one line has been
    added to the standard output: the JSON text of a response that bears
    the identifier of the request and holds either a result or an error
    of code -32603.  When it does not return, nothing has been
    written. *)
Theorem request_is_answered_once now_lookup now_store kv s r s' :
  is_none (id_of kv) = false →
  handle_request T H W now_lookup now_store (JDict kv) s = (r, s') →
  (r = Returned () →
   ∃ response text,
     responds_to (id_of kv) response
     ∧ json_dumps W response = Some text
     ∧ stdout s' = stdout s ++ [written text])
  ∧ (r ≠ Returned () → stdout s' = stdout s).
Proof.
  intros Hid Hrun. rewrite handle_request_dict in Hrun.
  pose proof (answer_outcome now_lookup now_store
                (default JNull (assoc "method" kv))
                (default (JDict []) (assoc "params" kv)) (id_of kv) s) as Hout.
  rewrite Hrun in Hout. cbn [fst snd] in Hout.
  destruct Hout as [r s' Hout _ Hr|response text s' _ Hresp Hdumps Hout].
  - split; [|done]. intros ->. by destruct (Hr Hid).
  - split; [|done]. intros _. by exists response, text.
Qed.


Lemma dispatch_unknown now_lookup now_store method params cm :
  is_str "initialize" method = false → is_str "tools/call" method = false →
  is_str "tools/list" method = false → is_str "shutdown" method = false →
  dispatch T H now_lookup now_store method params cm
  = (Returned (inl (UnknownMethod method)), cm).
Proof. intros H1 H2 H3 H4. unfold dispatch. by rewrite H1, H2, H3, H4. Qed.

(** X24. A method that is none of [initialize], [tools/call],
    [tools/list] and [shutdown], or no method at all, is an error: the
    aggregator and its sessions are left as they were, and a request
    that bears an identifier is answered with the error of code -32603
    whose message is [Unknown method:] and the method. *)
Theorem unknown_method_is_an_error now_lookup now_store kv s text :
  let method := default JNull (assoc "method" kv) in
  let response :=
    error_response (id_of kv) ("Unknown method: " +:+ ContextManager.format W method) in
  is_str "initialize" method = false → is_str "tools/call" method = false →
  is_str "tools/list" method = false → is_str "shutdown" method = false →
  is_none (id_of kv) = false →
  json_dumps W response = Some text →
  handle_request T H W now_lookup now_store (JDict kv) s
  = (Returned (),
     Make (cache_manager s) (context_manager s) (request_id_counter s)
          (stdout s ++ [written text])).
Proof.
  intros method response H1 H2 H3 H4 Hid Hdumps.
  rewrite handle_request_dict. fold method. unfold answer, on_context_manager.
  rewrite dispatch_unknown by done. unfold report. rewrite Hid.
  unfold write_response. cbn [message]. fold response. by rewrite Hdumps.
Qed.


End server.

Section server_examples.
Import MCPStdioServer ServerSpec.
Local Open Scope string_scope.
Local Open Scope list_scope.
Local Open Scope Z_scope.

Lemma notification_example :
  let W := Example.world [] in
  let notification := [("jsonrpc", JStr "2.0"); ("method", JStr "tools/list")] in
  stdout (handle_request (ServerExample.tools W) ServerExample.host W 0 0
            (JDict notification) ServerExample.fresh).2
  = [].
Proof.
  intros W notification.
  by destruct (notification_is_never_answered (ServerExample.tools W)
                 ServerExample.host W 0 0 notification ServerExample.fresh
                 ltac:(by left)) as [-> _].
Defined.

Lemma request_example_answered :
  let W := Example.world [] in
  let request := [("jsonrpc", JStr "2.0"); ("id", JInt 7);
                  ("method", JStr "tools/call");
                  ("params", tool_call "find_symbol" [("symbol_name", JStr "nothing")])] in
  let run := handle_request (ServerExample.tools W) ServerExample.host W 0 0
               (JDict request) ServerExample.fresh in
  run.1 = Returned ()
  ∧ ∃ response text,
      responds_to (JInt 7) response
      ∧ Example.dumps response = Some text
      ∧ stdout run.2 = [written text].
Proof.
  intros W request run.
  assert (run = (Returned (), run.2)) as Hrun by by vm_compute.
  split; [by rewrite Hrun|].
  destruct (request_is_answered_once (ServerExample.tools W) ServerExample.host W
              0 0 request ServerExample.fresh _ _ eq_refl Hrun) as [Hanswered _].
  exact (Hanswered eq_refl).
Defined.

Lemma unknown_method_example :
  let W := Example.world [] in
  let request := [("jsonrpc", JStr "2.0"); ("id", JInt 3); ("method", JStr "ping")] in
  let response := error_response (JInt 3) "Unknown method: ping" in
  handle_request (ServerExample.tools W) ServerExample.host W 0 0 (JDict request)
    ServerExample.fresh
  = (Returned (),
     Make (cache_manager ServerExample.fresh) (context_manager ServerExample.fresh)
          (request_id_counter ServerExample.fresh)
          [written (default EmptyString (Example.dumps response))]).
Proof.
  intros W request response.
  by apply (unknown_method_is_an_error (ServerExample.tools W) ServerExample.host W
              0 0 request ServerExample.fresh
              (default EmptyString (Example.dumps response))).
Defined.

End server_examples.


(** ** The tools, the loop and the start of the server *)

Section tools.
Import MCPStdioServer ServerSpec.
Local Open Scope string_scope.
Local Open Scope list_scope.
Local Open Scope Z_scope.

Variables (T : Tools) (H : Host) (W : World).

Lemma call_tool_named now_lookup now_store name arguments cm :
  call_tool T H now_lookup now_store (tool_call name arguments) cm
  = (if String.eqb name "find_symbol" then
       result ← tool_find_symbol T (default JNull (assoc "symbol_name" arguments))
                  (default JNull (assoc "language" arguments));
       mret (inr result)
     else if String.eqb name "get_context" then
       result ← tool_get_context T now_lookup now_store
                  (default JNull (assoc "query" arguments)) "function" (MAX_TOKENS H);
       mret (inr result)
     else if String.eqb name "apply_edit" then
       result ← tool_apply_edit T (default JNull (assoc "file_path" arguments))
                  (default JNull (assoc "edits" arguments));
       mret (inr result)
     else mret (inl (UnknownTool (JStr name)))) cm.
Proof.
  unfold call_tool, tool_call. cbn [py_get assoc String.eqb Ascii.eqb Bool.eqb default].
  step_prog. unfold id. cbn [is_str py_get].
  by repeat (destruct (String.eqb name _)).
Qed.

(** X25. The server lists the tools it serves and no other.  The
    methods [initialize] and [tools/list] name the same three tools,
    with the same description and the same schema for each; the call of
    a tool of one of these names is passed to the aggregator, and the
    call of a tool of any other name is refused as unknown, without the
    aggregator being asked. *)
Theorem listed_tools_are_the_tools_served now_lookup now_store name arguments cm :
  declared initialize_result = listed tools_list_result
  ∧ map fst (listed tools_list_result)
    = [JStr "find_symbol"; JStr "get_context"; JStr "apply_edit"]
  ∧ (JStr name ∈ map fst (listed tools_list_result) →
     ¬ refused (call_tool T H now_lookup now_store (tool_call name arguments) cm))
  ∧ (JStr name ∉ map fst (listed tools_list_result) →
     call_tool T H now_lookup now_store (tool_call name arguments) cm
     = (Returned (inl (UnknownTool (JStr name))), cm)).
Proof.
  split; [reflexivity|]. split; [reflexivity|].
  change (map fst (listed tools_list_result))
    with [JStr "find_symbol"; JStr "get_context"; JStr "apply_edit"].
  rewrite call_tool_named. split.
  - intros Hin [tool_name Hrefused]. revert Hrefused.
    assert (name = "find_symbol" ∨ name = "get_context" ∨ name = "apply_edit")
      as [-> |[-> | ->]].
    { apply elem_of_cons in Hin as [[= ->]|Hin]; [by left|].
      apply elem_of_cons in Hin as [[= ->]|Hin]; [right; by left|].
      apply elem_of_cons in Hin as [[= ->]|Hin]; [right; by right|].
      by apply elem_of_nil in Hin. }
    + cbn [String.eqb Ascii.eqb Bool.eqb]. step_prog.
      by destruct (tool_find_symbol T _ _ cm) as [[]].
    + cbn [String.eqb Ascii.eqb Bool.eqb]. step_prog.
      by destruct (tool_get_context T _ _ _ _ _ cm) as [[]].
    + cbn [String.eqb Ascii.eqb Bool.eqb]. step_prog.
      by destruct (tool_apply_edit T _ _ cm) as [[]].
  - intros Hnotin.
    destruct (String.eqb_spec name "find_symbol") as [->|_]; [set_solver|].
    destruct (String.eqb_spec name "get_context") as [->|_]; [set_solver|].
    destruct (String.eqb_spec name "apply_edit") as [->|_]; [set_solver|done].
Qed.

Lemma serve_cons a rest s :
  line a ≠ EmptyString →
  serve T H W (a :: rest) s
  = match json_loads W (strip H (line a)) with
    | Some request =>
        match handle_request T H W (now_lookup a) (now_store a) request s with
        | (Hangs, s') => (Hangs, s')
        | (_, s') => serve T H W rest s'
        end
    | None => serve T H W rest s
    end.
Proof. intros Hne%String.eqb_neq. cbn [serve]. by rewrite Hne. Qed.

Lemma handle_request_writes now_lookup now_store request s :
  stdout (handle_request T H W now_lookup now_store request s).2 = stdout s
  ∨ ∃ kv response text,
      request = JDict kv
      ∧ is_none (id_of kv) = false
      ∧ responds_to (id_of kv) response
      ∧ json_dumps W response = Some text
      ∧ stdout (handle_request T H W now_lookup now_store request s).2
        = stdout s ++ [written text].
Proof.
  destruct request as [| | | | |kv]; try by left.
  rewrite (handle_request_dict T H W).
  destruct (answer_outcome T H W now_lookup now_store
              (default JNull (assoc "method" kv))
              (default (JDict []) (assoc "params" kv)) (id_of kv) s)
    as [r s' Hout _ _|response text s' Hid Hresp Hdumps Hout]; [by left|].
  right. by exists kv, response, text.
Qed.

Lemma answers_length input lines :
  answers H W input lines →
  (length lines ≤ length (List.filter (expects_response H W) input))%nat.
Proof.
  induction 1 as [input|a input lines _ IH|a input lines kv response text
                  Hloads Hid _ _ _ IH]; cbn [length List.filter].
  - lia.
  - destruct (expects_response H W a); cbn [length]; lia.
  - unfold expects_response at 1. rewrite Hloads, Hid. cbn [negb length]. lia.
Qed.

(** X26. The loop of [run] only adds to the standard output, and what
    it adds are answers to the lines it read, in the order of these
    lines: each is the JSON text of a response that bears the identifier
    of a request read on its line.  At most one line is written for a
    line that is read, and none for a line that is not JSON, that holds
    something other than an object, or that holds a notification. *)
Theorem serve_answers_at_most_once input s :
  ∃ lines,
    stdout (serve T H W input s).2 = stdout s ++ lines
    ∧ answers H W input lines
    ∧ (length lines ≤ length (List.filter (expects_response H W) input))%nat.
Proof.
  enough (∃ lines, stdout (serve T H W input s).2 = stdout s ++ lines
                   ∧ answers H W input lines) as (lines & Hout & Hanswers).
  { exists lines. split; [done|]. split; [done|]. by apply answers_length. }
  revert s. induction input as [|a rest IH]; intros s.
  { exists []. rewrite app_nil_r. split; [done|constructor]. }
  destruct (String.eqb_spec (line a) EmptyString) as [Hend|Hline].
  { cbn [serve]. apply String.eqb_eq in Hend as ->.
    exists []. rewrite app_nil_r. split; [done|constructor]. }
  rewrite serve_cons by done.
  destruct (json_loads W (strip H (line a))) as [request|] eqn:Hloads.
  2:{ destruct (IH s) as (lines & Hout & Hanswers).
      exists lines. split; [done|by constructor]. }
  pose proof (handle_request_writes (now_lookup a) (now_store a) request s)
    as Hfirst.
  destruct (handle_request T H W (now_lookup a) (now_store a) request s)
    as [r s1]. cbn [snd] in Hfirst.
  destruct (IH s1) as (others & Hout & Hothers).
  destruct Hfirst as [Hsame|(kv & response & text & -> & Hid & Hresp & Hdumps & Hone)].
  - destruct r; cbn [snd];
      [exists others|exists others|exists []];
      rewrite ?Hout, ?Hsame, ?app_nil_r;
      (split; [done|by constructor]).
  - destruct r; cbn [snd];
      [exists (written text :: others)|exists (written text :: others)
      |exists [written text]];
      rewrite ?Hout, ?Hone, <- ?app_assoc;
      (split; [done|]); eapply answers_reply; try done; constructor.
Qed.

(** X27. When the backend for Python cannot be spawned the server
    serves nothing: [run] raises the error of the spawn before it reads
    a line, whatever is on the standard input, and nothing is written;
    the sessions are not shut down, there is none. *)
Theorem run_needs_the_python_backend CACHE_SIZE_MB CACHE_TTL_DAYS fs input :
  popen W ["pylsp"] = None →
  main T H W CACHE_SIZE_MB CACHE_TTL_DAYS fs input
  = (Raised (OSError "pylsp"), MCPStdioServer.new CACHE_SIZE_MB CACHE_TTL_DAYS fs).
Proof.
  intros Hpopen. unfold main, run, initialize, on_context_manager. step_prog.
  unfold ContextManager.on_lsp, LSPClient.initialize. step_prog.
  cbn [context_manager MCPStdioServer.new ContextManager.lsp_client ContextManager.new].
  by rewrite (start_server_not_spawned W "python" ["pylsp"]).
Qed.

(** X30. Through the server, [get_context] is always called with the
    scope [function] and the configured token budget: of the arguments
    of the call of the tool only [query] is read, so that two calls that
    differ in any other argument, [scope] and [max_tokens] included, are
    handled alike. *)
Theorem stdio_get_context_reads_the_query_only now_lookup now_store arguments
    arguments' cm :
  assoc "query" arguments = assoc "query" arguments' →
  call_tool T H now_lookup now_store (tool_call "get_context" arguments) cm
  = call_tool T H now_lookup now_store (tool_call "get_context" arguments') cm
  ∧ call_tool T H now_lookup now_store (tool_call "get_context" arguments) cm
    = (result ← tool_get_context T now_lookup now_store
                  (default JNull (assoc "query" arguments)) "function" (MAX_TOKENS H);
       mret (inr result)) cm.
Proof.
  intros Hquery. rewrite !call_tool_named. cbn [String.eqb Ascii.eqb Bool.eqb].
  by rewrite Hquery.
Qed.

End tools.

Section tools_examples.
Import MCPStdioServer ServerSpec.
Local Open Scope string_scope.
Local Open Scope list_scope.
Local Open Scope Z_scope.

Lemma run_without_backend_example :
  let W := ServerExample.bare_world in
  let request := Arrival "{}" 0 0 in
  main (ServerExample.tools W) ServerExample.host W 512 14 Example.files [request]
  = (Raised (OSError "pylsp"), ServerExample.fresh).
Proof.
  intros W request.
  by apply (run_needs_the_python_backend (ServerExample.tools W) ServerExample.host W
              512 14 Example.files [request]).
Defined.

Lemma stdio_scope_example :
  let W := Example.world [] in
  let plain := [("query", JStr "nothing")] in
  let scoped := [("query", JStr "nothing"); ("scope", JStr "file");
                 ("max_tokens", JInt 10)] in
  call_tool (ServerExample.tools W) ServerExample.host 0 0
    (tool_call "get_context" scoped) Example.fresh
  = call_tool (ServerExample.tools W) ServerExample.host 0 0
      (tool_call "get_context" plain) Example.fresh.
Proof.
  intros W plain scoped.
  by destruct (stdio_get_context_reads_the_query_only (ServerExample.tools W)
                 ServerExample.host 0 0 scoped plain Example.fresh eq_refl)
    as [-> _].
Defined.

End tools_examples.

(** ** The walk of the workspace *)

Section walking.
Import ContextManager WalkSpec.
Local Open Scope string_scope.
Local Open Scope list_scope.

Lemma walk_visible top d root :
  visible_from top root →
  Forall (fun rf => visible_from top (fst rf))
         (walk (fun name => negb (startswith name ".")) root d).
Proof.
  revert d root. fix IH 1. intros [files subdirs] root Hroot.
  cbn [walk]. constructor; [done|].
  induction subdirs as [|[name sub] rest IHrest]; [constructor|].
  apply Forall_app. split; [|exact IHrest].
  destruct (startswith name ".") eqn:Hname; cbn [negb]; [constructor|].
  apply IH. by constructor.
Qed.

(** X28. The file [_find_symbol_file] returns is a file whose name
    ends in [.py], in the working directory or in a directory reached
    from it through directories whose names do not start with a dot:
    what a hidden directory holds is never returned.  The file could be
    read, and the pattern of a declaration of the symbol was found in
    it. *)
Theorem found_file_is_visible W files symbol_name file_path :
  _find_symbol_file W files symbol_name = Some file_path →
  ∃ root file,
    file_path = path_join root file
    ∧ visible_from (getcwd W) root
    ∧ endswith file ".py" = true
    ∧ ∃ content,
        read_text files file_path = Returned content
        ∧ re_search_definition W symbol_name content = Some true.
Proof.
  unfold _find_symbol_file. intros [Hin Hdefines]%find_some.
  apply in_flat_map in Hin as ([root listed] & Hwalk & Hfile).
  apply in_map_iff in Hfile as (file & <- & Hlisted).
  apply filter_In in Hlisted as [_ Hpy]. cbn [fst snd] in *.
  exists root, file. split; [done|]. split.
  - pose proof (walk_visible (getcwd W) (workspace W) (getcwd W)
                  (visible_top _)) as Hall.
    apply list_elem_of_In in Hwalk.
    by apply (proj1 (Forall_forall _ _) Hall (root, listed)).
  - split; [done|]. unfold defines in Hdefines.
    destruct (read_text files (path_join root file)) as [content| |]; [|done..].
    exists content. split; [done|].
    by destruct (re_search_definition W symbol_name content) as [[]|].
Qed.

Lemma found_file_example :
  let W := Example.world [] in
  defines W Example.files "authenticate" "/w/.git/hook.py" = true
  ∧ _find_symbol_file W Example.files "authenticate" = Some "/w/svc.py"
  ∧ ∃ root file, "/w/svc.py" = path_join root file
                 ∧ visible_from "/w" root ∧ endswith file ".py" = true.
Proof.
  intros W. split; [reflexivity|]. split; [reflexivity|].
  destruct (found_file_is_visible W Example.files "authenticate" "/w/svc.py" eq_refl)
    as (root & file & Hpath & Hroot & Hpy & _).
  by exists root, file.
Defined.

End walking.
